(** * housetrap/idf-app: device lifecycle and state coordination

    A shallow embedding of the configuration store wrapper ([NvsHandle]),
    the WiFi provisioner, the MQTT client, the firmware updater and the
    web-service handlers that tie them together, with the properties the
    specification states about them.

    The firmware is a thin layer over ESP-IDF services.  Every call into
    ESP-IDF is kept visible: stateful services (NVS, OTA data, the
    provisioning manager) are modelled by small state machines that follow
    their documented contract, services whose answer the firmware cannot
    influence (the MQTT transport, the HTTPS download) answer through
    explicit parameters, and calls are recorded in traces.  Console logging
    ([ESP_LOGx]) has no effect on any state and is left out. *)

From Stdlib Require Import ZArith Lia List String Ascii Bool.
From Stdlib Require Import SpecFloat.
From stdpp Require Import base option gmap strings list.

Local Open Scope Z_scope.

(** [esp_err_t] is a plain [int]. *)
Definition esp_err_t : Type := Z.

Definition ESP_OK : esp_err_t := 0.
Definition ESP_FAIL : esp_err_t := -1.
Definition ESP_ERR_NO_MEM : esp_err_t := 0x101.
Definition ESP_ERR_INVALID_STATE : esp_err_t := 0x103.
Definition ESP_ERR_NOT_FOUND : esp_err_t := 0x105.
Definition ESP_ERR_NVS_BASE : esp_err_t := 0x1100.
Definition ESP_ERR_NVS_NOT_FOUND : esp_err_t := ESP_ERR_NVS_BASE + 0x02.
Definition ESP_ERR_NVS_TYPE_MISMATCH : esp_err_t := ESP_ERR_NVS_BASE + 0x03.
Definition ESP_ERR_NVS_READ_ONLY : esp_err_t := ESP_ERR_NVS_BASE + 0x04.
Definition ESP_ERR_NVS_NOT_ENOUGH_SPACE : esp_err_t := ESP_ERR_NVS_BASE + 0x05.
Definition ESP_ERR_NVS_INVALID_NAME : esp_err_t := ESP_ERR_NVS_BASE + 0x06.
Definition ESP_ERR_NVS_INVALID_HANDLE : esp_err_t := ESP_ERR_NVS_BASE + 0x07.
Definition ESP_ERR_NVS_KEY_TOO_LONG : esp_err_t := ESP_ERR_NVS_BASE + 0x09.
Definition ESP_ERR_NVS_INVALID_LENGTH : esp_err_t := ESP_ERR_NVS_BASE + 0x0c.
Definition ESP_ERR_NVS_VALUE_TOO_LONG : esp_err_t := ESP_ERR_NVS_BASE + 0x0e.

(** ** The [double] register of [SetInt] / [GetInt]

    [double] is IEEE 754 binary64: 53 bits of precision.  The conversions
    are the two implicit C++ conversions the source relies on: an integer
    converted to [double] is rounded to nearest, ties to even; a [double]
    converted to an integer type is truncated toward zero, and the
    conversion is undefined ([None]) when the truncated value does not fit
    the destination type. *)
Module Double.

Definition prec : Z := 53.
Definition emax : Z := 1024.

Definition double : Type := spec_float.

(** Integral to floating conversion. *)
Definition of_Z (z : Z) : double := binary_normalize prec emax z 0 false.

(** Magnitude of a finite double, truncated toward zero. *)
Definition trunc_mag (m : positive) (e : Z) : Z :=
  match e with
  | Zneg p => Z.pos m / 2 ^ Z.pos p
  | _ => Z.pos m * 2 ^ e
  end.

Definition trunc (d : double) : option Z :=
  match d with
  | S754_zero _ => Some 0
  | S754_finite s m e => Some (cond_Zopp s (trunc_mag m e))
  | S754_infinity _ | S754_nan => None
  end.

(** Floating to integral conversion into a type with range [lo..hi]. *)
Definition to_int (lo hi : Z) (d : double) : option Z :=
  match trunc d with
  | Some z => if (lo <=? z) && (z <=? hi) then Some z else None
  | None => None
  end.

(** The integer a double denotes, when it denotes one. *)
Definition exact_Z (d : double) : option Z :=
  match d with
  | S754_zero _ => Some 0
  | S754_finite s m e =>
      match e with
      | Zneg p =>
          if Z.pos m mod 2 ^ Z.pos p =? 0
          then Some (cond_Zopp s (Z.pos m / 2 ^ Z.pos p)) else None
      | _ => Some (cond_Zopp s (Z.pos m * 2 ^ e))
      end
  | S754_infinity _ | S754_nan => None
  end.

(** The integers that the conversion to [double] leaves as they are. *)
Definition representable (z : Z) : Prop := exact_Z (of_Z z) = Some z.

End Double.

(** ** The NVS library (ESP-IDF), as the firmware sees it

    A partition holds namespaces, a namespace holds typed items by key.
    Reads go through the library and see every earlier write or erase at
    once.  What the library promises about the medium is that a write or
    an erase is on it once [nvs_commit] has returned; it may get there
    earlier.  The model keeps both sides and takes the latest moment the
    contract allows: [view] is what the API reads and writes, [stored]
    what the medium is known to hold, and [nvs_commit] copies the
    handle's namespace from the first to the second.  [restart] is a
    power cycle: the view is reloaded from the medium and every handle is
    gone.

    A write can be turned down by the library for reasons outside this
    model (name constraints, no free page, a flash fault): [refuse] gives
    the [refusal] in that case.  [nvs_open] is modelled for namespace
    names that the library accepts (1 to 15 characters) on a partition
    with room for a new namespace: the refusals of the library at open
    are not part of the model, and statements about opening a namespace
    that does not exist yet hold under that condition.  Handle numbers
    are handed out by a counter and never reused; [nvs_close] on a number
    that is not open returns without doing anything. *)
Module Nvs.

Inductive nvs_type_t :=
  | NVS_TYPE_U8 | NVS_TYPE_I8 | NVS_TYPE_U16 | NVS_TYPE_I16
  | NVS_TYPE_U32 | NVS_TYPE_I32 | NVS_TYPE_U64 | NVS_TYPE_I64
  | NVS_TYPE_STR | NVS_TYPE_BLOB | NVS_TYPE_ANY.

Inductive nvs_open_mode_t := NVS_READONLY | NVS_READWRITE.

Definition nvs_handle_t : Type := N.

Inductive item :=
  | ItemInt (ty : nvs_type_t) (v : Z)
  | ItemStr (s : string)
  | ItemBlob (b : list Byte.byte).

Definition item_type (it : item) : nvs_type_t :=
  match it with
  | ItemInt ty _ => ty
  | ItemStr _ => NVS_TYPE_STR
  | ItemBlob _ => NVS_TYPE_BLOB
  end.

Definition nvs_type_eqb (a b : nvs_type_t) : bool :=
  match a, b with
  | NVS_TYPE_U8, NVS_TYPE_U8 | NVS_TYPE_I8, NVS_TYPE_I8
  | NVS_TYPE_U16, NVS_TYPE_U16 | NVS_TYPE_I16, NVS_TYPE_I16
  | NVS_TYPE_U32, NVS_TYPE_U32 | NVS_TYPE_I32, NVS_TYPE_I32
  | NVS_TYPE_U64, NVS_TYPE_U64 | NVS_TYPE_I64, NVS_TYPE_I64
  | NVS_TYPE_STR, NVS_TYPE_STR | NVS_TYPE_BLOB, NVS_TYPE_BLOB
  | NVS_TYPE_ANY, NVS_TYPE_ANY => true
  | _, _ => false
  end.

Inductive refusal :=
  | invalid_name | key_too_long | value_too_long | not_enough_space
  | internal_error.

Definition refusal_code (r : refusal) : esp_err_t :=
  match r with
  | invalid_name => ESP_ERR_NVS_INVALID_NAME
  | key_too_long => ESP_ERR_NVS_KEY_TOO_LONG
  | value_too_long => ESP_ERR_NVS_VALUE_TOO_LONG
  | not_enough_space => ESP_ERR_NVS_NOT_ENOUGH_SPACE
  | internal_error => ESP_FAIL
  end.

(** The calls that can change the library's state, as they are made. *)
Inductive call :=
  | nvs_open_call (name_space : string) (mode : nvs_open_mode_t)
  | nvs_close_call (h : nvs_handle_t)
  | nvs_set_call (h : nvs_handle_t) (key : string) (it : item)
  | nvs_commit_call (h : nvs_handle_t)
  | nvs_erase_key_call (h : nvs_handle_t) (key : string)
  | nvs_erase_all_call (h : nvs_handle_t).

Record state := {
  stored : gmap string (gmap string item);
  view : gmap string (gmap string item);
  handles : gmap N (string * nvs_open_mode_t);
  next_handle : N;
  refuse : string -> string -> item -> option refusal;
  calls : list call;
}.

Definition called (c : call) (st : state) : state :=
  {| stored := stored st; view := view st; handles := handles st;
     next_handle := next_handle st; refuse := refuse st;
     calls := calls st ++ [c] |}.

Definition with_view (v : gmap string (gmap string item)) (st : state) : state :=
  {| stored := stored st; view := v; handles := handles st;
     next_handle := next_handle st; refuse := refuse st; calls := calls st |}.

Definition with_stored (v : gmap string (gmap string item)) (st : state) : state :=
  {| stored := v; view := view st; handles := handles st;
     next_handle := next_handle st; refuse := refuse st; calls := calls st |}.

Definition with_handles (hs : gmap N (string * nvs_open_mode_t)) (n : N)
    (st : state) : state :=
  {| stored := stored st; view := view st; handles := hs;
     next_handle := n; refuse := refuse st; calls := calls st |}.

(** The items of one namespace in the view (none when it does not exist). *)
Definition items (st : state) (ns : string) : gmap string item :=
  match view st !! ns with
  | Some m => m
  | None => ∅
  end.

Definition nvs_open (name_space : string) (mode : nvs_open_mode_t) (st : state)
    : esp_err_t * option nvs_handle_t * state :=
  let st := called (nvs_open_call name_space mode) st in
  let h := (next_handle st + 1)%N in
  match view st !! name_space, mode with
  | None, NVS_READONLY => (ESP_ERR_NVS_NOT_FOUND, None, st)
  | None, NVS_READWRITE =>
      (ESP_OK, Some h,
       with_handles (<[h := (name_space, mode)]> (handles st)) h
         (with_view (<[name_space := ∅]> (view st)) st))
  | Some _, _ =>
      (ESP_OK, Some h,
       with_handles (<[h := (name_space, mode)]> (handles st)) h st)
  end.

Definition nvs_close (h : nvs_handle_t) (st : state) : state :=
  let st := called (nvs_close_call h) st in
  with_handles (delete h (handles st)) (next_handle st) st.

Definition find (h : nvs_handle_t) (key : string) (st : state)
    : esp_err_t + item :=
  match handles st !! h with
  | None => inl ESP_ERR_NVS_INVALID_HANDLE
  | Some (ns, _) =>
      match items st ns !! key with
      | None => inl ESP_ERR_NVS_NOT_FOUND
      | Some it => inr it
      end
  end.

Definition nvs_find_key (h : nvs_handle_t) (key : string) (st : state)
    : esp_err_t * option nvs_type_t :=
  match find h key st with
  | inl e => (e, None)
  | inr it => (ESP_OK, Some (item_type it))
  end.

(** [nvs_get_u8] ... [nvs_get_i64]: the out-parameter is written on
    success only. *)
Definition nvs_get_int (ty : nvs_type_t) (h : nvs_handle_t) (key : string)
    (st : state) : esp_err_t * option Z :=
  match find h key st with
  | inl e => (e, None)
  | inr (ItemInt ty' v) =>
      if nvs_type_eqb ty ty' then (ESP_OK, Some v)
      else (ESP_ERR_NVS_TYPE_MISMATCH, None)
  | inr _ => (ESP_ERR_NVS_TYPE_MISMATCH, None)
  end.

(** [nvs_get_str (h, key, out_value, &length)]: [out_value] tells whether
    a buffer is passed ([false] is [nullptr]) and [length] is its size.
    The result carries what is written to the buffer and to [length]. *)
Definition nvs_get_str (h : nvs_handle_t) (key : string) (out_value : bool)
    (length : nat) (st : state) : esp_err_t * option string * nat :=
  match find h key st with
  | inl e => (e, None, length)
  | inr (ItemStr s) =>
      let required := S (String.length s) in
      if negb out_value then (ESP_OK, None, required)
      else if (length <? required)%nat
           then (ESP_ERR_NVS_INVALID_LENGTH, None, required)
           else (ESP_OK, Some s, required)
  | inr _ => (ESP_ERR_NVS_TYPE_MISMATCH, None, length)
  end.

Definition nvs_get_blob (h : nvs_handle_t) (key : string) (out_value : bool)
    (length : nat) (st : state) : esp_err_t * option (list Byte.byte) * nat :=
  match find h key st with
  | inl e => (e, None, length)
  | inr (ItemBlob b) =>
      let required := List.length b in
      if negb out_value then (ESP_OK, None, required)
      else if (length <? required)%nat
           then (ESP_ERR_NVS_INVALID_LENGTH, None, required)
           else (ESP_OK, Some b, required)
  | inr _ => (ESP_ERR_NVS_TYPE_MISMATCH, None, length)
  end.

(** [nvs_set_u8] ... [nvs_set_i64], [nvs_set_str], [nvs_set_blob]. *)
Definition nvs_set (h : nvs_handle_t) (key : string) (it : item) (st : state)
    : esp_err_t * state :=
  let st := called (nvs_set_call h key it) st in
  match handles st !! h with
  | None => (ESP_ERR_NVS_INVALID_HANDLE, st)
  | Some (_, NVS_READONLY) => (ESP_ERR_NVS_READ_ONLY, st)
  | Some (ns, NVS_READWRITE) =>
      match refuse st ns key it with
      | Some r => (refusal_code r, st)
      | None =>
          (ESP_OK, with_view (<[ns := <[key := it]> (items st ns)]> (view st)) st)
      end
  end.

Definition nvs_commit (h : nvs_handle_t) (st : state) : esp_err_t * state :=
  let st := called (nvs_commit_call h) st in
  match handles st !! h with
  | None => (ESP_ERR_NVS_INVALID_HANDLE, st)
  | Some (ns, _) =>
      (ESP_OK, with_stored (<[ns := items st ns]> (stored st)) st)
  end.

Definition nvs_erase_key (h : nvs_handle_t) (key : string) (st : state)
    : esp_err_t * state :=
  let st := called (nvs_erase_key_call h key) st in
  match handles st !! h with
  | None => (ESP_ERR_NVS_INVALID_HANDLE, st)
  | Some (_, NVS_READONLY) => (ESP_ERR_NVS_READ_ONLY, st)
  | Some (ns, NVS_READWRITE) =>
      match items st ns !! key with
      | None => (ESP_ERR_NVS_NOT_FOUND, st)
      | Some _ =>
          (ESP_OK, with_view (<[ns := delete key (items st ns)]> (view st)) st)
      end
  end.

Definition nvs_erase_all (h : nvs_handle_t) (st : state) : esp_err_t * state :=
  let st := called (nvs_erase_all_call h) st in
  match handles st !! h with
  | None => (ESP_ERR_NVS_INVALID_HANDLE, st)
  | Some (_, NVS_READONLY) => (ESP_ERR_NVS_READ_ONLY, st)
  | Some (ns, NVS_READWRITE) =>
      (ESP_OK, with_view (<[ns := ∅]> (view st)) st)
  end.

(** Power cycle. *)
Definition restart (st : state) : state :=
  with_handles ∅ 0%N (with_view (stored st) st).

(** A freshly erased partition that accepts every write. *)
Definition blank : state :=
  {| stored := ∅; view := ∅; handles := ∅; next_handle := 0%N;
     refuse := fun _ _ _ => None; calls := [] |}.

(** What the medium holds for a key. *)
Definition on_medium (st : state) (ns key : string) : option item :=
  match stored st !! ns with
  | Some m => m !! key
  | None => None
  end.

Definition is_commit (c : call) : bool :=
  match c with
  | nvs_commit_call _ => true
  | _ => false
  end.

End Nvs.

(** ** nvs_config.cpp: [NvsHandle] *)
Module NvsHandle.
Import Nvs.

Record NvsHandle := { handle_ : nvs_handle_t }.

(** [NvsHandle::NvsHandle() : handle_(0)] *)
Definition new : NvsHandle := {| handle_ := 0%N |}.

(** [nvs_open] writes the out-parameter [&handle_] on success only. *)
Definition Open (self : NvsHandle) (name_space : string) (mode : nvs_open_mode_t)
    (st : state) : esp_err_t * NvsHandle * state :=
  match nvs_open name_space mode st with
  | (err, Some h, st') => (err, {| handle_ := h |}, st')
  | (err, None, st') => (err, self, st')
  end.

(** [if (handle_ != 0) nvs_close(handle_);] -- [handle_] keeps its value. *)
Definition Close (self : NvsHandle) (st : state) : state :=
  if (handle_ self =? 0)%N then st else nvs_close (handle_ self) st.

(** [NvsHandle::~NvsHandle() { Close(); }] *)
Definition destroy (self : NvsHandle) (st : state) : state := Close self st.

Definition FindKey (self : NvsHandle) (key : string) (st : state)
    : esp_err_t * option nvs_type_t :=
  nvs_find_key (handle_ self) key st.

(** Range of the integer type behind each numeric tag. *)
Definition int_range (ty : nvs_type_t) : option (Z * Z) :=
  match ty with
  | NVS_TYPE_U8 => Some (0, 2 ^ 8 - 1)
  | NVS_TYPE_I8 => Some (- 2 ^ 7, 2 ^ 7 - 1)
  | NVS_TYPE_U16 => Some (0, 2 ^ 16 - 1)
  | NVS_TYPE_I16 => Some (- 2 ^ 15, 2 ^ 15 - 1)
  | NVS_TYPE_U32 => Some (0, 2 ^ 32 - 1)
  | NVS_TYPE_I32 => Some (- 2 ^ 31, 2 ^ 31 - 1)
  | NVS_TYPE_U64 => Some (0, 2 ^ 64 - 1)
  | NVS_TYPE_I64 => Some (- 2 ^ 63, 2 ^ 63 - 1)
  | NVS_TYPE_STR | NVS_TYPE_BLOB | NVS_TYPE_ANY => None
  end.

(** [GetInt]: the typed read, then [*value = u8] (and so on): the integer
    read is converted to [double].  When the read fails the local it came
    from was never written, so [*value] holds nothing defined ([None]).
    In the [default] case [*value] is not touched. *)
Definition GetInt (self : NvsHandle) (key : string) (type : nvs_type_t)
    (st : state) : esp_err_t * option Double.double :=
  match type with
  | NVS_TYPE_U8 | NVS_TYPE_I8 | NVS_TYPE_U16 | NVS_TYPE_I16
  | NVS_TYPE_U32 | NVS_TYPE_I32 | NVS_TYPE_U64 | NVS_TYPE_I64 =>
      let '(err, v) := nvs_get_int type (handle_ self) key st in
      (err, Double.of_Z <$> v)
  | NVS_TYPE_STR | NVS_TYPE_BLOB | NVS_TYPE_ANY =>
      (ESP_ERR_NVS_TYPE_MISMATCH, None)
  end.

Definition GetString (self : NvsHandle) (key : string) (value : bool)
    (length : nat) (st : state) : esp_err_t * option string * nat :=
  nvs_get_str (handle_ self) key value length st.

Definition GetBlob (self : NvsHandle) (key : string) (value : bool)
    (length : nat) (st : state) : esp_err_t * option (list Byte.byte) * nat :=
  nvs_get_blob (handle_ self) key value length st.

(** [SetInt]: [nvs_set_u8(handle_, key, value)] (and so on) converts the
    [double] argument to the parameter's integer type.  [None] is the
    undefined conversion of a value that does not fit. *)
Definition SetInt (self : NvsHandle) (key : string) (type : nvs_type_t)
    (value : Double.double) (st : state) : option (esp_err_t * state) :=
  match int_range type with
  | Some (lo, hi) =>
      match Double.to_int lo hi value with
      | Some v => Some (nvs_set (handle_ self) key (ItemInt type v) st)
      | None => None
      end
  | None => Some (ESP_ERR_NVS_TYPE_MISMATCH, st)
  end.

Definition SetString (self : NvsHandle) (key : string) (value : string)
    (st : state) : esp_err_t * state :=
  nvs_set (handle_ self) key (ItemStr value) st.

Definition SetBlob (self : NvsHandle) (key : string) (value : list Byte.byte)
    (st : state) : esp_err_t * state :=
  nvs_set (handle_ self) key (ItemBlob value) st.

Definition Commit (self : NvsHandle) (st : state) : esp_err_t * state :=
  nvs_commit (handle_ self) st.

Definition EraseKey (self : NvsHandle) (key : string) (st : state)
    : esp_err_t * state :=
  nvs_erase_key (handle_ self) key st.

Definition EraseAll (self : NvsHandle) (st : state) : esp_err_t * state :=
  nvs_erase_all (handle_ self) st.

(** [TypeName], for a buffer that holds the longest name. *)
Definition TypeName (type : nvs_type_t) : esp_err_t * string :=
  match type with
  | NVS_TYPE_U8 => (ESP_OK, "uint8")
  | NVS_TYPE_I8 => (ESP_OK, "int8")
  | NVS_TYPE_U16 => (ESP_OK, "uint16")
  | NVS_TYPE_I16 => (ESP_OK, "int16")
  | NVS_TYPE_U32 => (ESP_OK, "uint32")
  | NVS_TYPE_I32 => (ESP_OK, "int32")
  | NVS_TYPE_U64 => (ESP_OK, "uint64")
  | NVS_TYPE_I64 => (ESP_OK, "int64")
  | NVS_TYPE_STR => (ESP_OK, "string")
  | NVS_TYPE_BLOB => (ESP_OK, "blob")
  | NVS_TYPE_ANY => (ESP_OK, "any")
  end%string.

Definition TypeOf (type : string) : esp_err_t * nvs_type_t :=
  if String.eqb type "uint8" then (ESP_OK, NVS_TYPE_U8)
  else if String.eqb type "int8" then (ESP_OK, NVS_TYPE_I8)
  else if String.eqb type "uint16" then (ESP_OK, NVS_TYPE_U16)
  else if String.eqb type "int16" then (ESP_OK, NVS_TYPE_I16)
  else if String.eqb type "uint32" then (ESP_OK, NVS_TYPE_U32)
  else if String.eqb type "int32" then (ESP_OK, NVS_TYPE_I32)
  else if String.eqb type "uint64" then (ESP_OK, NVS_TYPE_U64)
  else if String.eqb type "int64" then (ESP_OK, NVS_TYPE_I64)
  else if String.eqb type "string" then (ESP_OK, NVS_TYPE_STR)
  else if String.eqb type "blob" then (ESP_OK, NVS_TYPE_BLOB)
  else if String.eqb type "any" then (ESP_OK, NVS_TYPE_ANY)
  else (ESP_ERR_NVS_TYPE_MISMATCH, NVS_TYPE_ANY).

(** *** The store contract of the specification, over [NvsHandle]

    [Set (handle, key, type, value)] and [Get (handle, key)] are not
    functions of the source: [SetEntry] and [GetEntry] are the call
    sequences the configuration web services make.  [SetEntry] chooses
    the setter by the type as [DoConfigSetKey] does: a number goes to
    [SetInt] and is converted to its [double] parameter, a string goes to
    [SetString], a blob to [SetBlob].  [GetEntry] is [DoConfigGetKey] with
    [JsonNode]: [FindKey] for the stored type, then [GetInt], or
    [GetString] / [GetBlob] twice (first with [nullptr] for the size, then
    into a buffer of that size). *)
Inductive typed :=
  | TInt (type : nvs_type_t) (v : Z)
  | TStr (s : string)
  | TBlob (b : list Byte.byte).

Inductive value :=
  | VInt (d : Double.double)
  | VStr (s : string)
  | VBlob (b : list Byte.byte).

Definition SetEntry (self : NvsHandle) (key : string) (tv : typed) (st : state)
    : option (esp_err_t * state) :=
  match tv with
  | TInt type v => SetInt self key type (Double.of_Z v) st
  | TStr s => Some (SetString self key s st)
  | TBlob b => Some (SetBlob self key b st)
  end.

Definition GetEntry (self : NvsHandle) (key : string) (st : state)
    : esp_err_t + (nvs_type_t * value) :=
  match FindKey self key st with
  | (_, None) => inl ESP_FAIL
  | (err, Some type) =>
      if negb (err =? ESP_OK) then inl ESP_FAIL else
      match type with
      | NVS_TYPE_U8 | NVS_TYPE_I8 | NVS_TYPE_U16 | NVS_TYPE_I16
      | NVS_TYPE_U32 | NVS_TYPE_I32 | NVS_TYPE_U64 | NVS_TYPE_I64 =>
          match GetInt self key type st with
          | (err, Some d) =>
              if negb (err =? ESP_OK) then inl ESP_FAIL else inr (type, VInt d)
          | (_, None) => inl ESP_FAIL
          end
      | NVS_TYPE_STR =>
          let '(err, _, size) := GetString self key false 0 st in
          if negb (err =? ESP_OK) then inl ESP_FAIL else
          match GetString self key true size st with
          | (err, Some s, _) =>
              if negb (err =? ESP_OK) then inl ESP_FAIL else inr (type, VStr s)
          | (_, None, _) => inl ESP_FAIL
          end
      | NVS_TYPE_BLOB =>
          let '(err, _, size) := GetBlob self key false 0 st in
          if negb (err =? ESP_OK) then inl ESP_FAIL else
          match GetBlob self key true size st with
          | (err, Some b, _) =>
              if negb (err =? ESP_OK) then inl ESP_FAIL else inr (type, VBlob b)
          | (_, None, _) => inl ESP_FAIL
          end
      | NVS_TYPE_ANY => inl ESP_FAIL
      end
  end.

(** [v] is a value of the type it is tagged with. *)
Definition well_typed (tv : typed) : Prop :=
  match tv with
  | TInt type v =>
      match int_range type with
      | Some (lo, hi) => lo <= v <= hi
      | None => False
      end
  | TStr _ | TBlob _ => True
  end.

(** The 64-bit values that the [double] register carries unchanged. *)
Definition wide_fits (tv : typed) : Prop :=
  match tv with
  | TInt NVS_TYPE_U64 v | TInt NVS_TYPE_I64 v => Double.representable v
  | _ => True
  end.

(** What is stored for [tv]. *)
Definition item_of (tv : typed) : item :=
  match tv with
  | TInt type v => ItemInt type v
  | TStr s => ItemStr s
  | TBlob b => ItemBlob b
  end.

(** [GetEntry] returned the type and the value of [tv]. *)
Definition returns (r : esp_err_t + (nvs_type_t * value)) (tv : typed) : Prop :=
  match r, tv with
  | inr (type', VInt d), TInt type v => type' = type /\ Double.exact_Z d = Some v
  | inr (type', VStr s'), TStr s => type' = NVS_TYPE_STR /\ s' = s
  | inr (type', VBlob b'), TBlob b => type' = NVS_TYPE_BLOB /\ b' = b
  | _, _ => False
  end.

(** [SetEntry], then [Commit], then [GetEntry] gives back what was set. *)
Definition round_trip (self : NvsHandle) (key : string) (tv : typed)
    (st : state) : Prop :=
  exists st1 st2,
    SetEntry self key tv st = Some (ESP_OK, st1) /\
    Commit self st1 = (ESP_OK, st2) /\
    returns (GetEntry self key st2) tv.

End NvsHandle.

(** ** httpd.hpp: the HTTP server wrapper

    A request is what the handlers can observe of it: the query of the
    URL as (key, value) pairs, the announced length of the body, what
    [httpd_req_recv] returns, and what [cJSON_Parse] makes of the bytes
    received.  Responses are recorded as calls. *)
Module Httpd.

Definition ESP_ERR_HTTPD_BASE : esp_err_t := 0xb000.
Definition ESP_ERR_HTTPD_RESULT_TRUNC : esp_err_t := ESP_ERR_HTTPD_BASE + 4.

Inductive httpd_err_code_t := HTTPD_500_INTERNAL_SERVER_ERROR.

(** The members of a parsed object that the handlers tell apart: strings,
    numbers, and everything else (objects, arrays, booleans, null). *)
Inductive cJSON_item :=
  | cJSON_String (valuestring : string)
  | cJSON_Number (valuedouble : Double.double)
  | cJSON_Other.

Inductive cJSON :=
  | cJSON_Object (items : list (string * cJSON_item))
  | cJSON_Value (item : cJSON_item).

Definition INT_MAX : Z := 2 ^ 31 - 1.
Definition INT_MIN : Z := - 2 ^ 31.

(** [valueint] of a number, as cJSON fills it: the [double] saturated to
    [int].  (A NaN takes the cast, which is undefined.) *)
Definition valueint (number : Double.double) : option Z :=
  if SFleb (Double.of_Z INT_MAX) number then Some INT_MAX
  else if SFleb number (Double.of_Z INT_MIN) then Some INT_MIN
  else Double.to_int INT_MIN INT_MAX number.

Fixpoint assoc {A : Type} (name : string) (l : list (string * A)) : option A :=
  match l with
  | [] => None
  | (k, v) :: l' => if String.eqb k name then Some v else assoc name l'
  end.

Definition cJSON_GetObjectItemCaseSensitive (object : cJSON) (name : string)
    : option cJSON_item :=
  match object with
  | cJSON_Object items => assoc name items
  | cJSON_Value _ => None
  end.

Definition cJSON_IsString (item : option cJSON_item) : bool :=
  match item with
  | Some (cJSON_String _) => true
  | _ => false
  end.

Definition cJSON_IsNumber (item : option cJSON_item) : bool :=
  match item with
  | Some (cJSON_Number _) => true
  | _ => false
  end.

Record httpd_req := {
  url_query : option (list (string * string));
  content_len : Z;
  received : Z;
  body : option cJSON;
}.

Inductive call :=
  | httpd_resp_send (data : string)
  | httpd_resp_set_type (type : string)
  | httpd_resp_send_err (status_code : httpd_err_code_t) (message : string).

(** Length of the query string [k1=v1&k2=v2...]. *)
Fixpoint query_strlen (q : list (string * string)) : nat :=
  match q with
  | [] => 0
  | [(k, v)] => String.length k + 1 + String.length v
  | (k, v) :: q' => String.length k + 1 + String.length v + 1 + query_strlen q'
  end.

Definition httpd_req_get_url_query_str (req : httpd_req) (buf_len : nat)
    : esp_err_t + list (string * string) :=
  match url_query req with
  | None => inl ESP_ERR_NOT_FOUND
  | Some q =>
      if (query_strlen q <? buf_len)%nat then inr q
      else inl ESP_ERR_HTTPD_RESULT_TRUNC
  end.

Definition httpd_query_key_value (qry : list (string * string)) (key : string)
    (val_size : nat) : esp_err_t + string :=
  match assoc key qry with
  | None => inl ESP_ERR_NOT_FOUND
  | Some v =>
      if (String.length v <? val_size)%nat then inr v
      else inl ESP_ERR_HTTPD_RESULT_TRUNC
  end.

Definition Receive (req : httpd_req) : Z := received req.

Definition Reply (data : string) : list call := [httpd_resp_send data].

Definition ReplyJson (data : string) : list call :=
  [httpd_resp_set_type "application/json"; httpd_resp_send data].

Definition SendError (status_code : httpd_err_code_t) (message : string)
    : list call :=
  [httpd_resp_send_err status_code message].

End Httpd.

(** ** nvs_config_web_services.cpp: the set and delete routes

    A handler returns its [esp_err_t], the responses it sent and the
    store it leaves.  [my_handle] is a local [NvsHandle]: its destructor
    runs on every return that follows its declaration. *)
Module ConfigWebServices.
Import Nvs NvsHandle Httpd.

Definition GetNameSpace (query_string : list (string * string))
    (name_space_size : nat) : (esp_err_t * list Httpd.call) + string :=
  match httpd_query_key_value query_string "namespace" name_space_size with
  | inl _ =>
      inl (ESP_FAIL,
           SendError HTTPD_500_INTERNAL_SERVER_ERROR
             "Failed to get namespace parameter")
  | inr name_space => inr name_space
  end.

Definition GetKey (query_string : list (string * string)) (key_size : nat)
    : (esp_err_t * list Httpd.call) + string :=
  match httpd_query_key_value query_string "key" key_size with
  | inl _ =>
      inl (ESP_FAIL,
           SendError HTTPD_500_INTERNAL_SERVER_ERROR "Failed to get key parameter")
  | inr key => inr key
  end.

(** ["Configuration set\n"] *)
Definition configuration_set : string :=
  String.append "Configuration set" (String (ascii_of_nat 10) EmptyString).

Definition fail (message : string) (st : state)
    : option (esp_err_t * list Httpd.call * state) :=
  Some (ESP_FAIL, SendError HTTPD_500_INTERNAL_SERVER_ERROR message, st).

(** The end of [DoConfigSetKey], after the value has been set. *)
Definition commit_and_reply (my_handle : NvsHandle.NvsHandle) (st : state)
    : option (esp_err_t * list Httpd.call * state) :=
  let '(err, st) := Commit my_handle st in
  if negb (err =? ESP_OK) then fail "Failed to commit NVS" (destroy my_handle st)
  else Some (ESP_OK, Reply configuration_set, destroy my_handle st).

(** [App::DoConfigSetKey].  [Base64Decode] is mbedtls's decoder ([None]
    when it rejects its input).  The result is [None] when the handler
    runs into an undefined conversion (in [SetInt], or in cJSON's
    [valueint]). *)
Definition DoConfigSetKey (Base64Decode : string -> option (list Byte.byte))
    (req : httpd_req) (st : state)
    : option (esp_err_t * list Httpd.call * state) :=
  let kBufferSize := 4096%nat in
  match httpd_req_get_url_query_str req kBufferSize with
  | inl _ => fail "Failed to get query string" st
  | inr buffer =>
  match GetNameSpace buffer 32 with
  | inl (err, out) => Some (ESP_FAIL, out, st)
  | inr name_space =>
  match GetKey buffer 32 with
  | inl (err, out) => Some (ESP_FAIL, out, st)
  | inr key =>
  let res := Receive req in
  if res <? 0 then fail "Failed to receive data" st
  else if negb (res =? content_len req) then fail "Failed to receive all data" st
  else
  match body req with
  | None => fail "Failed to parse JSON" st
  | Some json =>
  let type := cJSON_GetObjectItemCaseSensitive json "type" in
  let value := cJSON_GetObjectItemCaseSensitive json "value" in
  match type with
  | Some (cJSON_String type_string) =>
  let '(err, nvs_type) := TypeOf type_string in
  if negb (err =? ESP_OK) then fail "Unknown type" st else
  let my_handle := NvsHandle.new in
  let '(err, my_handle, st) := Open my_handle name_space NVS_READWRITE st in
  if negb (err =? ESP_OK)
  then fail "Failed to open NVS handle" (destroy my_handle st)
  else
  match value with
  | Some (cJSON_Number number) =>
      match int_range nvs_type with
      | None => fail "Invalid type for integer value" (destroy my_handle st)
      | Some _ =>
          match valueint number with
          | None => None
          | Some i =>
              match SetInt my_handle key nvs_type (Double.of_Z i) st with
              | None => None
              | Some (err, st) =>
                  if negb (err =? ESP_OK)
                  then fail "Failed to set integer value" (destroy my_handle st)
                  else commit_and_reply my_handle st
              end
          end
      end
  | Some (cJSON_String valuestring) =>
      match nvs_type with
      | NVS_TYPE_STR =>
          let '(err, st) := SetString my_handle key valuestring st in
          if negb (err =? ESP_OK)
          then fail "Failed to set string value" (destroy my_handle st)
          else commit_and_reply my_handle st
      | NVS_TYPE_BLOB =>
          match Base64Decode valuestring with
          | None => fail "Failed to decode base64 value" (destroy my_handle st)
          | Some dec64 =>
              let '(err, st) := SetBlob my_handle key dec64 st in
              if negb (err =? ESP_OK)
              then fail "Failed to set string value" (destroy my_handle st)
              else commit_and_reply my_handle st
          end
      | _ => fail "Invalid type for string value" (destroy my_handle st)
      end
  | _ => fail "Failed to parse value" (destroy my_handle st)
  end
  | _ => fail "Failed to parse type" st
  end end end end end.

Definition DoConfigDeleteKey (req : httpd_req) (st : state)
    : esp_err_t * list Httpd.call * state :=
  let kBufferSize := 1024%nat in
  match httpd_req_get_url_query_str req kBufferSize with
  | inl _ =>
      (ESP_FAIL,
       SendError HTTPD_500_INTERNAL_SERVER_ERROR "Failed to get query string", st)
  | inr buffer =>
  match GetNameSpace buffer 32 with
  | inl (err, out) => (ESP_FAIL, out, st)
  | inr name_space =>
  match GetKey buffer 32 with
  | inl (err, out) => (ESP_FAIL, out, st)
  | inr key =>
  let my_handle := NvsHandle.new in
  let '(err, my_handle, st) := Open my_handle name_space NVS_READWRITE st in
  if negb (err =? ESP_OK) then
    (ESP_FAIL,
     SendError HTTPD_500_INTERNAL_SERVER_ERROR "Failed to open NVS handle",
     destroy my_handle st)
  else
  let '(err, st) := EraseKey my_handle key st in
  if negb (err =? ESP_OK) then
    (ESP_FAIL,
     SendError HTTPD_500_INTERNAL_SERVER_ERROR "Failed to delete key",
     destroy my_handle st)
  else (ESP_OK, Reply "Key Deleted", destroy my_handle st)
  end end end.

Definition DoConfigDeleteNameSpace (req : httpd_req) (st : state)
    : esp_err_t * list Httpd.call * state :=
  let kBufferSize := 1024%nat in
  match httpd_req_get_url_query_str req kBufferSize with
  | inl _ =>
      (ESP_FAIL,
       SendError HTTPD_500_INTERNAL_SERVER_ERROR "Failed to get query string", st)
  | inr buffer =>
  match GetNameSpace buffer 32 with
  | inl (err, out) => (ESP_FAIL, out, st)
  | inr name_space =>
  let my_handle := NvsHandle.new in
  let '(err, my_handle, st) := Open my_handle name_space NVS_READWRITE st in
  if negb (err =? ESP_OK) then
    (ESP_FAIL,
     SendError HTTPD_500_INTERNAL_SERVER_ERROR "Failed to open NVS handle",
     destroy my_handle st)
  else
  let '(err, st) := EraseAll my_handle st in
  if negb (err =? ESP_OK) then
    (ESP_FAIL,
     SendError HTTPD_500_INTERNAL_SERVER_ERROR "Failed to delete namespace",
     destroy my_handle st)
  else (ESP_OK, Reply "Namespace Deleted", destroy my_handle st)
  end end.

End ConfigWebServices.

(** ** status_led.hpp, as far as the components use it *)
Module StatusLed.

Inductive color := kRed | kGreen | kBlue | kWhite | kOrange.

(** [led->Flash (on, off, count, color)] *)
Record flash := { on_ms : Z; off_ms : Z; count : Z; flash_color : color }.

End StatusLed.

(** ** provisioner.cpp: WiFi provisioning

    The provisioning manager of ESP-IDF owns the provisioning state and
    the stored station configuration.  It enters its failure state before
    it posts [WIFI_PROV_CRED_FAIL], and
    [wifi_prov_mgr_reset_sm_state_on_failure] clears the station
    configuration and puts it back to [WIFI_PROV_STATE_STARTED] (waiting
    for credentials), provided it is in the failure state. *)
Module Provisioner.

Definition kMaxRetriesCount : Z := 5.

Inductive wifi_prov_cb_event_t :=
  | WIFI_PROV_INIT | WIFI_PROV_START | WIFI_PROV_CRED_RECV
  | WIFI_PROV_CRED_FAIL | WIFI_PROV_CRED_SUCCESS | WIFI_PROV_END
  | WIFI_PROV_DEINIT.

Inductive wifi_event_t :=
  | WIFI_EVENT_STA_START | WIFI_EVENT_STA_DISCONNECTED | WIFI_EVENT_other.

Inductive ip_event_t := IP_EVENT_STA_GOT_IP | IP_EVENT_other.

Inductive protocomm_transport_ble_event_t :=
  | PROTOCOMM_TRANSPORT_BLE_CONNECTED | PROTOCOMM_TRANSPORT_BLE_DISCONNECTED.

Inductive protocomm_security_session_event_t :=
  | PROTOCOMM_SECURITY_SESSION_SETUP_OK
  | PROTOCOMM_SECURITY_SESSION_INVALID_SECURITY_PARAMS
  | PROTOCOMM_SECURITY_SESSION_CREDENTIALS_MISMATCH.

Inductive wifi_prov_sta_fail_reason_t :=
  | WIFI_PROV_STA_AUTH_ERROR | WIFI_PROV_STA_AP_NOT_FOUND.

(** What [event_data] points to for the provisioning events. *)
Inductive prov_event_data :=
  | no_data
  | sta_config (ssid password : string)
  | fail_reason (reason : wifi_prov_sta_fail_reason_t).

(** An event: its base with its id (and its data). *)
Inductive event :=
  | WIFI_PROV_EVENT (event_id : wifi_prov_cb_event_t) (event_data : prov_event_data)
  | WIFI_EVENT (event_id : wifi_event_t)
  | IP_EVENT (event_id : ip_event_t)
  | PROTOCOMM_TRANSPORT_BLE_EVENT (event_id : protocomm_transport_ble_event_t)
  | PROTOCOMM_SECURITY_SESSION_EVENT (event_id : protocomm_security_session_event_t)
  | OTHER_EVENT.

Inductive wifi_prov_mgr_state :=
  | WIFI_PROV_STATE_IDLE | WIFI_PROV_STATE_STARTING | WIFI_PROV_STATE_STARTED
  | WIFI_PROV_STATE_CRED_RECV | WIFI_PROV_STATE_FAIL | WIFI_PROV_STATE_SUCCESS
  | WIFI_PROV_STATE_STOPPING.

(** The manager: its state and the station configuration it stored
    ([None] once cleared). *)
Record manager := {
  prov_state : wifi_prov_mgr_state;
  wifi_cfg : option (string * string);
}.

Definition wifi_prov_mgr_reset_sm_state_on_failure (mgr : manager)
    : esp_err_t * manager :=
  match prov_state mgr with
  | WIFI_PROV_STATE_FAIL =>
      (ESP_OK, {| prov_state := WIFI_PROV_STATE_STARTED; wifi_cfg := None |})
  | _ => (ESP_ERR_INVALID_STATE, mgr)
  end.

(** What the manager has done to itself when it posts an event. *)
Definition posted (ev : event) (mgr : manager) : manager :=
  match ev with
  | WIFI_PROV_EVENT WIFI_PROV_START _ =>
      {| prov_state := WIFI_PROV_STATE_STARTED; wifi_cfg := wifi_cfg mgr |}
  | WIFI_PROV_EVENT WIFI_PROV_CRED_RECV (sta_config ssid password) =>
      {| prov_state := WIFI_PROV_STATE_CRED_RECV;
         wifi_cfg := Some (ssid, password) |}
  | WIFI_PROV_EVENT WIFI_PROV_CRED_FAIL _ =>
      {| prov_state := WIFI_PROV_STATE_FAIL; wifi_cfg := wifi_cfg mgr |}
  | WIFI_PROV_EVENT WIFI_PROV_CRED_SUCCESS _ =>
      {| prov_state := WIFI_PROV_STATE_SUCCESS; wifi_cfg := wifi_cfg mgr |}
  | _ => mgr
  end.

Inductive call :=
  | wifi_prov_mgr_reset_sm_state_on_failure_call
  | wifi_prov_mgr_deinit_call
  | esp_wifi_connect_call
  | led_Flash (f : StatusLed.flash)
  | xEventGroupSetBits_call (bits : Z).

Definition kWifiConnectedEvent : Z := 1.

Record Provisioner := {
  led_ : bool;
  service_name_ : string;
  retries_ : Z;
}.

(** [Provisioner::EventHandler].  [retries_] is an [int]; it stays far
    from the ends of its range (see [retries_bounded]). *)
Definition EventHandler (self : Provisioner) (ev : event) (mgr : manager)
    : Provisioner * manager * list call :=
  match ev with
  | WIFI_PROV_EVENT WIFI_PROV_CRED_FAIL _ =>
      let retries := retries_ self + 1 in
      if kMaxRetriesCount <=? retries then
        let '(_, mgr) := wifi_prov_mgr_reset_sm_state_on_failure mgr in
        ({| led_ := led_ self; service_name_ := service_name_ self;
            retries_ := 0 |},
         mgr, [wifi_prov_mgr_reset_sm_state_on_failure_call])
      else
        ({| led_ := led_ self; service_name_ := service_name_ self;
            retries_ := retries |},
         mgr, [])
  | WIFI_PROV_EVENT WIFI_PROV_CRED_SUCCESS _ =>
      ({| led_ := led_ self; service_name_ := service_name_ self;
          retries_ := 0 |},
       mgr, [])
  | WIFI_PROV_EVENT WIFI_PROV_END _ => (self, mgr, [wifi_prov_mgr_deinit_call])
  | WIFI_PROV_EVENT _ _ => (self, mgr, [])
  | WIFI_EVENT WIFI_EVENT_STA_START => (self, mgr, [esp_wifi_connect_call])
  | WIFI_EVENT WIFI_EVENT_STA_DISCONNECTED =>
      (self, mgr,
       (if led_ self
        then [led_Flash {| StatusLed.on_ms := 200; StatusLed.off_ms := 0;
                           StatusLed.count := 1;
                           StatusLed.flash_color := StatusLed.kRed |}]
        else [])
       ++ [esp_wifi_connect_call])
  | WIFI_EVENT _ => (self, mgr, [])
  | IP_EVENT IP_EVENT_STA_GOT_IP =>
      (self, mgr, [xEventGroupSetBits_call kWifiConnectedEvent])
  | IP_EVENT _ => (self, mgr, [])
  | PROTOCOMM_TRANSPORT_BLE_EVENT _ => (self, mgr, [])
  | PROTOCOMM_SECURITY_SESSION_EVENT _ => (self, mgr, [])
  | OTHER_EVENT => (self, mgr, [])
  end.

(** The event loop: the manager posts an event, the handler runs. *)
Definition deliver (ev : event) (w : Provisioner * manager * list call)
    : Provisioner * manager * list call :=
  let '(self, mgr, trace) := w in
  let '(self, mgr, out) := EventHandler self ev (posted ev mgr) in
  (self, mgr, trace ++ out).

Definition run (evs : list event) (w : Provisioner * manager * list call)
    : Provisioner * manager * list call :=
  fold_left (fun w ev => deliver ev w) evs w.

Definition is_cred_fail (ev : event) : bool :=
  match ev with
  | WIFI_PROV_EVENT WIFI_PROV_CRED_FAIL _ => true
  | _ => false
  end.

Definition is_cred_success (ev : event) : bool :=
  match ev with
  | WIFI_PROV_EVENT WIFI_PROV_CRED_SUCCESS _ => true
  | _ => false
  end.

(** A failure event, as the manager posts it. *)
Definition cred_fail (reason : wifi_prov_sta_fail_reason_t) : event :=
  WIFI_PROV_EVENT WIFI_PROV_CRED_FAIL (fail_reason reason).

Definition cred_success : event :=
  WIFI_PROV_EVENT WIFI_PROV_CRED_SUCCESS no_data.

Definition is_reset (c : call) : bool :=
  match c with
  | wifi_prov_mgr_reset_sm_state_on_failure_call => true
  | _ => false
  end.

(** Failures delivered, resets called. *)
Definition count_fail (evs : list event) : Z :=
  Z.of_nat (List.length (List.filter is_cred_fail evs)).

Definition count_reset (trace : list call) : Z :=
  Z.of_nat (List.length (List.filter is_reset trace)).

End Provisioner.

(** ** mqtt.hpp, mqtt.cpp: the MQTT client

    The transport (esp-mqtt) answers through [transport]: what
    [esp_mqtt_client_init] returns for a configuration ([None] is
    [nullptr]), the error codes of registration and start, and the
    message ids (or [-1]) of subscribe and publish.  Every call into the
    transport is recorded with its arguments and its answer. *)
Module MQTT.
Import Nvs.

Definition esp_mqtt_client_handle_t : Type := N.

Inductive esp_mqtt_event_id_t :=
  | MQTT_EVENT_ANY | MQTT_EVENT_ERROR | MQTT_EVENT_CONNECTED
  | MQTT_EVENT_DISCONNECTED | MQTT_EVENT_SUBSCRIBED | MQTT_EVENT_UNSUBSCRIBED
  | MQTT_EVENT_PUBLISHED | MQTT_EVENT_DATA | MQTT_EVENT_BEFORE_CONNECT
  | MQTT_EVENT_DELETED | MQTT_USER_EVENT.

Inductive esp_mqtt_error_type_t :=
  | MQTT_ERROR_TYPE_NONE | MQTT_ERROR_TYPE_TCP_TRANSPORT
  | MQTT_ERROR_TYPE_CONNECTION_REFUSED | MQTT_ERROR_TYPE_SUBSCRIBE_FAILED.

Record esp_mqtt_error_codes_t := {
  error_type : esp_mqtt_error_type_t;
  esp_tls_last_esp_err : Z;
  esp_tls_stack_err : Z;
  esp_transport_sock_errno : Z;
}.

Record esp_mqtt_event_t := {
  event_id : esp_mqtt_event_id_t;
  client : esp_mqtt_client_handle_t;
  event_topic : string;
  event_data : string;
  error_handle : esp_mqtt_error_codes_t;
}.

Record LastWill := {
  lwt_topic : string; lwt_msg : string; lwt_qos : Z; lwt_retain : Z;
}.

Record esp_mqtt_client_config_t := {
  uri : string;
  username : option string;
  password : option string;
  last_will : option LastWill;
}.

Record transport := {
  esp_mqtt_client_init : esp_mqtt_client_config_t -> option esp_mqtt_client_handle_t;
  esp_mqtt_client_register_event : option esp_mqtt_client_handle_t -> esp_err_t;
  esp_mqtt_client_start : option esp_mqtt_client_handle_t -> esp_err_t;
  esp_mqtt_client_subscribe : esp_mqtt_client_handle_t -> string -> Z -> Z;
  esp_mqtt_client_publish :
    option esp_mqtt_client_handle_t -> string -> string -> Z -> Z -> Z -> Z;
}.

Inductive call :=
  | init_call (cfg : esp_mqtt_client_config_t)
      (answer : option esp_mqtt_client_handle_t)
  | register_event_call (c : option esp_mqtt_client_handle_t) (answer : esp_err_t)
  | start_call (c : option esp_mqtt_client_handle_t) (answer : esp_err_t)
  | subscribe_call (c : esp_mqtt_client_handle_t) (topic : string) (qos : Z)
      (answer : Z)
  | publish_call (c : option esp_mqtt_client_handle_t) (topic data : string)
      (len qos retain : Z) (answer : Z)
  | led_Flash (f : StatusLed.flash)
  | EventHandler_call (id : esp_mqtt_event_id_t).

Record subscription := { topic : string; qos : Z }.

(** [client_] has no initialiser: it is [None] until [Init] assigns it. *)
Record MQTT := {
  topic_base_ : string;
  fatal_error_ : bool;
  connected_ : bool;
  led_ : bool;
  client_ : option esp_mqtt_client_handle_t;
  subscriptions_ : list subscription;
}.

(** [MQTT::MQTT()] with the default member initialisers. *)
Definition new : MQTT :=
  {| topic_base_ := "esp/"; fatal_error_ := false; connected_ := false;
     led_ := false; client_ := None; subscriptions_ := [] |}.

Definition SetLed (self : MQTT) (led : bool) : MQTT :=
  {| topic_base_ := topic_base_ self; fatal_error_ := fatal_error_ self;
     connected_ := connected_ self; led_ := led; client_ := client_ self;
     subscriptions_ := subscriptions_ self |}.

Definition set_connected (b : bool) (self : MQTT) : MQTT :=
  {| topic_base_ := topic_base_ self; fatal_error_ := fatal_error_ self;
     connected_ := b; led_ := led_ self; client_ := client_ self;
     subscriptions_ := subscriptions_ self |}.

Definition Prefixed (self : MQTT) (t : string) : string :=
  String.append (topic_base_ self) t.

(** [subscriptions_.push_back (t)] *)
Definition AddSubscription (self : MQTT) (t : string) (q : Z) : MQTT :=
  {| topic_base_ := topic_base_ self; fatal_error_ := fatal_error_ self;
     connected_ := connected_ self; led_ := led_ self; client_ := client_ self;
     subscriptions_ := subscriptions_ self ++ [{| topic := t; qos := q |}] |}.

(** [MQTT::Init (last_will)].  The four buffers start zeroed; a read that
    fails leaves its buffer as it was.  The local [NvsHandle] is destroyed
    on every return. *)
Definition Init (self : MQTT) (will : option LastWill) (tr : transport)
    (st : state) : esp_err_t * MQTT * state * list call :=
  let handle := NvsHandle.new in
  let '(_, handle, st) := NvsHandle.Open handle "mqtt" NVS_READONLY st in
  let '(err, out, _) := NvsHandle.GetString handle "broker" true 64 st in
  if negb (err =? ESP_OK) then (ESP_FAIL, self, NvsHandle.destroy handle st, [])
  else
  let broker := default ""%string out in
  let '(_, out, _) := NvsHandle.GetString handle "username" true 64 st in
  let user := default ""%string out in
  let '(_, out, _) := NvsHandle.GetString handle "password" true 64 st in
  let pass := default ""%string out in
  let '(err, out, _) := NvsHandle.GetString handle "topic-base" true 64 st in
  if negb (err =? ESP_OK) then (ESP_FAIL, self, NvsHandle.destroy handle st, [])
  else
  let topic_base := default ""%string out in
  let with_credentials :=
    (0 <? String.length user)%nat && (0 <? String.length pass)%nat in
  let mqtt_cfg :=
    {| uri := broker;
       username := if with_credentials then Some user else None;
       password := if with_credentials then Some pass else None;
       last_will := will |} in
  let c := esp_mqtt_client_init tr mqtt_cfg in
  let self :=
    {| topic_base_ := topic_base; fatal_error_ := fatal_error_ self;
       connected_ := connected_ self; led_ := led_ self; client_ := c;
       subscriptions_ := subscriptions_ self |} in
  match c with
  | None =>
      (ESP_FAIL, self, NvsHandle.destroy handle st, [init_call mqtt_cfg c])
  | Some _ =>
      let err := esp_mqtt_client_register_event tr c in
      if negb (err =? ESP_OK) then
        (err, self, NvsHandle.destroy handle st,
         [init_call mqtt_cfg c; register_event_call c err])
      else
        (ESP_OK, self, NvsHandle.destroy handle st,
         [init_call mqtt_cfg c; register_event_call c err])
  end.

Definition Start (self : MQTT) (tr : transport) : esp_err_t * list call :=
  let err := esp_mqtt_client_start tr (client_ self) in
  if negb (err =? ESP_OK) then (err, [start_call (client_ self) err])
  else (ESP_OK, [start_call (client_ self) err]).

(** [MQTT::Publish]:
    [return esp_mqtt_client_publish (client_, topic, data, len, qos, retain);] *)
Definition Publish (self : MQTT) (tr : transport) (t data : string)
    (len q retain : Z) : esp_err_t * list call :=
  let answer := esp_mqtt_client_publish tr (client_ self) t data len q retain in
  (answer, [publish_call (client_ self) t data len q retain answer]).

(** The loop of the [MQTT_EVENT_CONNECTED] case: the answer of each
    subscribe is dropped. *)
Definition subscribe_all (tr : transport) (c : esp_mqtt_client_handle_t)
    (subs : list subscription) : list call :=
  map (fun s =>
         subscribe_call c (topic s) (qos s)
           (esp_mqtt_client_subscribe tr c (topic s) (qos s)))
      subs.

Definition flash_once (col : StatusLed.color) : call :=
  led_Flash {| StatusLed.on_ms := 100; StatusLed.off_ms := 0;
               StatusLed.count := 1; StatusLed.flash_color := col |}.

(** [MQTT::EventHandler]; [EventHandler_call] marks that the body was
    entered. *)
Definition EventHandler (self : MQTT) (tr : transport) (event : esp_mqtt_event_t)
    : MQTT * list call :=
  let entered := EventHandler_call (event_id event) in
  match event_id event with
  | MQTT_EVENT_CONNECTED =>
      (set_connected true self,
       entered :: subscribe_all tr (client event) (subscriptions_ self))
  | MQTT_EVENT_DISCONNECTED => (set_connected false self, [entered])
  | MQTT_EVENT_DATA =>
      (self, entered :: if led_ self then [flash_once StatusLed.kBlue] else [])
  | MQTT_EVENT_PUBLISHED =>
      (self, entered :: if led_ self then [flash_once StatusLed.kWhite] else [])
  | MQTT_EVENT_ERROR => (self, [entered])
  | _ => (self, [entered])
  end.

(** [MQTT::EventHandlerForwarder]: [arg] is the registered instance
    ([None] is [nullptr]). *)
Definition EventHandlerForwarder (arg : option MQTT) (tr : transport)
    (event : esp_mqtt_event_t) : option MQTT * list call :=
  match arg with
  | None => (arg, [])
  | Some instance =>
      if fatal_error_ instance then (arg, [])
      else
        let '(instance, out) := EventHandler instance tr event in
        (Some instance, out)
  end.

(** The events of a session, delivered in order through the forwarder. *)
Definition dispatch (tr : transport) (events : list esp_mqtt_event_t)
    (w : option MQTT * list call) : option MQTT * list call :=
  fold_left
    (fun w event =>
       let '(arg, out) := EventHandlerForwarder (fst w) tr event in
       (arg, snd w ++ out))
    events w.

(** Registration, in order, on a fresh client. *)
Definition register (subs : list (string * Z)) : MQTT :=
  fold_left (fun self s => AddSubscription self (fst s) (snd s)) subs new.

(** The topic and the QoS of a subscribe call. *)
Definition subscribed (c : call) : option (string * Z) :=
  match c with
  | subscribe_call _ t q _ => Some (t, q)
  | _ => None
  end.

Definition is_entered (c : call) : bool :=
  match c with
  | EventHandler_call _ => true
  | _ => false
  end.

(** What [Init] can read of a key: namespace "mqtt" opened read-only, the
    string read into a buffer of 64 bytes. *)
Definition read64 (st : Nvs.state) (key : string) : option string :=
  let '(_, handle, st) :=
    NvsHandle.Open NvsHandle.new "mqtt" Nvs.NVS_READONLY st in
  let '(err, out, _) := NvsHandle.GetString handle key true 64 st in
  if err =? ESP_OK then out else None.

(** The session configuration that follows from the store. *)
Definition config_of (st : Nvs.state) (will : option LastWill)
    : esp_mqtt_client_config_t :=
  let user := default ""%string (read64 st "username") in
  let pass := default ""%string (read64 st "password") in
  let with_credentials :=
    (0 <? String.length user)%nat && (0 <? String.length pass)%nat in
  {| uri := default ""%string (read64 st "broker");
     username := if with_credentials then Some user else None;
     password := if with_credentials then Some pass else None;
     last_will := will |}.

End MQTT.

(** ** firmware_updater.hpp, firmware_updater.cpp: the updater

    A call that does not come back ends the run: [esp_restart] reboots,
    and a failed [ESP_ERROR_CHECK] aborts.  The OTA data of ESP-IDF keeps
    one state per application image; [running] is the state of the image
    that runs ([None] when the image has no OTA data, as a factory image). *)
Module Updater.

Inductive outcome (A : Type) :=
  | Returns (a : A)
  | Reboots
  | Aborts.
Arguments Returns {A} a.
Arguments Reboots {A}.
Arguments Aborts {A}.

Inductive esp_ota_img_states_t :=
  | ESP_OTA_IMG_NEW | ESP_OTA_IMG_PENDING_VERIFY | ESP_OTA_IMG_VALID
  | ESP_OTA_IMG_INVALID | ESP_OTA_IMG_ABORTED | ESP_OTA_IMG_UNDEFINED.

Record HttpHeader := { key : string; value : string }.

(** What the updater meets when it runs: the answers of the event loop,
    of the HTTP client and of the download, and the OTA data. *)
Record env := {
  esp_event_handler_register : esp_err_t;
  esp_http_client_set_header : HttpHeader -> esp_err_t;
  download : string -> list HttpHeader -> esp_err_t;
  running : option esp_ota_img_states_t;
  previous_image : bool;
}.

Inductive call :=
  | esp_event_handler_register_call
  | esp_http_client_set_header_call (h : HttpHeader)
  | esp_https_ota_call (url : string)
  | esp_restart_call
  | esp_ota_mark_app_valid_cancel_rollback_call
  | esp_ota_mark_app_invalid_rollback_and_reboot_call.

Record Updater := { headers_ : list HttpHeader }.

Definition new : Updater := {| headers_ := [] |}.

Definition AddHeader (self : Updater) (k v : string) : Updater :=
  {| headers_ := headers_ self ++ [{| key := k; value := v |}] |}.

Definition AddBearerToken (self : Updater) (token : string) : Updater :=
  AddHeader self "Authorization" (String.append "Bearer " token).

(** [HttpClientInitCallback]: the headers, in order, until one is refused.
    Returns the error, the calls made and the headers set. *)
Fixpoint HttpClientInitCallback (e : env) (headers : list HttpHeader)
    : esp_err_t * list call * list HttpHeader :=
  match headers with
  | [] => (ESP_OK, [], [])
  | header :: rest =>
      let ret := esp_http_client_set_header e header in
      if negb (ret =? ESP_OK) then (ret, [esp_http_client_set_header_call header], [])
      else
        let '(r, calls, set) := HttpClientInitCallback e rest in
        (r, esp_http_client_set_header_call header :: calls, header :: set)
  end.

(** [esp_https_ota] with [http_client_init_cb]: the callback runs before
    the connection is made; the download is tried only if it accepted. *)
Definition esp_https_ota (self : Updater) (e : env) (url : string)
    : esp_err_t * list call :=
  let '(ret, calls, set) := HttpClientInitCallback e (headers_ self) in
  if negb (ret =? ESP_OK) then (ESP_FAIL, esp_https_ota_call url :: calls)
  else (download e url set, esp_https_ota_call url :: calls).

(** [Updater::Update] *)
Definition Update (self : Updater) (e : env) (url : string)
    : outcome esp_err_t * list call :=
  if negb (esp_event_handler_register e =? ESP_OK)
  then (Aborts, [esp_event_handler_register_call])
  else
    let '(ret, calls) := esp_https_ota self e url in
    let trace := esp_event_handler_register_call :: calls in
    if negb (ret =? ESP_OK) then (Returns ESP_FAIL, trace)
    else if negb (ret =? ESP_OK) then (Returns ESP_FAIL, trace)
    else (Reboots, trace ++ [esp_restart_call]).

Definition esp_ota_get_state_partition (e : env)
    : esp_err_t * option esp_ota_img_states_t :=
  match running e with
  | None => (ESP_ERR_NOT_FOUND, None)
  | Some s => (ESP_OK, Some s)
  end.

(** [Updater::PendingVerification] *)
Definition PendingVerification (e : env) : bool :=
  let '(res, ota_state) := esp_ota_get_state_partition e in
  if negb (res =? ESP_OK) then false
  else
    match ota_state with
    | Some ESP_OTA_IMG_PENDING_VERIFY => true
    | _ => false
    end.

Definition set_running (s : option esp_ota_img_states_t) (e : env) : env :=
  {| esp_event_handler_register := esp_event_handler_register e;
     esp_http_client_set_header := esp_http_client_set_header e;
     download := download e; running := s;
     previous_image := previous_image e |}.

Definition esp_ota_mark_app_valid_cancel_rollback (e : env) : esp_err_t * env :=
  match running e with
  | None => (ESP_ERR_NOT_FOUND, e)
  | Some _ => (ESP_OK, set_running (Some ESP_OTA_IMG_VALID) e)
  end.

(** [Updater::Commit]: the error code is dropped. *)
Definition Commit (e : env) : env * list call :=
  (snd (esp_ota_mark_app_valid_cancel_rollback e),
   [esp_ota_mark_app_valid_cancel_rollback_call]).

(** [Updater::Rollback]: reboots into the previous image when there is
    one, returns otherwise. *)
Definition Rollback (e : env) : outcome unit * env * list call :=
  if previous_image e
  then (Reboots, set_running (Some ESP_OTA_IMG_INVALID) e,
        [esp_ota_mark_app_invalid_rollback_and_reboot_call])
  else (Returns tt, e, [esp_ota_mark_app_invalid_rollback_and_reboot_call]).

(** The first boot of an image that [Update] flashed.  With application
    rollback enabled in the bootloader the new image starts as
    [ESP_OTA_IMG_NEW] and the bootloader turns it to
    [ESP_OTA_IMG_PENDING_VERIFY]; without it the state stays
    [ESP_OTA_IMG_UNDEFINED].  The switch is in the build configuration. *)
Definition first_boot (rollback_enabled : bool) (e : env) : env :=
  {| esp_event_handler_register := esp_event_handler_register e;
     esp_http_client_set_header := esp_http_client_set_header e;
     download := download e;
     running :=
       Some (if rollback_enabled then ESP_OTA_IMG_PENDING_VERIFY
             else ESP_OTA_IMG_UNDEFINED);
     previous_image := true |}.

(** What the application can do to the running image afterwards. *)
Inductive op := op_Commit | op_PendingVerification.

Definition step (o : op) (e : env) : env :=
  match o with
  | op_Commit => fst (Commit e)
  | op_PendingVerification => e
  end.

Definition is_restart (c : call) : bool :=
  match c with
  | esp_restart_call => true
  | _ => false
  end.

Definition steps (ops : list op) (e : env) : env :=
  fold_left (fun e o => step o e) ops e.

End Updater.

(** ** app.cpp: the firmware-upgrade route and the publish helper *)
Module App.
Import Httpd.

Inductive call :=
  | http (c : Httpd.call)
  | ota (c : Updater.call).

Record App := {
  mqtt_ : MQTT.MQTT;
  updater_ : Updater.Updater;
}.

(** ["Firmware update started\n"] *)
Definition firmware_update_started : string :=
  String.append "Firmware update started" (String (ascii_of_nat 10) EmptyString).

(** [App::DoFirmwareUpgrade] *)
Definition DoFirmwareUpgrade (ctx : App) (req : httpd_req) (e : Updater.env)
    : Updater.outcome esp_err_t * list call :=
  let res := Receive req in
  if res <? 0 then
    (Updater.Returns ESP_FAIL,
     map http (SendError HTTPD_500_INTERNAL_SERVER_ERROR "Failed to receive data"))
  else if negb (res =? content_len req) then
    (Updater.Returns ESP_FAIL,
     map http
       (SendError HTTPD_500_INTERNAL_SERVER_ERROR "Failed to receive all data"))
  else
  match body req with
  | None =>
      (Updater.Returns ESP_FAIL,
       map http (SendError HTTPD_500_INTERNAL_SERVER_ERROR "Failed to parse JSON"))
  | Some json =>
  match cJSON_GetObjectItemCaseSensitive json "url" with
  | Some (cJSON_String valuestring) =>
      let started := map http (Reply firmware_update_started) in
      match Updater.Update (updater_ ctx) e valuestring with
      | (Updater.Returns ret, calls) =>
          if negb (ret =? ESP_OK) then
            (Updater.Returns ESP_FAIL,
             started ++ map ota calls ++
             map http
               (SendError HTTPD_500_INTERNAL_SERVER_ERROR
                  "Failed to update firmware"))
          else (Updater.Returns ESP_OK, started ++ map ota calls)
      | (Updater.Reboots, calls) => (Updater.Reboots, started ++ map ota calls)
      | (Updater.Aborts, calls) => (Updater.Aborts, started ++ map ota calls)
      end
  | _ => (Updater.Returns ESP_FAIL, [])
  end
  end.

(** [App::PublishMessage] *)
Definition PublishMessage (ctx : App) (tr : MQTT.transport) (t data : string)
    (prefixed : bool) (q retain : Z) : esp_err_t * list MQTT.call :=
  if prefixed
  then MQTT.Publish (mqtt_ ctx) tr (MQTT.Prefixed (mqtt_ ctx) t) data 0 q retain
  else MQTT.Publish (mqtt_ ctx) tr t data 0 q retain.

Definition is_response (c : call) : bool :=
  match c with
  | http _ => true
  | ota _ => false
  end.

End App.

(** ** httpd.cpp: the server object

    [httpd_start] and [httpd_register_uri_handler] answer through
    [answers].  [server_] is a pointer to a server handle ([None] is
    [nullptr]). *)
Module HttpdServer.

Inductive httpd_method_t := HTTP_GET | HTTP_POST | HTTP_PUT | HTTP_DELETE.

Definition httpd_handle_t : Type := N.

(** A route; [handler] and [user_ctx] are addresses. *)
Record httpd_uri_t := {
  uri : string;
  method : httpd_method_t;
  handler : N;
  user_ctx : N;
}.

Record answers := {
  httpd_start : esp_err_t * httpd_handle_t;
  httpd_register_uri_handler : httpd_handle_t -> httpd_uri_t -> esp_err_t;
}.

Inductive call :=
  | httpd_start_call (stack_size : N) (lru_purge_enable : bool)
      (max_uri_handlers : Z)
  | httpd_register_uri_handler_call (server : httpd_handle_t) (route : httpd_uri_t)
  | httpd_stop_call (server : httpd_handle_t).

Record Httpd := {
  server_ : option httpd_handle_t;
  routes_ : list httpd_uri_t;
}.

(** [Httpd() {}] with the default member initialisers. *)
Definition new : Httpd := {| server_ := None; routes_ := [] |}.

(** [routes_.push_back (route)] *)
Definition AddRoute (self : Httpd) (u : string) (m : httpd_method_t)
    (h ctx : N) : Httpd :=
  {| server_ := server_ self;
     routes_ := routes_ self ++
       [{| uri := u; method := m; handler := h; user_ctx := ctx |}] |}.

Definition ClearRoutes (self : Httpd) : Httpd :=
  {| server_ := server_ self; routes_ := [] |}.

(** [Httpd::Start]: the handle that [httpd_start] fills is the local
    [server]; the member [server_] is not assigned. *)
Definition Start (self : Httpd) (a : answers) (stack_size : N)
    (max_uri_handlers : Z) : Httpd * list call :=
  match server_ self with
  | Some _ => (self, [])
  | None =>
      let '(err, server) := httpd_start a in
      let started := httpd_start_call stack_size true max_uri_handlers in
      if err =? ESP_OK
      then (self,
            started ::
            map (fun route => httpd_register_uri_handler_call server route)
              (routes_ self))
      else (self, [started])
  end.

(** [Httpd::Stop] *)
Definition Stop (self : Httpd) : Httpd * list call :=
  match server_ self with
  | None => (self, [])
  | Some server =>
      ({| server_ := None; routes_ := routes_ self |}, [httpd_stop_call server])
  end.

(** What a user of the object can do with it. *)
Inductive op :=
  | op_AddRoute (u : string) (m : httpd_method_t) (h ctx : N)
  | op_ClearRoutes
  | op_Start (a : answers) (stack_size : N) (max_uri_handlers : Z)
  | op_Stop.

Definition apply (o : op) (w : Httpd * list call) : Httpd * list call :=
  let '(self, trace) := w in
  match o with
  | op_AddRoute u m h ctx => (AddRoute self u m h ctx, trace)
  | op_ClearRoutes => (ClearRoutes self, trace)
  | op_Start a stack_size max_uri_handlers =>
      let '(self, out) := Start self a stack_size max_uri_handlers in
      (self, trace ++ out)
  | op_Stop => let '(self, out) := Stop self in (self, trace ++ out)
  end.

Definition run (ops : list op) (w : Httpd * list call) : Httpd * list call :=
  fold_left (fun w o => apply o w) ops w.

Definition is_stop (c : call) : bool :=
  match c with
  | httpd_stop_call _ => true
  | _ => false
  end.

Definition is_start (c : call) : bool :=
  match c with
  | httpd_start_call _ _ _ => true
  | _ => false
  end.

Definition is_op_Start (o : op) : bool :=
  match o with
  | op_Start _ _ _ => true
  | _ => false
  end.

(** [AddRoute] for each route of a list, in order. *)
Definition add_routes (rs : list httpd_uri_t) (self : Httpd) : Httpd :=
  fold_left
    (fun self r => AddRoute self (uri r) (method r) (handler r) (user_ctx r))
    rs self.

End HttpdServer.

(** ** provisioner.cpp: the service name

    [snprintf (service_name_, sizeof (service_name_), "%s%02X%02X%02X",
    ssid_prefix, eth_mac[3], eth_mac[4], eth_mac[5])].  The bytes of the
    MAC address are [uint8_t]: integers in [0 .. 255].  [eth_mac] is what
    [esp_wifi_get_mac] has written (its error code is not looked at). *)
Module ServiceName.

(** One digit of [%X]. *)
Definition hex_digit (n : Z) : ascii :=
  ascii_of_N (Z.to_N (if n <? 10 then 48 + n else 55 + n)).

(** [%02X] of a byte. *)
Definition hex02 (b : Z) : string :=
  String (hex_digit (b / 16)) (String (hex_digit (b mod 16)) EmptyString).

(** [snprintf] into a buffer of [size] bytes keeps at most [size - 1]
    characters. *)
Definition snprintf (size : nat) (s : string) : string :=
  substring 0 (size - 1) s.

Definition GetDefautlServiceName (eth_mac : list Z) : string :=
  let ssid_prefix := "PROV_"%string in
  snprintf 32
    (String.append ssid_prefix
       (String.append (hex02 (nth 3 eth_mac 0))
          (String.append (hex02 (nth 4 eth_mac 0)) (hex02 (nth 5 eth_mac 0))))).

(** Every element is a byte. *)
Definition bytes (l : list Z) : Prop := Forall (fun b => 0 <= b < 256) l.

End ServiceName.

(** ** get_info.cpp: the MAC address in the reply of the info route

    [esp_read_mac] answers with its error code and the six bytes it has
    written.  The member "wifi-mac-address" is added only when it
    succeeds; [None] is a reply without the member. *)
Module Info.
Import ServiceName.

(** ["%02X:%02X:%02X:%02X:%02X:%02X"] of the six bytes. *)
Definition mac_format (mac_address : list Z) : string :=
  let byte i := hex02 (nth i mac_address 0) in
  let colon s := String ":"%char s in
  String.append (byte 0%nat) (colon
    (String.append (byte 1%nat) (colon
      (String.append (byte 2%nat) (colon
        (String.append (byte 3%nat) (colon
          (String.append (byte 4%nat) (colon (byte 5%nat)))))))))).

(** The part of [App::DoGetInfo] that reports the address:
    [char mac_str[18]] filled by [snprintf]. *)
Definition wifi_mac_address (esp_read_mac : esp_err_t * list Z) : option string :=
  let '(err, mac_address) := esp_read_mac in
  if err =? ESP_OK then Some (snprintf 18 (mac_format mac_address)) else None.

End Info.

(** ** app.hpp, app.cpp: subscriptions, the reset route, the button task *)
Module AppTasks.

(** [App::AddSubscription] *)
Definition AddSubscription (ctx : App.App) (t : string) (prefixed : bool)
    (q : Z) : App.App :=
  {| App.mqtt_ :=
       if prefixed
       then MQTT.AddSubscription (App.mqtt_ ctx)
              (MQTT.Prefixed (App.mqtt_ ctx) t) q
       else MQTT.AddSubscription (App.mqtt_ ctx) t q;
     App.updater_ := App.updater_ ctx |}.

Inductive call :=
  | http (c : Httpd.call)
  | server (c : HttpdServer.call)
  | vTaskDelay_ms (ms : Z)
  | led_Flash (f : StatusLed.flash)
  | led_On (c : StatusLed.color)
  | gpio_config_call
  | wifi_prov_mgr_reset_provisioning_call
  | esp_restart_call.

(** ["Resetting device\n"] *)
Definition resetting_device : string :=
  String.append "Resetting device" (String (ascii_of_nat 10) EmptyString).

(** [App::DoReset]; [httpd_] is the server object of the application.
    [esp_restart] does not return, so neither does the handler. *)
Definition DoReset (httpd_ : HttpdServer.Httpd) : list call :=
  map http (Httpd.Reply resetting_device) ++
  [vTaskDelay_ms 3000] ++
  map server (snd (HttpdServer.Stop httpd_)) ++
  [esp_restart_call].

(** *** [App::ReprovionerTask]

    One turn of the loop reads the button ([gpio_get_level]: [false] is
    level 0, the button held down) and, on the paths that need it, the
    clock ([esp_timer_get_time], in microseconds).  A [sample] is what
    one turn reads. *)
Record sample := { btn_state : bool; time_us : Z }.

Record button := { start_pressed : Z; prev_btn_state : bool }.

(** [int64_t start_pressed = 0; int prev_btn_state = 1;] *)
Definition released : button := {| start_pressed := 0; prev_btn_state := true |}.

Definition flash_orange : call :=
  led_Flash {| StatusLed.on_ms := 200; StatusLed.off_ms := 0;
               StatusLed.count := 1; StatusLed.flash_color := StatusLed.kOrange |}.

(** One turn of the loop: [inl] when the turn ends in [esp_restart],
    [inr] with the state for the next turn otherwise. *)
Definition turn (led_ : bool) (b : button) (s : sample)
    : list call + (button * list call) :=
  if negb (btn_state s) then
    let flash := if led_ then [flash_orange] else [] in
    if prev_btn_state b then
      inr ({| start_pressed := Z.quot (time_us s) 1000;
              prev_btn_state := btn_state s |},
           flash ++ [vTaskDelay_ms 500])
    else if 10000 <? Z.quot (time_us s) 1000 - start_pressed b then
      inl (flash ++
           (if led_ then [led_On StatusLed.kOrange] else []) ++
           [vTaskDelay_ms 2000; wifi_prov_mgr_reset_provisioning_call;
            vTaskDelay_ms 500; esp_restart_call])
    else
      inr ({| start_pressed := start_pressed b; prev_btn_state := btn_state s |},
           flash ++ [vTaskDelay_ms 500])
  else
    inr ({| start_pressed := start_pressed b; prev_btn_state := btn_state s |},
         [vTaskDelay_ms 500]).

(** The loop over the samples of successive turns: the turn at which the
    device restarts, if it does. *)
Fixpoint loop (led_ : bool) (b : button) (samples : list sample) : option nat :=
  match samples with
  | [] => None
  | s :: rest =>
      match turn led_ b s with
      | inl _ => Some 0%nat
      | inr (b', _) => S <$> loop led_ b' rest
      end
  end.

(** The calls of the loop over the same samples. *)
Fixpoint loop_calls (led_ : bool) (b : button) (samples : list sample)
    : list call :=
  match samples with
  | [] => []
  | s :: rest =>
      match turn led_ b s with
      | inl out => out
      | inr (b', out) => out ++ loop_calls led_ b' rest
      end
  end.

(** [App::ReprovionerTask]: the pin is configured ([gpio_config] is
    taken to succeed, an error aborts under [ESP_ERROR_CHECK]), then the
    loop runs. *)
Definition ReprovionerTask (led_ : bool) (samples : list sample) : list call :=
  gpio_config_call :: loop_calls led_ released samples.

(** The clock of a sample in milliseconds, as the task computes it. *)
Definition ms (s : sample) : Z := Z.quot (time_us s) 1000.

Definition is_reset (c : call) : bool :=
  match c with
  | wifi_prov_mgr_reset_provisioning_call => true
  | _ => false
  end.

Definition is_restart (c : call) : bool :=
  match c with
  | esp_restart_call => true
  | _ => false
  end.

(** Neither a reset of the provisioning nor a restart. *)
Definition harmless (c : call) : bool := negb (is_reset c || is_restart c).

End AppTasks.

(** ** nvs_config_web_services.cpp: the get-key route

    The reply is built member by member ([cJSON_AddStringToObject],
    [cJSON_AddNumberToObject] append to the object) and printed by
    [cJSON_PrintUnformatted].  [Base64Encode dlen src] is what mbedtls's
    encoder does with a non-empty input and a buffer of [dlen] bytes: the
    string it writes there, [None] when the buffer is too small.  Heap
    allocations are taken to succeed.  As in the set route, [None] is a
    run that reads a value nothing has written. *)
Module ConfigReadServices.
Import Nvs NvsHandle Httpd ConfigWebServices.

Definition members : Type := list (string * cJSON_item).

Definition cJSON_AddStringToObject (json : members) (name s : string) : members :=
  json ++ [(name, cJSON_String s)].

Definition cJSON_AddNumberToObject (json : members) (name : string)
    (number : Double.double) : members :=
  json ++ [(name, cJSON_Number number)].

Definition failed (message : string)
    : option ((esp_err_t * list Httpd.call) + members) :=
  Some (inl (ESP_FAIL, SendError HTTPD_500_INTERNAL_SERVER_ERROR message)).

Definition MBEDTLS_ERR_BASE64_BUFFER_TOO_SMALL : Z := - 0x002A.

(** [NvsHandle::Base64Encode], which is [mbedtls_base64_encode]: its
    return code and what it has written to [dst].  For an input of
    length 0 it sets [*olen = 0] and returns 0 without writing [dst]. *)
Definition mbedtls_base64_encode
    (Base64Encode : nat -> list Byte.byte -> option string)
    (dlen : nat) (src : list Byte.byte) : Z * option string :=
  match src with
  | [] => (0, None)
  | _ :: _ =>
      match Base64Encode dlen src with
      | Some written => (0, Some written)
      | None => (MBEDTLS_ERR_BASE64_BUFFER_TOO_SMALL, None)
      end
  end.

(** [JsonNode]: adds "type" and "value" for [key] to [json].  In the blob
    branch [olen] is not looked at: [enc64] is read as a C string
    whatever the encoder has done, so after an encoder that wrote
    nothing the read is that of an unwritten buffer. *)
Definition JsonNode (Base64Encode : nat -> list Byte.byte -> option string)
    (json : members) (handle : NvsHandle.NvsHandle) (key : string)
    (nvs_type : nvs_type_t) (st : state)
    : option ((esp_err_t * list Httpd.call) + members) :=
  let '(err, typeName) := TypeName nvs_type in
  if negb (err =? ESP_OK) then failed "Failed to get type" else
  let json := cJSON_AddStringToObject json "type" typeName in
  match nvs_type with
  | NVS_TYPE_I8 | NVS_TYPE_U8 | NVS_TYPE_I16 | NVS_TYPE_U16
  | NVS_TYPE_I32 | NVS_TYPE_U32 | NVS_TYPE_I64 | NVS_TYPE_U64 =>
      let '(err, value) := GetInt handle key nvs_type st in
      if negb (err =? ESP_OK) then failed "Failed to get integer value" else
      match value with
      | Some value => Some (inr (cJSON_AddNumberToObject json "value" value))
      | None => None
      end
  | NVS_TYPE_STR =>
      let '(err, _, size) := GetString handle key false 0 st in
      if negb (err =? ESP_OK) then failed "Failed to get string value" else
      let '(err, value, size) := GetString handle key true size st in
      if negb (err =? ESP_OK) then failed "Failed to get string value" else
      match value with
      | Some value => Some (inr (cJSON_AddStringToObject json "value" value))
      | None => None
      end
  | NVS_TYPE_BLOB =>
      let '(err, _, size) := GetBlob handle key false 0 st in
      if negb (err =? ESP_OK) then failed "Failed to get blob value" else
      let '(err, value, size) := GetBlob handle key true size st in
      if negb (err =? ESP_OK) then failed "Failed to get blob value" else
      match value with
      | Some value =>
          let enc64_size := (4 + size * 2)%nat in
          let '(ret, enc64) :=
            mbedtls_base64_encode Base64Encode enc64_size value in
          if negb (ret =? 0) then failed "Failed to encode blob" else
          match enc64 with
          | Some enc64 => Some (inr (cJSON_AddStringToObject json "value" enc64))
          | None => None
          end
      | None => None
      end
  | NVS_TYPE_ANY => failed "Unknown type"
  end.

(** [App::DoConfigGetKey] *)
Definition DoConfigGetKey (Base64Encode : nat -> list Byte.byte -> option string)
    (cJSON_PrintUnformatted : cJSON -> string) (req : httpd_req) (st : state)
    : option (esp_err_t * list Httpd.call * state) :=
  let kBufferSize := 1024%nat in
  match httpd_req_get_url_query_str req kBufferSize with
  | inl _ => fail "Failed to get query string" st
  | inr buffer =>
  match GetNameSpace buffer 32 with
  | inl (err, out) => Some (ESP_FAIL, out, st)
  | inr name_space =>
  match GetKey buffer 32 with
  | inl (err, out) => Some (ESP_FAIL, out, st)
  | inr key =>
  let my_handle := NvsHandle.new in
  let '(err, my_handle, st) := Open my_handle name_space NVS_READONLY st in
  if negb (err =? ESP_OK)
  then fail "Failed to open NVS handle" (destroy my_handle st)
  else
  let '(err, nvs_type) := FindKey my_handle key st in
  if negb (err =? ESP_OK)
  then fail "Failed to find key" (destroy my_handle st)
  else
  match nvs_type with
  | None => None
  | Some nvs_type =>
      match JsonNode Base64Encode [] my_handle key nvs_type st with
      | None => None
      | Some (inl (err, out)) => Some (ESP_FAIL, out, destroy my_handle st)
      | Some (inr response) =>
          Some (ESP_OK,
                ReplyJson (cJSON_PrintUnformatted (cJSON_Object response)),
                destroy my_handle st)
      end
  end
  end end end.

(** A response: one error, or one JSON reply. *)
Definition is_error (out : list Httpd.call) : Prop :=
  exists message, out = SendError HTTPD_500_INTERNAL_SERVER_ERROR message.

Definition is_json_reply (out : list Httpd.call) : Prop :=
  exists data, out = ReplyJson data.

End ConfigReadServices.

(** ** nvs_config_web_services.cpp: the get-all route

    [nvs_entry_find] / [nvs_entry_next] walk over the entries of the
    partition: every visible key with its namespace and type, each once,
    in the order of the storage.  The handler collects them in a
    [std::map] of [std::map]s, which keeps its keys in increasing order
    ([std::string]'s [operator<], the order of [String.compare]), and
    builds its reply by walking these maps.  The reply is an object of
    namespaces, each an object of keys, each the object that [JsonNode]
    fills. *)
Module ConfigListServices.
Import Nvs NvsHandle Httpd ConfigWebServices ConfigReadServices.

(** [m[k] = v] on a [std::map<std::string, V>]. *)
Fixpoint map_set {V : Type} (k : string) (v : V) (m : list (string * V))
    : list (string * V) :=
  match m with
  | [] => [(k, v)]
  | (k', v') :: rest =>
      match String.compare k k' with
      | Lt => (k, v) :: m
      | Eq => (k, v) :: rest
      | Gt => (k', v') :: map_set k v rest
      end
  end.

(** [m.find (k)] *)
Definition map_get {V : Type} (k : string) (m : list (string * V)) : option V :=
  assoc k m.

Definition entry : Type := string * string * nvs_type_t.

(** What the iterator yields on a store. *)
Definition entries (st : state) : list entry :=
  flat_map
    (fun '(name_space, m) =>
       map (fun '(key, it) => (name_space, key, item_type it)) (map_to_list m))
    (map_to_list (view st)).

(** [config[info.namespace_name][info.key] = info.type;] ([operator[]]
    makes an empty map for a namespace that is not there yet). *)
Definition record (config : list (string * list (string * nvs_type_t)))
    (info : entry) : list (string * list (string * nvs_type_t)) :=
  let '(namespace_name, key, type) := info in
  map_set namespace_name
    (map_set key type (default [] (map_get namespace_name config))) config.

Definition collect (infos : list entry)
    : list (string * list (string * nvs_type_t)) :=
  fold_left record infos [].

(** The inner loop: one object per key, added to [namespace_json]. *)
Fixpoint keys_loop (Base64Encode : nat -> list Byte.byte -> option string)
    (my_handle : NvsHandle.NvsHandle) (keys : list (string * nvs_type_t))
    (namespace_json : list (string * members)) (st : state)
    : option ((esp_err_t * list Httpd.call) + list (string * members)) :=
  match keys with
  | [] => Some (inr namespace_json)
  | (key, type) :: rest =>
      match JsonNode Base64Encode [] my_handle key type st with
      | None => None
      | Some (inl failure) => Some (inl failure)
      | Some (inr key_json) =>
          keys_loop Base64Encode my_handle rest
            (namespace_json ++ [(key, key_json)]) st
      end
  end.

(** The outer loop: the one [my_handle] is opened on each namespace in
    turn (the result of [Open] is not looked at) and closed after its
    keys. *)
Fixpoint namespaces_loop (Base64Encode : nat -> list Byte.byte -> option string)
    (my_handle : NvsHandle.NvsHandle)
    (config : list (string * list (string * nvs_type_t)))
    (response : list (string * list (string * members))) (st : state)
    : option ((esp_err_t * list Httpd.call * NvsHandle.NvsHandle * state) +
              (list (string * list (string * members)) *
               NvsHandle.NvsHandle * state)) :=
  match config with
  | [] => Some (inr (response, my_handle, st))
  | (ns, keys) :: rest =>
      let '(_, my_handle, st) := Open my_handle ns NVS_READONLY st in
      match keys_loop Base64Encode my_handle keys [] st with
      | None => None
      | Some (inl (err, out)) => Some (inl (err, out, my_handle, st))
      | Some (inr namespace_json) =>
          let st := Close my_handle st in
          namespaces_loop Base64Encode my_handle rest
            (response ++ [(ns, namespace_json)]) st
      end
  end.

(** [App::DoConfigGetAll] *)
Definition DoConfigGetAll (Base64Encode : nat -> list Byte.byte -> option string)
    (cJSON_PrintUnformatted : list (string * list (string * members)) -> string)
    (req : httpd_req) (st : state)
    : option (esp_err_t * list Httpd.call * state) :=
  let config := collect (entries st) in
  let my_handle := NvsHandle.new in
  match namespaces_loop Base64Encode my_handle config [] st with
  | None => None
  | Some (inl (err, out, my_handle, st)) =>
      Some (ESP_FAIL, out, destroy my_handle st)
  | Some (inr (response, my_handle, st)) =>
      Some (ESP_OK, ReplyJson (cJSON_PrintUnformatted response),
            destroy my_handle st)
  end.

(** The item that is visible under a namespace and key. *)
Definition item_at (st : state) (name_space key : string) : option item :=
  match view st !! name_space with
  | Some m => m !! key
  | None => None
  end.

(** What a map of maps holds for a namespace and key: the type in
    [config], the object in the reply. *)
Definition listed {V : Type} (m : list (string * list (string * V)))
    (name_space key : string) : option V :=
  match map_get name_space m with
  | Some keys => map_get key keys
  | None => None
  end.

(** Every entry of [config] is a visible key with its type. *)
Definition faithful (st : state)
    (config : list (string * list (string * nvs_type_t))) : Prop :=
  Forall
    (fun '(name_space, keys) =>
       exists m, view st !! name_space = Some m /\
         Forall (fun '(key, type) =>
                   exists it, m !! key = Some it /\ type = item_type it)
                keys)
    config.

(** [o] is the entry of the reply for the key [k] of [name_space]: it
    carries the key, and its object is what [JsonNode] fills for the
    visible item through any handle that reads it. *)
Definition key_object (Base64Encode : nat -> list Byte.byte -> option string)
    (st : state) (name_space : string) (k : string * nvs_type_t)
    (o : string * members) : Prop :=
  fst o = fst k /\
  exists it,
    item_at st name_space (fst k) = Some it /\ snd k = item_type it /\
    forall h s,
      find (handle_ h) (fst k) s = inr it ->
      JsonNode Base64Encode [] h (fst k) (item_type it) s = Some (inr (snd o)).

Definition namespace_object (Base64Encode : nat -> list Byte.byte -> option string)
    (st : state) (c : string * list (string * nvs_type_t))
    (o : string * list (string * members)) : Prop :=
  fst o = fst c /\ Forall2 (key_object Base64Encode st (fst c)) (snd c) (snd o).

End ConfigListServices.

(** ** provisioner.cpp: what the handler does on station events *)
Module StationEvents.
Import Provisioner.

(** The events on which the handler calls [esp_wifi_connect]. *)
Definition asks_connect (ev : event) : bool :=
  match ev with
  | WIFI_EVENT WIFI_EVENT_STA_START
  | WIFI_EVENT WIFI_EVENT_STA_DISCONNECTED => true
  | _ => false
  end.

Definition is_got_ip (ev : event) : bool :=
  match ev with
  | IP_EVENT IP_EVENT_STA_GOT_IP => true
  | _ => false
  end.

Definition is_connect (c : call) : bool :=
  match c with
  | esp_wifi_connect_call => true
  | _ => false
  end.

Definition is_set_connected (c : call) : bool :=
  match c with
  | xEventGroupSetBits_call bits => bits =? kWifiConnectedEvent
  | _ => false
  end.

Definition count {A : Type} (f : A -> bool) (l : list A) : nat :=
  List.length (List.filter f l).

End StationEvents.

(** ** Requests used in the examples below *)
Module Requests.
Import Httpd.

Definition broker_query : list (string * string) :=
  [("namespace", "mqtt"); ("key", "broker")]%string.

Definition count_query : list (string * string) :=
  [("namespace", "app"); ("key", "count")]%string.

(** A request with a query and a JSON body of the two members "type" and
    "value". *)
Definition request (query : list (string * string)) (type : string)
    (value : cJSON_item) : httpd_req :=
  {| url_query := Some query; content_len := 48; received := 48;
     body := Some (cJSON_Object
                     [("type"%string, cJSON_String type);
                      ("value"%string, value)]) |}.

(** A request with a query and no body. *)
Definition query_only (query : list (string * string)) : httpd_req :=
  {| url_query := Some query; content_len := 0; received := 0; body := None |}.

(** The store a request leaves ([blank] when the handler does not
    answer). *)
Definition left_by (r : option (esp_err_t * list Httpd.call * Nvs.state))
    : Nvs.state :=
  match r with
  | Some (_, _, st) => st
  | None => Nvs.blank
  end.

End Requests.

(** ** Concrete devices used in the examples below *)
Module Fixtures.
Import Nvs.

(** A blank partition on which namespace "mqtt" has just been opened for
    writing. *)
Definition opened : esp_err_t * NvsHandle.NvsHandle * state :=
  NvsHandle.Open NvsHandle.new "mqtt" NVS_READWRITE blank.

Definition h1 : NvsHandle.NvsHandle := snd (fst opened).
Definition st1 : state := snd opened.

(** The same partition once the broker settings of the README have been
    set and committed, and the handle closed. *)
Definition configured : state :=
  let st := snd (NvsHandle.SetString h1 "broker" "mqtt://192.168.86.30" st1) in
  let st := snd (NvsHandle.SetString h1 "topic-base" "fh/es2/" st) in
  let st := snd (NvsHandle.Commit h1 st) in
  NvsHandle.Close h1 st.

(** A transport with no session: no message gets an id. *)
Definition offline : MQTT.transport :=
  {| MQTT.esp_mqtt_client_init := fun _ => Some 1%N;
     MQTT.esp_mqtt_client_register_event := fun _ => ESP_OK;
     MQTT.esp_mqtt_client_start := fun _ => ESP_OK;
     MQTT.esp_mqtt_client_subscribe := fun _ _ _ => -1;
     MQTT.esp_mqtt_client_publish := fun _ _ _ _ _ _ => -1 |}.

Definition an_event (id : MQTT.esp_mqtt_event_id_t) : MQTT.esp_mqtt_event_t :=
  {| MQTT.event_id := id; MQTT.client := 1%N;
     MQTT.event_topic := ""; MQTT.event_data := "";
     MQTT.error_handle :=
       {| MQTT.error_type := MQTT.MQTT_ERROR_TYPE_NONE;
          MQTT.esp_tls_last_esp_err := 0;
          MQTT.esp_tls_stack_err := 0;
          MQTT.esp_transport_sock_errno := 0 |} |}.

(** A transport that initialises the client but refuses the handler. *)
Definition no_registration : MQTT.transport :=
  {| MQTT.esp_mqtt_client_init := fun _ => Some 1%N;
     MQTT.esp_mqtt_client_register_event := fun _ => ESP_ERR_NO_MEM;
     MQTT.esp_mqtt_client_start := fun _ => ESP_OK;
     MQTT.esp_mqtt_client_subscribe := fun _ _ _ => -1;
     MQTT.esp_mqtt_client_publish := fun _ _ _ _ _ _ => -1 |}.

(** A request for an image, and two servers: one that delivers it, one
    that answers with an error. *)
Definition upgrade_request : Httpd.httpd_req :=
  {| Httpd.url_query := None; Httpd.content_len := 40; Httpd.received := 40;
     Httpd.body :=
       Some (Httpd.cJSON_Object
               [("url"%string, Httpd.cJSON_String "https://fw.example/app.bin")]) |}.

Definition server (answer : esp_err_t) : Updater.env :=
  {| Updater.esp_event_handler_register := ESP_OK;
     Updater.esp_http_client_set_header := fun _ => ESP_OK;
     Updater.download := fun _ _ => answer;
     Updater.running := Some Updater.ESP_OTA_IMG_VALID;
     Updater.previous_image := false |}.

Definition app : App.App :=
  {| App.mqtt_ := MQTT.new;
     App.updater_ := Updater.AddBearerToken Updater.new "t0k3n" |}.

End Fixtures.

(** * Properties *)

Module DoubleFacts.
Import Double.

Example of_Z_7 : exact_Z (of_Z 7) = Some 7.
Proof. reflexivity. Qed.

Example of_Z_2p53_1 :
  exact_Z (of_Z (2 ^ 53 + 1)) = Some (2 ^ 53).
Proof. vm_compute. reflexivity. Qed.

Example of_Z_u64max :
  exact_Z (of_Z (2 ^ 64 - 1)) = Some (2 ^ 64).
Proof. vm_compute. reflexivity. Qed.

Lemma digits2_pos_bounds (m : positive) :
  2 ^ (Z.pos (digits2_pos m) - 1) <= Z.pos m < 2 ^ Z.pos (digits2_pos m).
Proof.
  induction m as [p IH | p IH |]; cbn [digits2_pos].
  - rewrite Pos2Z.inj_succ, (Pos2Z.inj_xI p).
    replace (Z.succ (Z.pos (digits2_pos p)) - 1)
      with (Z.succ (Z.pos (digits2_pos p) - 1)) by lia.
    rewrite !Z.pow_succ_r by lia. lia.
  - rewrite Pos2Z.inj_succ, (Pos2Z.inj_xO p).
    replace (Z.succ (Z.pos (digits2_pos p)) - 1)
      with (Z.succ (Z.pos (digits2_pos p) - 1)) by lia.
    rewrite !Z.pow_succ_r by lia. lia.
  - cbn. lia.
Qed.

Lemma iter_xO_val (m k : positive) :
  Z.pos (Pos.iter xO m k) = Z.pos m * 2 ^ Z.pos k.
Proof.
  induction k as [| k IH] using Pos.peano_ind.
  - cbn. lia.
  - rewrite Pos.iter_succ, (Pos2Z.inj_xO (Pos.iter xO m k)), IH, Pos2Z.inj_succ,
      Z.pow_succ_r by lia.
    lia.
Qed.

Lemma digits2_iter_xO (m k : positive) :
  digits2_pos (Pos.iter xO m k) = (digits2_pos m + k)%positive.
Proof.
  induction k as [| k IH] using Pos.peano_ind.
  - cbn. lia.
  - rewrite Pos.iter_succ. cbn [digits2_pos]. rewrite IH. lia.
Qed.

Lemma digits2_small (m : positive) :
  Z.pos m < 2 ^ 53 -> Z.pos (digits2_pos m) <= 53.
Proof.
  intros Hm. destruct (digits2_pos_bounds m) as [Hlo _].
  destruct (Z.le_gt_cases (Z.pos (digits2_pos m)) 53) as [H | H]; [exact H |].
  exfalso.
  assert (2 ^ 53 <= 2 ^ (Z.pos (digits2_pos m) - 1))
    by (apply Z.pow_le_mono_r; lia).
  lia.
Qed.

(** The binary64 image of a positive integer below [2^53]: the mantissa
    is the integer shifted left to 53 digits, nothing is rounded away. *)
Lemma binary_round_small (s : bool) (m : positive) :
  Z.pos m < 2 ^ 53 ->
  exists m' e,
    binary_round prec emax s m 0 = S754_finite s m' e /\
    e <= 0 /\ Z.pos m' = Z.pos m * 2 ^ (- e).
Proof.
  intros Hm. pose proof (digits2_small m Hm) as Hd.
  unfold binary_round, shl_align, fexp, emin, prec, emax.
  set (d := digits2_pos m) in *.
  replace (Z.max (Z.pos d + 0 - 53) (3 - 1024 - 53)) with (Z.pos d - 53) by lia.
  destruct (Z.pos d - 53 - 0) as [| q | q] eqn:Hq; try lia.
  - (* already 53 digits *)
    exists m, 0. split; [| split; [lia | change (2 ^ (- 0)) with 1; lia]].
    unfold binary_round_aux, shr_fexp, fexp, emin. cbn [Zdigits2 shr_record_of_loc].
    fold d.
    replace (Z.max (Z.pos d + 0 - 53) (3 - 1024 - 53) - 0) with 0 by lia.
    cbn [shr shr_m loc_of_shr_record round_nearest_even Zdigits2].
    fold d.
    replace (Z.max (Z.pos d + 0 - 53) (3 - 1024 - 53) - 0) with 0 by lia.
    cbn [shr shr_m]. reflexivity.
  - (* shifted left by q = 53 - d *)
    exists (Pos.iter xO m q), (Z.pos d - 53).
    split; [| split; [lia |]].
    + unfold binary_round_aux, shr_fexp, fexp, emin.
      cbn [Zdigits2 shr_record_of_loc].
      rewrite digits2_iter_xO. fold d.
      replace (Z.max (Z.pos (d + q) + (Z.pos d - 53) - 53) (3 - 1024 - 53)
               - (Z.pos d - 53)) with 0 by lia.
      cbn [shr shr_m loc_of_shr_record round_nearest_even Zdigits2].
      rewrite digits2_iter_xO. fold d.
      replace (Z.max (Z.pos (d + q) + (Z.pos d - 53) - 53) (3 - 1024 - 53)
               - (Z.pos d - 53)) with 0 by lia.
      cbn [shr shr_m].
      replace (Z.pos d - 53 <=? 1024 - 53) with true by (symmetry; lia).
      reflexivity.
    + rewrite iter_xO_val. f_equal. f_equal. lia.
Qed.


Lemma exact_Z_shifted (s : bool) (m m' : positive) (e : Z) :
  e <= 0 -> Z.pos m' = Z.pos m * 2 ^ (- e) ->
  exact_Z (S754_finite s m' e) = Some (cond_Zopp s (Z.pos m)).
Proof.
  intros He Hm'. unfold exact_Z. destruct e as [| p | p]; try lia.
  - change (2 ^ (- 0)) with 1 in Hm'. change (2 ^ 0) with 1.
    do 2 f_equal. lia.
  - rewrite Hm'. cbn [Z.opp].
    assert (0 < 2 ^ Z.pos p) by (apply Z.pow_pos_nonneg; lia).
    rewrite Z.mod_mul, Z.div_mul by lia. reflexivity.
Qed.


Lemma of_Z_exact (z : Z) :
  Z.abs z < 2 ^ 53 -> exact_Z (of_Z z) = Some z.
Proof.
  intros Hz. unfold of_Z. destruct z as [| m | m]; cbn [binary_normalize].
  - reflexivity.
  - destruct (binary_round_small false m) as (m' & e & -> & He & Hm'); [lia |].
    now rewrite (exact_Z_shifted false m m' e).
  - destruct (binary_round_small true m) as (m' & e & -> & He & Hm'); [lia |].
    now rewrite (exact_Z_shifted true m m' e).
Qed.

Lemma small_representable (z : Z) : Z.abs z < 2 ^ 53 -> representable z.
Proof. exact (of_Z_exact z). Qed.

(** A double that denotes an integer converts to that integer. *)
Lemma exact_Z_trunc (d : double) (z : Z) : exact_Z d = Some z -> trunc d = Some z.
Proof.
  destruct d as [s | s | | s m e]; cbn [exact_Z trunc]; try discriminate;
    [now intros [= <-] |].
  unfold trunc_mag. destruct e as [| p | p]; try (now intros [= <-]).
  destruct (Z.pos m mod 2 ^ Z.pos p =? 0); [now intros [= <-] | discriminate].
Qed.

Example representable_2p60 : representable (2 ^ 60).
Proof. vm_compute. reflexivity. Qed.

Example representable_2p53 : representable (2 ^ 53).
Proof. vm_compute. reflexivity. Qed.

End DoubleFacts.

(** ** The NVS model: reads after writes *)
Module NvsFacts.
Import Nvs.

Lemma nvs_type_eqb_refl (ty : nvs_type_t) : nvs_type_eqb ty ty = true.
Proof. destruct ty; reflexivity. Qed.

Lemma nvs_set_ok h key it st ns :
  handles st !! h = Some (ns, NVS_READWRITE) ->
  refuse st ns key it = None ->
  nvs_set h key it st =
    (ESP_OK,
     with_view (<[ns := <[key := it]> (items st ns)]> (view st))
       (called (nvs_set_call h key it) st)).
Proof.
  intros Hh Ha. unfold nvs_set. cbn [handles called refuse].
  rewrite Hh, Ha. reflexivity.
Qed.

Lemma nvs_commit_ok h st ns mode :
  handles st !! h = Some (ns, mode) ->
  nvs_commit h st =
    (ESP_OK,
     with_stored (<[ns := items st ns]> (stored st))
       (called (nvs_commit_call h) st)).
Proof.
  intros Hh. unfold nvs_commit. cbn [handles called].
  rewrite Hh. reflexivity.
Qed.

(** [nvs_commit] changes neither the view nor the handles. *)
Lemma nvs_commit_find h st h' key :
  find h' key (snd (nvs_commit h st)) = find h' key st.
Proof.
  unfold nvs_commit. cbn [handles called].
  destruct (handles st !! h) as [[ns mode] |]; reflexivity.
Qed.

Lemma items_with_view v st ns m :
  v !! ns = Some m -> items (with_view v st) ns = m.
Proof. unfold items. cbn [view with_view]. now intros ->. Qed.

(** Reads depend on the view and the handles only. *)
Lemma find_with_stored v st h key :
  find h key (with_stored v st) = find h key st.
Proof. reflexivity. Qed.

Lemma find_called c st h key : find h key (called c st) = find h key st.
Proof. reflexivity. Qed.

(** After a write through [h], every handle on the same namespace reads
    the item written. *)
Lemma find_after_set h h' key it st ns mode :
  handles st !! h' = Some (ns, mode) ->
  find h' key
    (with_view (<[ns := <[key := it]> (items st ns)]> (view st))
       (called (nvs_set_call h key it) st)) = inr it.
Proof.
  intros Hh'. unfold find. cbn [handles with_view called].
  rewrite Hh'.
  erewrite items_with_view by apply lookup_insert_eq.
  now rewrite lookup_insert_eq.
Qed.

End NvsFacts.

(** ** ConfigStore: typed round trip *)
Module ConfigStoreFacts.
Import Nvs NvsHandle NvsFacts.

Lemma well_typed_fits (tv : typed) :
  well_typed tv -> wide_fits tv ->
  match tv with TInt _ v => Double.representable v | _ => True end.
Proof.
  destruct tv as [type v | s | b]; [| exact (fun _ _ => I) ..].
  destruct type; cbn; try contradiction; try (intros _ H; exact H);
    intros H _; apply DoubleFacts.small_representable; lia.
Qed.

Lemma SetInt_of_Z self key type v st :
  well_typed (TInt type v) -> Double.representable v ->
  SetInt self key type (Double.of_Z v) st =
    Some (nvs_set (handle_ self) key (ItemInt type v) st).
Proof.
  unfold well_typed, SetInt. intros Hty Hv.
  destruct (int_range type) as [[lo hi] |]; [| contradiction].
  unfold Double.to_int. rewrite (DoubleFacts.exact_Z_trunc _ _ Hv).
  replace ((lo <=? v) && (v <=? hi)) with true; [reflexivity |].
  symmetry. apply andb_true_intro. split; apply Z.leb_le; lia.
Qed.

Lemma SetEntry_item self key tv st :
  well_typed tv -> wide_fits tv ->
  SetEntry self key tv st = Some (nvs_set (handle_ self) key (item_of tv) st).
Proof.
  intros Hty Hfit. pose proof (well_typed_fits tv Hty Hfit) as Hv.
  destruct tv as [type v | s | b]; cbn [SetEntry item_of]; try reflexivity.
  now apply SetInt_of_Z.
Qed.

(** [GetEntry] on a key that holds the item of [tv]. *)
Lemma GetEntry_item self key tv st :
  well_typed tv -> wide_fits tv ->
  find (handle_ self) key st = inr (item_of tv) ->
  returns (GetEntry self key st) tv.
Proof.
  intros Hty Hfit Hfind. pose proof (well_typed_fits tv Hty Hfit) as Hv.
  unfold GetEntry, FindKey, nvs_find_key.
  destruct tv as [type v | s | b]; cbn [item_of] in Hfind; rewrite Hfind;
    cbn [item_type]; change (ESP_OK =? ESP_OK) with true; cbn [negb].
  - destruct type; try contradiction;
      unfold GetInt, nvs_get_int; rewrite Hfind; cbn;
      (split; [reflexivity | exact Hv]).
  - unfold GetString, nvs_get_str. rewrite Hfind. cbn [negb].
    change (ESP_OK =? ESP_OK) with true. cbn [negb].
    rewrite Nat.ltb_irrefl.
    change (ESP_OK =? ESP_OK) with true. cbn. auto.
  - unfold GetBlob, nvs_get_blob. rewrite Hfind. cbn [negb].
    change (ESP_OK =? ESP_OK) with true. cbn [negb].
    rewrite Nat.ltb_irrefl.
    change (ESP_OK =? ESP_OK) with true. cbn. auto.
Qed.

(** C1, as amended.  For every supported type and every value of that
    type -- for the two 64-bit types, every value that a [double]
    represents exactly -- [SetEntry] through a handle that is open for
    writing, followed by [Commit] and [GetEntry] on the same key,
    succeeds and returns the type and the value that were set, provided
    the library accepts the write. *)
Theorem set_commit_get self key tv st ns :
  handles st !! handle_ self = Some (ns, NVS_READWRITE) ->
  refuse st ns key (item_of tv) = None ->
  well_typed tv ->
  wide_fits tv ->
  round_trip self key tv st.
Proof.
  intros Hh Ha Hty Hfit. unfold round_trip.
  eexists _, _. split; [| split].
  - rewrite (SetEntry_item self key tv st Hty Hfit).
    now rewrite (nvs_set_ok _ _ _ _ ns Hh Ha).
  - unfold Commit. now erewrite nvs_commit_ok by exact Hh.
  - apply GetEntry_item; [exact Hty | exact Hfit |].
    rewrite find_with_stored, find_called.
    now apply (find_after_set _ _ _ _ _ ns NVS_READWRITE).
Qed.

Lemma set_commit_get_witness :
  round_trip Fixtures.h1 "broker" (TStr "mqtt://10.0.0.5") Fixtures.st1 /\
  round_trip Fixtures.h1 "retries" (TInt NVS_TYPE_U32 4000000000) Fixtures.st1 /\
  round_trip Fixtures.h1 "offset" (TInt NVS_TYPE_I64 (- 2 ^ 60)) Fixtures.st1.
Proof.
  repeat split.
  - apply (set_commit_get Fixtures.h1 "broker" _ Fixtures.st1 "mqtt");
      [reflexivity | reflexivity | exact I | exact I].
  - apply (set_commit_get Fixtures.h1 "retries" _ Fixtures.st1 "mqtt");
      [reflexivity | reflexivity | cbn; lia | exact I].
  - apply (set_commit_get Fixtures.h1 "offset" _ Fixtures.st1 "mqtt");
      [reflexivity | reflexivity | cbn; lia | vm_compute; reflexivity].
Defined.

(** C1 as stated fails for 64-bit values: [2^53 + 1] is a [uint64_t], the
    conversion to the [double] parameter of [SetInt] rounds it to [2^53],
    and that is what is stored and read back. *)
Lemma set_commit_get_u64_counterexample :
  well_typed (TInt NVS_TYPE_U64 (2 ^ 53 + 1)) /\
  ~ round_trip Fixtures.h1 "serial" (TInt NVS_TYPE_U64 (2 ^ 53 + 1)) Fixtures.st1.
Proof.
  split; [cbn; lia |].
  intros (s1 & s2 & Hset & Hcommit & Hret).
  vm_compute in Hset. injection Hset as <-.
  vm_compute in Hcommit. injection Hcommit as <-.
  vm_compute in Hret. destruct Hret as [_ Hret]. discriminate Hret.
Qed.

(** What is read back in that case. *)
Example set_commit_get_u64_rounds :
  exists s1 s2 d,
    SetEntry Fixtures.h1 "serial" (TInt NVS_TYPE_U64 (2 ^ 53 + 1)) Fixtures.st1
      = Some (ESP_OK, s1) /\
    Commit Fixtures.h1 s1 = (ESP_OK, s2) /\
    GetEntry Fixtures.h1 "serial" s2 = inr (NVS_TYPE_U64, VInt d) /\
    Double.exact_Z d = Some (2 ^ 53).
Proof. eexists _, _, _. repeat split; vm_compute; reflexivity. Qed.

End ConfigStoreFacts.

(** ** ConfigStore: erase is seen at once, a write is durable on commit *)
Module EraseFacts.
Import Nvs NvsHandle NvsFacts.

Lemma nvs_erase_key_state h key st ns :
  handles st !! h = Some (ns, NVS_READWRITE) ->
  (items st ns !! key = None /\
   nvs_erase_key h key st =
     (ESP_ERR_NVS_NOT_FOUND, called (nvs_erase_key_call h key) st)) \/
  (is_Some (items st ns !! key) /\
   nvs_erase_key h key st =
     (ESP_OK,
      with_view (<[ns := delete key (items st ns)]> (view st))
        (called (nvs_erase_key_call h key) st))).
Proof.
  intros Hh. unfold nvs_erase_key. cbn [handles called]. rewrite Hh.
  change (items (called (nvs_erase_key_call h key) st) ns) with (items st ns).
  destruct (items st ns !! key) as [it |] eqn:Hk; [right | left]; eauto.
Qed.


Lemma nvs_erase_all_state h st ns :
  handles st !! h = Some (ns, NVS_READWRITE) ->
  nvs_erase_all h st =
    (ESP_OK, with_view (<[ns := ∅]> (view st)) (called (nvs_erase_all_call h) st)).
Proof.
  intros Hh. unfold nvs_erase_all. cbn [handles called]. now rewrite Hh.
Qed.



(** Opening a namespace that exists, in either mode: the new handle reads
    the view of that namespace. *)
Lemma Open_existing self ns mode st m :
  view st !! ns = Some m ->
  exists h st',
    Open self ns mode st = (ESP_OK, h, st') /\
    handle_ h <> 0%N /\
    handles st' = <[handle_ h := (ns, mode)]> (handles st) /\
    view st' = view st /\ stored st' = stored st /\
    calls st' = calls st ++ [nvs_open_call ns mode] /\
    forall key,
      find (handle_ h) key st' =
        match m !! key with
        | Some it => inr it
        | None => inl ESP_ERR_NVS_NOT_FOUND
        end.
Proof.
  intros Hv. unfold Open, nvs_open. cbn [view called next_handle handles].
  rewrite Hv. eexists _, _. split; [reflexivity |].
  cbn [handle_ handles view stored calls with_handles called].
  repeat split; try reflexivity; try lia.
  intros key. unfold find, items.
  cbn [handles view with_handles called].
  now rewrite lookup_insert_eq, Hv.
Qed.

(** After a power cycle the view is the medium: a key of a namespace that
    is on the medium reads as the medium has it. *)
Lemma restart_reads self ns mode st m key :
  stored st !! ns = Some m ->
  exists h st',
    Open self ns mode (restart st) = (ESP_OK, h, st') /\
    find (handle_ h) key st' =
      match on_medium st ns key with
      | Some it => inr it
      | None => inl ESP_ERR_NVS_NOT_FOUND
      end.
Proof.
  intros Hm.
  destruct (Open_existing self ns mode (restart st) m Hm)
    as (h & st' & HO & _ & _ & _ & _ & _ & Hfind).
  exists h, st'. split; [exact HO |]. rewrite Hfind.
  unfold on_medium. now rewrite Hm.
Qed.



(** X24.  The delete routes.  A request that names a stored key is answered
    "Key Deleted" after exactly three calls into the library -- open,
    erase, close, and no commit -- and the next request that opens the
    namespace does not find the key. *)
Lemma DoConfigDeleteKey_then_get req q ns key st m :
  Httpd.url_query req = Some q ->
  (Httpd.query_strlen q < 1024)%nat ->
  Httpd.assoc "namespace" q = Some ns -> (String.length ns < 32)%nat ->
  Httpd.assoc "key" q = Some key -> (String.length key < 32)%nat ->
  view st !! ns = Some m -> is_Some (m !! key) ->
  exists st',
    ConfigWebServices.DoConfigDeleteKey req st
      = (ESP_OK, Httpd.Reply "Key Deleted", st') /\
    (let h := (next_handle st + 1)%N in
     calls st' = calls st ++
       [nvs_open_call ns NVS_READWRITE; nvs_erase_key_call h key;
        nvs_close_call h]) /\
    forallb (fun c => negb (is_commit c))
      (drop (List.length (calls st)) (calls st')) = true /\
    forall mode, exists h2 st2,
      Open NvsHandle.new ns mode st' = (ESP_OK, h2, st2) /\
      FindKey h2 key st2 = (ESP_ERR_NVS_NOT_FOUND, None).
Proof.
  intros Hq Hlen Hns Hnslen Hkey Hkeylen Hv [it Hit].
  unfold ConfigWebServices.DoConfigDeleteKey, Httpd.httpd_req_get_url_query_str.
  rewrite Hq. apply Nat.ltb_lt in Hlen. rewrite Hlen.
  unfold ConfigWebServices.GetNameSpace, ConfigWebServices.GetKey,
    Httpd.httpd_query_key_value.
  rewrite Hns, Hkey.
  apply Nat.ltb_lt in Hnslen, Hkeylen. rewrite Hnslen, Hkeylen.
  destruct (Open_existing NvsHandle.new ns NVS_READWRITE st m Hv)
    as (h & so & HO & Hh0 & Hhs & Hvo & Hso & Hco & _).
  assert (Hh : handle_ h = (next_handle st + 1)%N).
  { unfold Open, nvs_open in HO. cbn [view called next_handle] in HO.
    rewrite Hv in HO. now injection HO as <- _. }
  rewrite HO. change (negb (ESP_OK =? ESP_OK)) with false. cbn iota.
  assert (Hrw : handles so !! handle_ h = Some (ns, NVS_READWRITE))
    by (rewrite Hhs; apply lookup_insert_eq).
  assert (Hitems : items so ns = m) by (unfold items; now rewrite Hvo, Hv).
  unfold EraseKey.
  destruct (nvs_erase_key_state (handle_ h) key so ns Hrw) as [[Hn _] | [_ ->]];
    [rewrite Hitems, Hit in Hn; discriminate |].
  change (negb (ESP_OK =? ESP_OK)) with false. cbn iota.
  eexists. split; [reflexivity |].
  unfold destroy, Close. apply N.eqb_neq in Hh0. rewrite Hh0.
  cbn [calls nvs_close with_handles called with_view].
  assert (Hcalls :
    (calls so ++ [nvs_erase_key_call (handle_ h) key]) ++ [nvs_close_call (handle_ h)]
    = calls st ++ [nvs_open_call ns NVS_READWRITE;
                   nvs_erase_key_call (next_handle st + 1)%N key;
                   nvs_close_call (next_handle st + 1)%N]).
  { rewrite Hco, Hh, <- !app_assoc. reflexivity. }
  split; [exact Hcalls | split].
  - rewrite Hcalls, drop_app_length. reflexivity.
  - intros mode.
    edestruct (Open_existing NvsHandle.new ns mode) as
      (h2 & s2 & HO2 & _ & _ & _ & _ & _ & Hfind);
      [| exists h2, s2; split; [exact HO2 |]].
    + cbn [view nvs_close with_handles called with_view].
      apply lookup_insert_eq.
    + unfold FindKey, nvs_find_key. rewrite Hfind, Hitems.
      now rewrite lookup_delete_eq.
Qed.

Lemma DoConfigDeleteKey_then_get_witness :
  exists st',
    ConfigWebServices.DoConfigDeleteKey (Requests.query_only Requests.broker_query) Fixtures.configured
      = (ESP_OK, Httpd.Reply "Key Deleted", st') /\
    forall mode, exists h2 st2,
      Open NvsHandle.new "mqtt" mode st' = (ESP_OK, h2, st2) /\
      FindKey h2 "broker" st2 = (ESP_ERR_NVS_NOT_FOUND, None).
Proof.
  destruct (DoConfigDeleteKey_then_get (Requests.query_only Requests.broker_query)
              Requests.broker_query "mqtt" "broker" Fixtures.configured
              (default ∅ (view Fixtures.configured !! "mqtt"))
              eq_refl ltac:(cbn; lia) eq_refl ltac:(cbn; lia) eq_refl
              ltac:(cbn; lia) ltac:(vm_compute; reflexivity)
              ltac:(vm_compute; eauto))
    as (st' & Hd & _ & _ & Hget).
  exists st'. split; [exact Hd | exact Hget].
Defined.


(** X25.  A request to delete a namespace that exists is answered
    "Namespace Deleted" after exactly three calls into the library --
    open, erase all, close, and no commit -- and the next request that
    opens the namespace finds no key in it. *)
Lemma DoConfigDeleteNameSpace_then_get req q ns st m :
  Httpd.url_query req = Some q ->
  (Httpd.query_strlen q < 1024)%nat ->
  Httpd.assoc "namespace" q = Some ns -> (String.length ns < 32)%nat ->
  view st !! ns = Some m ->
  exists st',
    ConfigWebServices.DoConfigDeleteNameSpace req st
      = (ESP_OK, Httpd.Reply "Namespace Deleted", st') /\
    (let h := (next_handle st + 1)%N in
     calls st' = calls st ++
       [nvs_open_call ns NVS_READWRITE; nvs_erase_all_call h; nvs_close_call h]) /\
    forallb (fun c => negb (is_commit c))
      (drop (List.length (calls st)) (calls st')) = true /\
    forall mode key, exists h2 st2,
      Open NvsHandle.new ns mode st' = (ESP_OK, h2, st2) /\
      FindKey h2 key st2 = (ESP_ERR_NVS_NOT_FOUND, None).
Proof.
  intros Hq Hlen Hns Hnslen Hv.
  unfold ConfigWebServices.DoConfigDeleteNameSpace,
    Httpd.httpd_req_get_url_query_str.
  rewrite Hq. apply Nat.ltb_lt in Hlen. rewrite Hlen.
  unfold ConfigWebServices.GetNameSpace, Httpd.httpd_query_key_value.
  rewrite Hns. apply Nat.ltb_lt in Hnslen. rewrite Hnslen.
  destruct (Open_existing NvsHandle.new ns NVS_READWRITE st m Hv)
    as (h & so & HO & Hh0 & Hhs & Hvo & Hso & Hco & _).
  assert (Hh : handle_ h = (next_handle st + 1)%N).
  { unfold Open, nvs_open in HO. cbn [view called next_handle] in HO.
    rewrite Hv in HO. now injection HO as <- _. }
  rewrite HO. change (negb (ESP_OK =? ESP_OK)) with false. cbn iota.
  assert (Hrw : handles so !! handle_ h = Some (ns, NVS_READWRITE))
    by (rewrite Hhs; apply lookup_insert_eq).
  unfold EraseAll. rewrite (nvs_erase_all_state (handle_ h) so ns Hrw).
  change (negb (ESP_OK =? ESP_OK)) with false. cbn iota.
  eexists. split; [reflexivity |].
  unfold destroy, Close. apply N.eqb_neq in Hh0. rewrite Hh0.
  cbn [calls nvs_close with_handles called with_view].
  assert (Hcalls :
    (calls so ++ [nvs_erase_all_call (handle_ h)]) ++ [nvs_close_call (handle_ h)]
    = calls st ++ [nvs_open_call ns NVS_READWRITE;
                   nvs_erase_all_call (next_handle st + 1)%N;
                   nvs_close_call (next_handle st + 1)%N]).
  { rewrite Hco, Hh, <- !app_assoc. reflexivity. }
  split; [exact Hcalls | split].
  - rewrite Hcalls, drop_app_length. reflexivity.
  - intros mode key.
    edestruct (Open_existing NvsHandle.new ns mode) as
      (h2 & s2 & HO2 & _ & _ & _ & _ & _ & Hfind);
      [| exists h2, s2; split; [exact HO2 |]].
    + cbn [view nvs_close with_handles called with_view].
      apply lookup_insert_eq.
    + unfold FindKey, nvs_find_key. rewrite Hfind.
      now rewrite lookup_empty.
Qed.

Lemma DoConfigDeleteNameSpace_then_get_witness :
  exists st',
    ConfigWebServices.DoConfigDeleteNameSpace (Requests.query_only Requests.broker_query) Fixtures.configured
      = (ESP_OK, Httpd.Reply "Namespace Deleted", st') /\
    forall mode key, exists h2 st2,
      Open NvsHandle.new "mqtt" mode st' = (ESP_OK, h2, st2) /\
      FindKey h2 key st2 = (ESP_ERR_NVS_NOT_FOUND, None).
Proof.
  destruct (DoConfigDeleteNameSpace_then_get (Requests.query_only Requests.broker_query)
              Requests.broker_query "mqtt" Fixtures.configured
              (default ∅ (view Fixtures.configured !! "mqtt"))
              eq_refl ltac:(cbn; lia) eq_refl ltac:(cbn; lia)
              ltac:(vm_compute; reflexivity))
    as (st' & Hd & _ & _ & Hget).
  exists st'. split; [exact Hd | exact Hget].
Defined.


(** Over a power cycle: what was committed is read back, what was only
    set is gone. *)
Example set_commit_restart_get :
  let '(_, h, st) :=
    Open NvsHandle.new "mqtt" NVS_READONLY (restart Fixtures.configured) in
  GetEntry h "broker" st = inr (NVS_TYPE_STR, VStr "mqtt://192.168.86.30").
Proof. vm_compute. reflexivity. Qed.

Example set_restart_get :
  let st := snd (SetString Fixtures.h1 "broker" "mqtt://10.0.0.5" Fixtures.st1) in
  FindKey Fixtures.h1 "broker" st = (ESP_OK, Some NVS_TYPE_STR) /\
  fst (fst (Open NvsHandle.new "mqtt" NVS_READONLY (restart st)))
    = ESP_ERR_NVS_NOT_FOUND.
Proof. split; vm_compute; reflexivity. Qed.

(** The set route.  A request that sets a string in a namespace that
    exists is answered "Configuration set" after open, set, commit and
    close, and the value is on the medium. *)
Lemma DoConfigSetKey_string_commits decode req q json ns key v st m :
  Httpd.url_query req = Some q ->
  (Httpd.query_strlen q < 4096)%nat ->
  Httpd.assoc "namespace" q = Some ns -> (String.length ns < 32)%nat ->
  Httpd.assoc "key" q = Some key -> (String.length key < 32)%nat ->
  0 <= Httpd.received req -> Httpd.received req = Httpd.content_len req ->
  Httpd.body req = Some json ->
  Httpd.cJSON_GetObjectItemCaseSensitive json "type"
    = Some (Httpd.cJSON_String "string") ->
  Httpd.cJSON_GetObjectItemCaseSensitive json "value"
    = Some (Httpd.cJSON_String v) ->
  view st !! ns = Some m ->
  refuse st ns key (ItemStr v) = None ->
  exists st',
    ConfigWebServices.DoConfigSetKey decode req st
      = Some (ESP_OK, Httpd.Reply ConfigWebServices.configuration_set, st') /\
    (let h := (next_handle st + 1)%N in
     calls st' = calls st ++
       [nvs_open_call ns NVS_READWRITE; nvs_set_call h key (ItemStr v);
        nvs_commit_call h; nvs_close_call h]) /\
    on_medium st' ns key = Some (ItemStr v).
Proof.
  intros Hq Hlen Hns Hnslen Hkey Hkeylen Hrecv Hclen Hbody Hty Hval Hv Hadm.
  unfold ConfigWebServices.DoConfigSetKey, Httpd.httpd_req_get_url_query_str.
  rewrite Hq. apply Nat.ltb_lt in Hlen. rewrite Hlen.
  unfold ConfigWebServices.GetNameSpace, ConfigWebServices.GetKey,
    Httpd.httpd_query_key_value.
  rewrite Hns, Hkey.
  apply Nat.ltb_lt in Hnslen, Hkeylen. rewrite Hnslen, Hkeylen.
  unfold Httpd.Receive.
  replace (Httpd.received req <? 0) with false by (symmetry; apply Z.ltb_ge; lia).
  rewrite Hclen, Z.eqb_refl, Hbody, Hty, Hval. cbn [negb].
  change (TypeOf "string") with (ESP_OK, NVS_TYPE_STR).
  change (negb (ESP_OK =? ESP_OK)) with false. cbn iota.
  destruct (Open_existing NvsHandle.new ns NVS_READWRITE st m Hv)
    as (h & so & HO & Hh0 & Hhs & Hvo & Hso & Hco & _).
  assert (Hh : handle_ h = (next_handle st + 1)%N).
  { unfold Open, nvs_open in HO. cbn [view called next_handle] in HO.
    rewrite Hv in HO. now injection HO as <- _. }
  rewrite HO. change (negb (ESP_OK =? ESP_OK)) with false. cbn iota.
  assert (Hrw : handles so !! handle_ h = Some (ns, NVS_READWRITE))
    by (rewrite Hhs; apply lookup_insert_eq).
  assert (Hadm' : refuse so ns key (ItemStr v) = None).
  { unfold Open, nvs_open in HO. cbn [view called next_handle] in HO.
    rewrite Hv in HO. injection HO as _ <-. exact Hadm. }
  unfold SetString. rewrite (nvs_set_ok _ _ _ _ ns Hrw Hadm').
  change (negb (ESP_OK =? ESP_OK)) with false. cbn iota.
  unfold ConfigWebServices.commit_and_reply, Commit.
  erewrite nvs_commit_ok by exact Hrw.
  change (negb (ESP_OK =? ESP_OK)) with false. cbn iota.
  eexists. split; [reflexivity |].
  unfold destroy, Close. apply N.eqb_neq in Hh0. rewrite Hh0.
  split.
  - cbn [calls nvs_close with_handles called with_view with_stored].
    rewrite Hco, Hh, <- !app_assoc. reflexivity.
  - unfold on_medium.
    cbn [stored nvs_close with_handles called with_view with_stored].
    rewrite lookup_insert_eq.
    erewrite items_with_view by apply lookup_insert_eq.
    apply lookup_insert_eq.
Qed.

(** Through the set route a number reaches [SetInt] as the [int] cJSON
    made of it: a [uint32] above [INT_MAX] is stored as [INT_MAX]. *)
Example DoConfigSetKey_uint32_saturates :
  let req :=
    {| Httpd.url_query := Some [("namespace", "mqtt"); ("key", "count")]%string;
       Httpd.content_len := 40; Httpd.received := 40;
       Httpd.body :=
         Some (Httpd.cJSON_Object
                 [("type"%string, Httpd.cJSON_String "uint32");
                  ("value"%string, Httpd.cJSON_Number (Double.of_Z 4000000000))])
    |} in
  exists st',
    ConfigWebServices.DoConfigSetKey (fun _ => None) req Fixtures.configured
      = Some (ESP_OK, Httpd.Reply ConfigWebServices.configuration_set, st') /\
    on_medium st' "mqtt" "count" = Some (ItemInt NVS_TYPE_U32 2147483647).
Proof. eexists. split; vm_compute; reflexivity. Qed.

End EraseFacts.

(** ** Provisioning: the retry ceiling *)
Module ProvisionerFacts.
Import Provisioner.

Lemma count_reset_app t1 t2 :
  count_reset (t1 ++ t2) = count_reset t1 + count_reset t2.
Proof.
  unfold count_reset. rewrite List.filter_app, List.length_app. lia.
Qed.

Lemma run_cons ev evs w : run (ev :: evs) w = run evs (deliver ev w).
Proof. reflexivity. Qed.

(** One failure below the ceiling: the counter goes up, nothing else. *)
Lemma deliver_fail_below self mgr trace data :
  retries_ self + 1 < kMaxRetriesCount ->
  deliver (WIFI_PROV_EVENT WIFI_PROV_CRED_FAIL data) (self, mgr, trace) =
    ({| led_ := led_ self; service_name_ := service_name_ self;
        retries_ := retries_ self + 1 |},
     {| prov_state := WIFI_PROV_STATE_FAIL; wifi_cfg := wifi_cfg mgr |},
     trace ++ []).
Proof.
  intros H. unfold deliver, EventHandler.
  replace (kMaxRetriesCount <=? retries_ self + 1) with false
    by (symmetry; apply Z.leb_gt; exact H).
  destruct data; reflexivity.
Qed.

(** One failure that reaches the ceiling: the manager is reset, the
    counter restarts. *)
Lemma deliver_fail_ceiling self mgr trace data :
  kMaxRetriesCount <= retries_ self + 1 ->
  deliver (WIFI_PROV_EVENT WIFI_PROV_CRED_FAIL data) (self, mgr, trace) =
    ({| led_ := led_ self; service_name_ := service_name_ self; retries_ := 0 |},
     {| prov_state := WIFI_PROV_STATE_STARTED; wifi_cfg := None |},
     trace ++ [wifi_prov_mgr_reset_sm_state_on_failure_call]).
Proof.
  intros H. unfold deliver, EventHandler.
  replace (kMaxRetriesCount <=? retries_ self + 1) with true
    by (symmetry; apply Z.leb_le; exact H).
  destruct data; reflexivity.
Qed.

(** Any other event but a success leaves the counter alone and resets
    nothing. *)
Lemma deliver_other ev self mgr trace :
  is_cred_fail ev = false -> is_cred_success ev = false ->
  exists mgr' out,
    deliver ev (self, mgr, trace) = (self, mgr', trace ++ out) /\
    count_reset out = 0.
Proof.
  intros Hf Hs. unfold deliver.
  destruct ev as [id d | id | id | id | id |]; try destruct id;
    try discriminate;
    cbn [EventHandler posted]; try (eexists _, _; split; reflexivity).
  destruct (led_ self); eexists _, _; split; reflexivity.
Qed.

Lemma deliver_success self mgr trace data :
  deliver (WIFI_PROV_EVENT WIFI_PROV_CRED_SUCCESS data) (self, mgr, trace) =
    ({| led_ := led_ self; service_name_ := service_name_ self; retries_ := 0 |},
     {| prov_state := WIFI_PROV_STATE_SUCCESS; wifi_cfg := wifi_cfg mgr |},
     trace ++ []).
Proof. destruct data; reflexivity. Qed.

(** X26.  The counter and the number of resets over any run without a success:
    the counter counts failures modulo the ceiling, one reset per
    [kMaxRetriesCount] failures. *)
Lemma run_counts evs : forall self mgr trace,
  0 <= retries_ self < kMaxRetriesCount ->
  forallb (fun ev => negb (is_cred_success ev)) evs = true ->
  retries_ (fst (fst (run evs (self, mgr, trace))))
    = (retries_ self + count_fail evs) mod kMaxRetriesCount /\
  count_reset (snd (run evs (self, mgr, trace)))
    = count_reset trace + (retries_ self + count_fail evs) / kMaxRetriesCount.
Proof.
  unfold kMaxRetriesCount.
  induction evs as [| ev evs IH]; intros self mgr trace Hr Hns.
  - cbn. unfold count_fail. cbn. rewrite Z.add_0_r.
    rewrite Z.mod_small, Z.div_small by lia. lia.
  - cbn [forallb] in Hns. apply andb_prop in Hns as [Hev Hns].
    apply negb_true_iff in Hev.
    rewrite run_cons.
    unfold count_fail. cbn [List.filter].
    destruct (is_cred_fail ev) eqn:Hf.
    + destruct ev as [id d | | | | |]; try discriminate Hf.
      destruct id; try discriminate Hf.
      cbn [List.length]. rewrite Nat2Z.inj_succ. fold (count_fail evs).
      destruct (Z.lt_ge_cases (retries_ self + 1) 5) as [Hlt | Hge].
      * rewrite deliver_fail_below by exact Hlt.
        destruct (IH {| led_ := led_ self; service_name_ := service_name_ self;
                         retries_ := retries_ self + 1 |}
                     {| prov_state := WIFI_PROV_STATE_FAIL;
                        wifi_cfg := wifi_cfg mgr |}
                     (trace ++ [])) as [IH1 IH2];
          [cbn [retries_]; lia | exact Hns |].
        cbn [retries_] in IH1, IH2. rewrite IH1, IH2.
        rewrite count_reset_app. change (count_reset []) with 0.
        replace (retries_ self + Z.succ (count_fail evs))
          with (retries_ self + 1 + count_fail evs) by lia.
        split; [reflexivity | lia].
      * rewrite deliver_fail_ceiling by exact Hge.
        destruct (IH {| led_ := led_ self; service_name_ := service_name_ self;
                         retries_ := 0 |}
                     {| prov_state := WIFI_PROV_STATE_STARTED; wifi_cfg := None |}
                     (trace ++ [wifi_prov_mgr_reset_sm_state_on_failure_call]))
          as [IH1 IH2]; [cbn [retries_]; lia | exact Hns |].
        cbn [retries_] in IH1, IH2. rewrite IH1, IH2.
        rewrite count_reset_app.
        change (count_reset [wifi_prov_mgr_reset_sm_state_on_failure_call]) with 1.
        replace (retries_ self + Z.succ (count_fail evs))
          with (0 + count_fail evs + 1 * 5) by lia.
        rewrite Z.mod_add, Z.div_add by lia.
        split; [reflexivity | lia].
    + destruct (deliver_other ev self mgr trace Hf Hev) as (mgr1 & out & -> & Hout).
      destruct (IH self mgr1 (trace ++ out)) as [IH1 IH2]; [lia | exact Hns |].
      rewrite IH1, IH2, count_reset_app, Hout.
      fold (count_fail evs). split; [reflexivity | lia].
Qed.

Lemma run_counts_witness :
  let self := {| led_ := false; service_name_ := "PROV_A1B2C3"; retries_ := 3 |} in
  let mgr := {| prov_state := WIFI_PROV_STATE_CRED_RECV;
                wifi_cfg := Some ("home"%string, "secret"%string) |} in
  let evs :=
    repeat (cred_fail WIFI_PROV_STA_AUTH_ERROR) 8 ++
    [WIFI_EVENT WIFI_EVENT_STA_DISCONNECTED] in
  retries_ (fst (fst (run evs (self, mgr, [])))) = 1 /\
  count_reset (snd (run evs (self, mgr, []))) = 2.
Proof.
  exact (run_counts
           (repeat (cred_fail WIFI_PROV_STA_AUTH_ERROR) 8 ++
            [WIFI_EVENT WIFI_EVENT_STA_DISCONNECTED])
           {| led_ := false; service_name_ := "PROV_A1B2C3"; retries_ := 3 |}
           {| prov_state := WIFI_PROV_STATE_CRED_RECV;
              wifi_cfg := Some ("home"%string, "secret"%string) |}
           [] ltac:(cbn; unfold kMaxRetriesCount; lia) eq_refl).
Defined.


(** The counter never leaves [0 .. kMaxRetriesCount - 1], whatever the
    events: [retries_++] cannot overflow. *)
Lemma retries_bounded evs : forall self mgr trace,
  0 <= retries_ self < kMaxRetriesCount ->
  0 <= retries_ (fst (fst (run evs (self, mgr, trace)))) < kMaxRetriesCount.
Proof.
  unfold kMaxRetriesCount.
  induction evs as [| ev evs IH]; intros self mgr trace Hr; [exact Hr |].
  rewrite run_cons.
  destruct (is_cred_fail ev) eqn:Hf; [| destruct (is_cred_success ev) eqn:Hs].
  - destruct ev as [id d | | | | |]; try discriminate Hf.
    destruct id; try discriminate Hf.
    destruct (Z.lt_ge_cases (retries_ self + 1) 5) as [Hlt | Hge].
    + rewrite deliver_fail_below by exact Hlt. apply IH. cbn. lia.
    + rewrite deliver_fail_ceiling by exact Hge. apply IH. cbn. lia.
  - destruct ev as [id d | | | | |]; try discriminate Hs.
    destruct id; try discriminate Hs.
    rewrite deliver_success. apply IH. cbn. lia.
  - destruct (deliver_other ev self mgr trace Hf Hs) as (mgr1 & out & -> & _).
    now apply IH.
Qed.

Ltac step_fail :=
  rewrite run_cons; unfold cred_fail;
  first [ rewrite deliver_fail_below by (unfold kMaxRetriesCount; cbn; lia)
        | rewrite deliver_fail_ceiling by (unfold kMaxRetriesCount; cbn; lia) ];
  cbn [retries_ led_ service_name_ wifi_cfg].

(** C3.  From a counter at zero (as [Provision] leaves it, and as every
    success and every reset leaves it): each of the first four
    credential failures in a row adds one to [retries_] and resets
    nothing; the fifth calls [wifi_prov_mgr_reset_sm_state_on_failure],
    which clears the stored station configuration and puts the manager
    back to waiting for credentials, and leaves [retries_] at zero.  A
    credential success sets [retries_] to zero from any state. *)
Theorem retry_ceiling self mgr trace (r1 r2 r3 r4 r5 : wifi_prov_sta_fail_reason_t) :
  retries_ self = 0 ->
  (forall n, (n < 5)%nat ->
     let w := run (firstn n (map cred_fail [r1; r2; r3; r4; r5])) (self, mgr, trace) in
     retries_ (fst (fst w)) = Z.of_nat n /\
     wifi_cfg (snd (fst w)) = wifi_cfg mgr /\
     snd w = trace) /\
  (let w := run (map cred_fail [r1; r2; r3; r4; r5]) (self, mgr, trace) in
   retries_ (fst (fst w)) = 0 /\
   prov_state (snd (fst w)) = WIFI_PROV_STATE_STARTED /\
   wifi_cfg (snd (fst w)) = None /\
   snd w = trace ++ [wifi_prov_mgr_reset_sm_state_on_failure_call]) /\
  (forall w data,
     retries_ (fst (fst (deliver (WIFI_PROV_EVENT WIFI_PROV_CRED_SUCCESS data) w)))
       = 0).
Proof.
  intros Hr. destruct self as [led name r]. cbn in Hr. subst r.
  split; [| split].
  - intros n Hn.
    do 5 (destruct n as [| n];
          [cbn [map firstn]; repeat step_fail;
           cbn [run fold_left fst snd retries_ wifi_cfg];
           rewrite ?app_nil_r; repeat split; reflexivity |]).
    lia.
  - cbn [map]. repeat step_fail.
    cbn [run fold_left fst snd retries_ wifi_cfg prov_state].
    rewrite ?app_nil_r. repeat split; reflexivity.
  - intros [[s m] t] data. now rewrite deliver_success.
Qed.

Lemma retry_ceiling_witness :
  let self := {| led_ := true; service_name_ := "PROV_A1B2C3"; retries_ := 0 |} in
  let mgr := {| prov_state := WIFI_PROV_STATE_CRED_RECV;
                wifi_cfg := Some ("home"%string, "secret"%string) |} in
  let w := run (map cred_fail
                  [WIFI_PROV_STA_AUTH_ERROR; WIFI_PROV_STA_AUTH_ERROR;
                   WIFI_PROV_STA_AP_NOT_FOUND; WIFI_PROV_STA_AUTH_ERROR;
                   WIFI_PROV_STA_AUTH_ERROR]) (self, mgr, []) in
  retries_ (fst (fst w)) = 0 /\
  prov_state (snd (fst w)) = WIFI_PROV_STATE_STARTED /\
  wifi_cfg (snd (fst w)) = None /\
  snd w = [] ++ [wifi_prov_mgr_reset_sm_state_on_failure_call].
Proof.
  exact (proj1 (proj2
    (retry_ceiling
       {| led_ := true; service_name_ := "PROV_A1B2C3"; retries_ := 0 |}
       {| prov_state := WIFI_PROV_STATE_CRED_RECV;
          wifi_cfg := Some ("home"%string, "secret"%string) |}
       []
       WIFI_PROV_STA_AUTH_ERROR WIFI_PROV_STA_AUTH_ERROR
       WIFI_PROV_STA_AP_NOT_FOUND WIFI_PROV_STA_AUTH_ERROR
       WIFI_PROV_STA_AUTH_ERROR eq_refl))).
Defined.

End ProvisionerFacts.

(** ** The MQTT client: publish, subscription replay, the session guard *)
Module MQTTFacts.
Import MQTT.

(** *** Publish *)

(** C2, as amended.  [Publish] does not look at [connected_]: connected
    or not, it makes exactly one [esp_mqtt_client_publish] call with its
    own arguments and returns what the transport answers. *)
Theorem Publish_forwards self tr t data len q retain (b : bool) :
  Publish (set_connected b self) tr t data len q retain
    = Publish self tr t data len q retain /\
  Publish self tr t data len q retain
    = (esp_mqtt_client_publish tr (client_ self) t data len q retain,
       [publish_call (client_ self) t data len q retain
          (esp_mqtt_client_publish tr (client_ self) t data len q retain)]).
Proof. split; reflexivity. Qed.

(** C2 as stated fails: a client that is not connected still calls the
    transport, and what it returns is the transport's answer. *)
Lemma Publish_disconnected_counterexample :
  ~ (forall self tr t data len q retain,
       connected_ self = false ->
       snd (Publish self tr t data len q retain) = []).
Proof.
  intros H.
  specialize
    (H MQTT.new Fixtures.offline "esp/ping"%string "Hello MQTT"%string 0 1 0
       eq_refl).
  discriminate H.
Qed.

Example Publish_disconnected_trace :
  connected_ MQTT.new = false /\
  App.PublishMessage {| App.mqtt_ := MQTT.new; App.updater_ := Updater.new |}
    Fixtures.offline "ping" "Hello MQTT" true 1 0
  = (-1, [publish_call None "esp/ping" "Hello MQTT" 0 1 0 (-1)]).
Proof. split; reflexivity. Qed.

(** *** What the handler keeps *)

Lemma EventHandler_keeps self tr event :
  let self' := fst (EventHandler self tr event) in
  subscriptions_ self' = subscriptions_ self /\
  fatal_error_ self' = fatal_error_ self /\
  client_ self' = client_ self /\
  led_ self' = led_ self /\
  topic_base_ self' = topic_base_ self.
Proof.
  unfold EventHandler. destruct (event_id event); cbn; repeat split.
Qed.

Lemma dispatch_cons tr event events w :
  dispatch tr (event :: events) w =
    dispatch tr events
      (fst (EventHandlerForwarder (fst w) tr event),
       snd w ++ snd (EventHandlerForwarder (fst w) tr event)).
Proof.
  unfold dispatch. cbn [fold_left].
  now destruct (EventHandlerForwarder (fst w) tr event).
Qed.

(** While the guard is down, the instance stays registered with the
    subscriptions it had, and the guard stays down: no event sets it. *)
Lemma dispatch_keeps tr events : forall self out,
  fatal_error_ self = false ->
  exists self' out',
    dispatch tr events (Some self, out) = (Some self', out') /\
    subscriptions_ self' = subscriptions_ self /\
    fatal_error_ self' = false.
Proof.
  induction events as [| event events IH]; intros self out Hf.
  - exists self, out. repeat split; assumption.
  - rewrite dispatch_cons. cbn [fst snd EventHandlerForwarder]. rewrite Hf.
    destruct (EventHandler_keeps self tr event) as (Hs & Hfe & _).
    destruct (EventHandler self tr event) as [self1 out1]. cbn [fst snd] in *.
    destruct (IH self1 (out ++ out1)) as (self' & out' & Hd & Hs' & Hf');
      [congruence |].
    exists self', out'. repeat split; congruence.
Qed.

(** *** Subscription replay *)

Lemma register_from subs : forall self,
  let self' :=
    fold_left (fun self s => AddSubscription self (fst s) (snd s)) subs self in
  subscriptions_ self' =
    subscriptions_ self ++ map (fun s => {| topic := fst s; qos := snd s |}) subs /\
  fatal_error_ self' = fatal_error_ self.
Proof.
  induction subs as [| s subs IH]; intros self; cbn [fold_left map].
  - now rewrite app_nil_r.
  - destruct (IH (AddSubscription self (fst s) (snd s))) as [IH1 IH2].
    cbn zeta in IH1, IH2. rewrite IH1, IH2. cbn [AddSubscription subscriptions_
      fatal_error_]. now rewrite <- app_assoc.
Qed.

Lemma register_subscriptions subs :
  subscriptions_ (register subs) =
    map (fun s => {| topic := fst s; qos := snd s |}) subs /\
  fatal_error_ (register subs) = false.
Proof. exact (register_from subs MQTT.new). Qed.

Lemma subscribe_all_subscribed tr c subs :
  omap subscribed
    (subscribe_all tr c (map (fun s => {| topic := fst s; qos := snd s |}) subs))
  = subs.
Proof.
  unfold subscribe_all.
  induction subs as [| [t q] subs IH]; [reflexivity |].
  cbn [map]. cbn [omap list_omap subscribed fst snd topic qos].
  f_equal. exact IH.
Qed.

(** C7.  Subscriptions registered with [AddSubscription] on a fresh
    client, in any number; then any events of the session; then an
    [MQTT_EVENT_CONNECTED]: the handler makes one subscribe call per
    registered subscription, on the client of the event, in the order of
    registration, and nothing else.  This holds for every transport: the
    answer of a subscribe call, failure included, changes nothing to the
    calls that follow. *)
Theorem subscriptions_replayed (subs : list (string * Z)) tr earlier event :
  event_id event = MQTT_EVENT_CONNECTED ->
  let session := dispatch tr earlier (Some (register subs), []) in
  let out := snd (EventHandlerForwarder (fst session) tr event) in
  out =
    EventHandler_call MQTT_EVENT_CONNECTED ::
    map (fun s =>
           subscribe_call (client event) (fst s) (snd s)
             (esp_mqtt_client_subscribe tr (client event) (fst s) (snd s)))
        subs /\
  omap subscribed out = subs.
Proof.
  intros Hid. cbn zeta.
  destruct (register_subscriptions subs) as [Hsubs Hf].
  destruct (dispatch_keeps tr earlier (register subs) [] Hf)
    as (self' & out' & -> & Hs' & Hf').
  cbn [fst EventHandlerForwarder]. rewrite Hf'.
  unfold EventHandler. rewrite Hid. cbn [fst snd].
  rewrite Hs', Hsubs. split.
  - f_equal. unfold subscribe_all. rewrite map_map. reflexivity.
  - cbn [omap subscribed]. apply subscribe_all_subscribed.
Qed.

Lemma subscriptions_replayed_witness :
  let event := Fixtures.an_event MQTT_EVENT_CONNECTED in
  let session :=
    dispatch Fixtures.offline
      [Fixtures.an_event MQTT_EVENT_CONNECTED;
       Fixtures.an_event MQTT_EVENT_DISCONNECTED]
      (Some (register [("a"%string, 1); ("b"%string, 2)]), []) in
  omap subscribed
    (snd (EventHandlerForwarder (fst session) Fixtures.offline event))
    = [("a"%string, 1); ("b"%string, 2)].
Proof.
  exact (proj2
    (subscriptions_replayed [("a"%string, 1); ("b"%string, 2)] Fixtures.offline
       [Fixtures.an_event MQTT_EVENT_CONNECTED;
        Fixtures.an_event MQTT_EVENT_DISCONNECTED]
       (Fixtures.an_event MQTT_EVENT_CONNECTED) eq_refl)).
Defined.

(** *** The session guard *)

(** What the guard does for a client whose owner has set it: with
    [fatal_error_] set, the forwarder hands no event to [EventHandler];
    whatever events arrive, and however many, the instance is left as it
    is and no call is made -- neither the entry into the handler nor any
    call of the transport or the LED.  The same holds when no instance
    is registered.  Nothing in the sources sets the flag. *)
Theorem poisoned_session_is_silent self tr events out :
  fatal_error_ self = true ->
  dispatch tr events (Some self, out) = (Some self, out) /\
  dispatch tr events (None, out) = (None, out) /\
  forall event,
    EventHandlerForwarder (Some self) tr event = (Some self, []) /\
    List.filter is_entered (snd (EventHandlerForwarder (Some self) tr event)) = [].
Proof.
  intros Hf. split; [| split].
  - revert out. induction events as [| event events IH]; intros out;
      [reflexivity |].
    rewrite dispatch_cons. cbn [fst snd EventHandlerForwarder]. rewrite Hf.
    cbn [fst snd]. rewrite app_nil_r. apply IH.
  - revert out. induction events as [| event events IH]; intros out;
      [reflexivity |].
    rewrite dispatch_cons. cbn [fst snd EventHandlerForwarder].
    rewrite app_nil_r. apply IH.
  - intros event. cbn [EventHandlerForwarder]. rewrite Hf. split; reflexivity.
Qed.

Lemma poisoned_session_is_silent_witness :
  let self :=
    {| topic_base_ := "esp/"; fatal_error_ := true; connected_ := true;
       led_ := true; client_ := Some 1%N;
       subscriptions_ := [{| topic := "esp/test/#"; qos := 1 |}] |} in
  dispatch Fixtures.offline
    [Fixtures.an_event MQTT_EVENT_ERROR;
     Fixtures.an_event MQTT_EVENT_DISCONNECTED;
     Fixtures.an_event MQTT_EVENT_CONNECTED;
     Fixtures.an_event MQTT_EVENT_DATA]
    (Some self, [])
  = (Some self, []).
Proof.
  exact (proj1
    (poisoned_session_is_silent
       {| topic_base_ := "esp/"; fatal_error_ := true; connected_ := true;
          led_ := true; client_ := Some 1%N;
          subscriptions_ := [{| topic := "esp/test/#"; qos := 1 |}] |}
       Fixtures.offline
       [Fixtures.an_event MQTT_EVENT_ERROR;
        Fixtures.an_event MQTT_EVENT_DISCONNECTED;
        Fixtures.an_event MQTT_EVENT_CONNECTED;
        Fixtures.an_event MQTT_EVENT_DATA]
       [] eq_refl)).
Defined.

(** The handler itself never sets the guard: from a client whose guard is
    down, no sequence of events, errors included, raises it.  Setting
    [fatal_error_] is left to the owner of the (public) flag. *)
Lemma guard_not_set_by_events tr events self out :
  fatal_error_ self = false ->
  exists self' out',
    dispatch tr events (Some self, out) = (Some self', out') /\
    fatal_error_ self' = false.
Proof.
  intros Hf.
  destruct (dispatch_keeps tr events self out Hf) as (self' & out' & Hd & _ & Hf').
  now exists self', out'.
Qed.



(** *** Init *)

(** A read into a buffer either succeeds and fills the buffer, or fails
    and leaves it. *)
Lemma GetString_cases handle key len st :
  let '(err, out, _) := NvsHandle.GetString handle key true len st in
  ((err =? ESP_OK) = true /\ is_Some out) \/
  ((err =? ESP_OK) = false /\ out = None).
Proof.
  unfold NvsHandle.GetString, Nvs.nvs_get_str, Nvs.find.
  destruct (Nvs.handles st !! NvsHandle.handle_ handle) as [[ns mode] |];
    [| right; split; reflexivity].
  destruct (Nvs.items st ns !! key) as [[ty v | s | b] |];
    try (right; split; reflexivity).
  cbn [negb]. destruct (len <? S (String.length s))%nat;
    [right; split; reflexivity | left; split; [reflexivity | eauto]].
Qed.

(** C10, as amended.  [Init] fails exactly when "broker" or "topic-base"
    cannot be read from namespace "mqtt", or the transport client cannot
    be initialised, or the registration of the event handler is refused.
    "username" and "password" are optional: a read that fails counts as
    an empty string, and the configuration handed to the transport
    carries credentials exactly when both strings are non-empty. *)
Theorem Init_fails_iff self will tr st :
  let result := Init self will tr st in
  let err := fst (fst (fst result)) in
  let cfg := config_of st will in
  (err <> ESP_OK <->
     read64 st "broker" = None \/ read64 st "topic-base" = None \/
     esp_mqtt_client_init tr cfg = None \/
     esp_mqtt_client_register_event tr (esp_mqtt_client_init tr cfg) <> ESP_OK) /\
  (is_Some (read64 st "broker") -> is_Some (read64 st "topic-base") ->
     head (snd result) = Some (init_call cfg (esp_mqtt_client_init tr cfg))) /\
  ((is_Some (username cfg) <-> is_Some (password cfg)) /\
   (is_Some (username cfg) <->
      exists u p,
        read64 st "username" = Some u /\ read64 st "password" = Some p /\
        u <> ""%string /\ p <> ""%string)).
Proof.
  cbn zeta. unfold Init, config_of, read64.
  destruct (NvsHandle.Open NvsHandle.new "mqtt" Nvs.NVS_READONLY st)
    as [[eo handle] s1].
  pose proof (GetString_cases handle "broker" 64 s1) as Hb.
  pose proof (GetString_cases handle "username" 64 s1) as Hu.
  pose proof (GetString_cases handle "password" 64 s1) as Hp.
  pose proof (GetString_cases handle "topic-base" 64 s1) as Ht.
  destruct (NvsHandle.GetString handle "broker" true 64 s1) as [[eb ob] lb].
  destruct (NvsHandle.GetString handle "username" true 64 s1) as [[eu ou] lu].
  destruct (NvsHandle.GetString handle "password" true 64 s1) as [[ep op] lp].
  destruct (NvsHandle.GetString handle "topic-base" true 64 s1) as [[et ot] lt].
  assert (Hou : (if eu =? ESP_OK then ou else None) = ou)
    by (destruct Hu as [[-> _] | [-> ->]]; reflexivity).
  assert (Hop : (if ep =? ESP_OK then op else None) = op)
    by (destruct Hp as [[-> _] | [-> ->]]; reflexivity).
  rewrite Hou, Hop.
  split; [| split].
  - destruct Hb as [[-> [b ->]] | [-> ->]]; cbn [negb];
      [| split; [intros _; now left | intros _; discriminate]].
    destruct Ht as [[-> [t ->]] | [-> ->]]; cbn [negb];
      [| split; [intros _; right; now left | intros _; discriminate]].
    cbn [default].
    match goal with
    | |- context [esp_mqtt_client_init tr ?c] => set (cfg := c)
    end.
    destruct (esp_mqtt_client_init tr cfg) as [c |] eqn:Hc; cbn [fst];
      [| split; [intros _; right; right; now left | intros _; discriminate]].
    destruct (esp_mqtt_client_register_event tr (Some c) =? ESP_OK) eqn:Hr;
      cbn [negb fst].
    + apply Z.eqb_eq in Hr. split; [intros H; now contradiction H |].
      intros [H | [H | [H | H]]]; try discriminate H. now contradiction H.
    + apply Z.eqb_neq in Hr. split; [intros _; right; right; now right |].
      intros _. exact Hr.
  - intros [b Hbs] [t Hts].
    destruct Hb as [[Heb [b' ->]] | [Heb ->]]; rewrite Heb in *;
      [| discriminate Hbs].
    destruct Ht as [[Het [t' ->]] | [Het ->]]; rewrite Het in *;
      [| discriminate Hts].
    cbn [negb default].
    match goal with
    | |- context [esp_mqtt_client_init tr ?c] => set (cfg := c)
    end.
    destruct (esp_mqtt_client_init tr cfg) as [c |]; [| reflexivity].
    now destruct (negb (esp_mqtt_client_register_event tr (Some c) =? ESP_OK)).
  - cbn [username password].
    destruct ((0 <? String.length (default ""%string ou))%nat
              && (0 <? String.length (default ""%string op))%nat) eqn:Hw.
    + apply andb_prop in Hw as [Hwu Hwp].
      apply Nat.ltb_lt in Hwu, Hwp.
      split; [split; eauto |]. split; [intros _ | eauto].
      destruct ou as [u |]; [| cbn in Hwu; lia].
      destruct op as [p |]; [| cbn in Hwp; lia].
      exists u, p. repeat split; intros ->; cbn in *; lia.
    + split; [split; intros [x Hx]; discriminate Hx |].
      split; [intros [x Hx]; discriminate Hx |].
      intros (u & p & -> & -> & Hu0 & Hp0). cbn [default] in Hw.
      apply andb_false_iff in Hw as [Hw | Hw]; apply Nat.ltb_ge in Hw.
      * destruct u; [now contradiction Hu0 | cbn in Hw; lia].
      * destruct p; [now contradiction Hp0 | cbn in Hw; lia].
Qed.

(** C10 as stated fails in the "only if" direction: both keys are read,
    the client is initialised, and [Init] still returns an error, the one
    of [esp_mqtt_client_register_event]. *)
Lemma Init_fails_counterexample :
  ~ (forall self will tr st,
       fst (fst (fst (Init self will tr st))) <> ESP_OK <->
       read64 st "broker" = None \/ read64 st "topic-base" = None \/
       esp_mqtt_client_init tr (config_of st will) = None).
Proof.
  intros H.
  destruct (H MQTT.new None Fixtures.no_registration Fixtures.configured)
    as [H1 _].
  assert (Herr :
    fst (fst (fst (Init MQTT.new None Fixtures.no_registration
                     Fixtures.configured)))
      = ESP_ERR_NO_MEM) by (vm_compute; reflexivity).
  destruct H1 as [Hb | [Ht | Hc]].
  - rewrite Herr. discriminate.
  - vm_compute in Hb. discriminate Hb.
  - vm_compute in Ht. discriminate Ht.
  - cbn in Hc. discriminate Hc.
Qed.

Example Init_on_configured :
  let '(err, self, _, calls) :=
    Init MQTT.new None Fixtures.offline Fixtures.configured in
  err = ESP_OK /\ topic_base_ self = "fh/es2/"%string /\ client_ self = Some 1%N /\
  calls =
    [init_call {| uri := "mqtt://192.168.86.30"; username := None;
                  password := None; last_will := None |} (Some 1%N);
     register_event_call (Some 1%N) ESP_OK].
Proof. vm_compute. repeat split; reflexivity. Qed.

End MQTTFacts.

(** ** The store handle: closing twice *)
Module CloseFacts.
Import Nvs NvsHandle.

(** [Close] leaves [handle_] as it is, so a second [Close] passes the same
    number to [nvs_close] again. *)
Lemma Close_twice_calls self st :
  handle_ self <> 0%N ->
  calls (Close self (Close self st)) =
    calls st ++ [nvs_close_call (handle_ self); nvs_close_call (handle_ self)].
Proof.
  intros Hh. unfold Close. apply N.eqb_neq in Hh. rewrite Hh.
  cbn [nvs_close calls with_handles called]. now rewrite <- app_assoc.
Qed.

(** The library ignores the stale number: the second [Close] changes
    nothing but the list of calls. *)
Lemma Close_twice_state self st :
  let once := Close self st in
  let twice := Close self once in
  handles twice = handles once /\ view twice = view once /\
  stored twice = stored once /\ next_handle twice = next_handle once.
Proof.
  cbn zeta. unfold Close. destruct (handle_ self =? 0)%N; [repeat split |].
  cbn [nvs_close handles view stored next_handle with_handles called].
  repeat split. apply map_eq. intros i.
  destruct (decide (i = handle_ self)) as [-> | Hne].
  - now rewrite !lookup_delete_eq.
  - now rewrite !lookup_delete_ne by congruence.
Qed.

(** C8 at a concrete handle: namespace "mqtt" opened on a blank
    partition, then [Close] twice.  [nvs_close] is called twice with
    handle 1. *)
Lemma Close_twice_on_opened :
  handle_ Fixtures.h1 = 1%N /\
  calls (Close Fixtures.h1 Fixtures.st1)
    = [nvs_open_call "mqtt" NVS_READWRITE; nvs_close_call 1%N] /\
  calls (Close Fixtures.h1 (Close Fixtures.h1 Fixtures.st1))
    = [nvs_open_call "mqtt" NVS_READWRITE; nvs_close_call 1%N;
       nvs_close_call 1%N].
Proof. repeat split. Qed.

End CloseFacts.

(** ** The updater *)
Module UpdaterFacts.
Import Updater.

Lemma HttpClientInitCallback_no_restart e headers :
  forallb (fun c => negb (is_restart c))
    (snd (fst (HttpClientInitCallback e headers))) = true.
Proof.
  induction headers as [| h hs IH]; [reflexivity |].
  cbn [HttpClientInitCallback].
  destruct (negb (esp_http_client_set_header e h =? ESP_OK)); [reflexivity |].
  destruct (HttpClientInitCallback e hs) as [[r calls] set].
  cbn [fst snd forallb is_restart negb andb] in *. exact IH.
Qed.

Lemma esp_https_ota_no_restart self e url :
  forallb (fun c => negb (is_restart c)) (snd (esp_https_ota self e url)) = true.
Proof.
  unfold esp_https_ota.
  pose proof (HttpClientInitCallback_no_restart e (headers_ self)) as H.
  destruct (HttpClientInitCallback e (headers_ self)) as [[r calls] set].
  cbn [fst snd] in H.
  destruct (negb (r =? ESP_OK)); cbn [snd forallb is_restart negb andb]; exact H.
Qed.

(** [Update] by the answer of the download. *)
Lemma Update_outcome self e url :
  esp_event_handler_register e = ESP_OK ->
  let ret := fst (esp_https_ota self e url) in
  let calls := esp_event_handler_register_call :: snd (esp_https_ota self e url) in
  (ret = ESP_OK -> Update self e url = (Reboots, calls ++ [esp_restart_call])) /\
  (ret <> ESP_OK -> Update self e url = (Returns ESP_FAIL, calls)).
Proof.
  intros Hreg. cbn zeta. unfold Update. rewrite Hreg.
  change (negb (ESP_OK =? ESP_OK)) with false. cbn iota.
  destruct (esp_https_ota self e url) as [ret calls]. cbn [fst snd].
  split.
  - intros ->. reflexivity.
  - intros Hne. apply Z.eqb_neq in Hne. now rewrite Hne.
Qed.

(** C4, as amended.  A well-formed upgrade request is answered "Firmware
    update started" before the update begins.  If the download and flash
    succeed, [Update] restarts the device and never returns, and the
    route sends nothing after that first answer.  If they fail, [Update]
    returns [ESP_FAIL], the route adds the error "Failed to update
    firmware" for the same request and returns [ESP_FAIL], and
    [esp_restart] is not called. *)
Theorem firmware_upgrade_outcome ctx req e json url :
  esp_event_handler_register e = ESP_OK ->
  0 <= Httpd.received req ->
  Httpd.received req = Httpd.content_len req ->
  Httpd.body req = Some json ->
  Httpd.cJSON_GetObjectItemCaseSensitive json "url"
    = Some (Httpd.cJSON_String url) ->
  let ret := fst (esp_https_ota (App.updater_ ctx) e url) in
  let calls :=
    esp_event_handler_register_call
      :: snd (esp_https_ota (App.updater_ ctx) e url) in
  let started := App.http (Httpd.httpd_resp_send App.firmware_update_started) in
  (ret = ESP_OK ->
     Update (App.updater_ ctx) e url = (Reboots, calls ++ [esp_restart_call]) /\
     App.DoFirmwareUpgrade ctx req e
       = (Reboots, started :: map App.ota (calls ++ [esp_restart_call]))) /\
  (ret <> ESP_OK ->
     Update (App.updater_ ctx) e url = (Returns ESP_FAIL, calls) /\
     App.DoFirmwareUpgrade ctx req e
       = (Returns ESP_FAIL,
          started :: map App.ota calls ++
          [App.http
             (Httpd.httpd_resp_send_err Httpd.HTTPD_500_INTERNAL_SERVER_ERROR
                "Failed to update firmware")]) /\
     forallb (fun c => negb (is_restart c)) calls = true).
Proof.
  intros Hreg Hrecv Hlen Hbody Hurl. cbn zeta.
  destruct (Update_outcome (App.updater_ ctx) e url Hreg) as [Hok Hfail].
  cbn zeta in Hok, Hfail.
  unfold App.DoFirmwareUpgrade, Httpd.Receive.
  replace (Httpd.received req <? 0) with false by (symmetry; apply Z.ltb_ge; lia).
  rewrite Hlen, Z.eqb_refl, Hbody, Hurl. cbn [negb].
  split.
  - intros Hret. rewrite (Hok Hret). split; reflexivity.
  - intros Hret. rewrite (Hfail Hret).
    change (negb (ESP_FAIL =? ESP_OK)) with true. cbn iota.
    repeat split. cbn [forallb is_restart negb andb].
    apply esp_https_ota_no_restart.
Qed.

Lemma firmware_upgrade_outcome_witness :
  App.DoFirmwareUpgrade Fixtures.app Fixtures.upgrade_request
    (Fixtures.server ESP_FAIL)
  = (Returns ESP_FAIL,
     [App.http (Httpd.httpd_resp_send App.firmware_update_started);
      App.ota esp_event_handler_register_call;
      App.ota (esp_https_ota_call "https://fw.example/app.bin");
      App.ota (esp_http_client_set_header_call
                 {| key := "Authorization"; value := "Bearer t0k3n" |});
      App.http
        (Httpd.httpd_resp_send_err Httpd.HTTPD_500_INTERNAL_SERVER_ERROR
           "Failed to update firmware")]).
Proof.
  refine (proj1 (proj2 (proj2
    (firmware_upgrade_outcome Fixtures.app Fixtures.upgrade_request
       (Fixtures.server ESP_FAIL)
       (Httpd.cJSON_Object
          [("url"%string, Httpd.cJSON_String "https://fw.example/app.bin")])
       "https://fw.example/app.bin" eq_refl _ eq_refl eq_refl eq_refl) _)));
    [cbn; lia | cbn; discriminate].
Defined.

(** C4 as stated fails on success: the caller has received a response,
    the one sent before the update began. *)
Lemma firmware_upgrade_counterexample :
  let result :=
    App.DoFirmwareUpgrade Fixtures.app Fixtures.upgrade_request
      (Fixtures.server ESP_OK) in
  fst result = Reboots /\
  List.filter App.is_response (snd result)
    = [App.http (Httpd.httpd_resp_send App.firmware_update_started)] /\
  List.filter App.is_response (snd result) <> [].
Proof. repeat split. discriminate. Qed.

(** *** Pending verification *)

Lemma Commit_not_pending e : PendingVerification (fst (Commit e)) = false.
Proof.
  unfold Commit, esp_ota_mark_app_valid_cancel_rollback, PendingVerification,
    esp_ota_get_state_partition.
  destruct (running e) as [s |] eqn:Hr; cbn [fst snd set_running running].
  - reflexivity.
  - now rewrite Hr.
Qed.

Lemma steps_not_pending ops : forall e,
  PendingVerification e = false -> running e <> Some ESP_OTA_IMG_PENDING_VERIFY ->
  PendingVerification (steps ops e) = false.
Proof.
  induction ops as [| o ops IH]; intros e He Hr; [exact He |].
  unfold steps. cbn [fold_left]. fold (steps ops (step o e)).
  destruct o; cbn [step].
  - apply IH; [apply Commit_not_pending |].
    unfold Commit, esp_ota_mark_app_valid_cancel_rollback.
    destruct (running e) as [s |] eqn:Hs; cbn [fst snd set_running running].
    + discriminate.
    + now rewrite Hs.
  - now apply IH.
Qed.

(** C6.  [PendingVerification] is true exactly when the OTA data of the
    running image can be read and says [ESP_OTA_IMG_PENDING_VERIFY]; it
    is so at the first boot of a freshly flashed image (with the
    bootloader's application rollback enabled); and once [Commit] has
    been called it is false, and stays false whatever the application
    calls on that image afterwards. *)
Theorem PendingVerification_until_Commit e :
  (PendingVerification e = true <-> running e = Some ESP_OTA_IMG_PENDING_VERIFY) /\
  PendingVerification (first_boot true e) = true /\
  PendingVerification (fst (Commit (first_boot true e))) = false /\
  (forall ops, PendingVerification (steps ops (fst (Commit e))) = false).
Proof.
  split; [| split; [| split]].
  - unfold PendingVerification, esp_ota_get_state_partition.
    destruct (running e) as [[] |]; cbn; split; congruence.
  - reflexivity.
  - reflexivity.
  - intros ops. apply steps_not_pending; [apply Commit_not_pending |].
    unfold Commit, esp_ota_mark_app_valid_cancel_rollback.
    destruct (running e) as [s |] eqn:Hs; cbn [fst snd set_running running].
    + discriminate.
    + now rewrite Hs.
Qed.

(** Without application rollback in the bootloader the new image is never
    pending. *)
Example first_boot_without_rollback e :
  PendingVerification (first_boot false e) = false.
Proof. reflexivity. Qed.

End UpdaterFacts.

(** ** The type names of the configuration store *)
Module TypeNameFacts.
Import Nvs NvsHandle.

Lemma TypeOf_name name type :
  TypeOf name = (ESP_OK, type) -> TypeName type = (ESP_OK, name).
Proof.
  unfold TypeOf.
  repeat match goal with
         | |- context [String.eqb name ?s] =>
             destruct (String.eqb_spec name s) as [-> | _];
             [intros [= <-]; reflexivity |]
         end.
  intros [=].
Qed.

(** X1.  [TypeName] and [TypeOf] are inverse to each other: every type has a
    name that [TypeOf] maps back to it, a name that [TypeOf] accepts is
    the name [TypeName] gives to its type, and every other string is
    answered [ESP_ERR_NVS_TYPE_MISMATCH] with [NVS_TYPE_ANY]. *)
Theorem TypeOf_TypeName (type : nvs_type_t) (name : string) :
  (fst (TypeName type) = ESP_OK /\
   TypeOf (snd (TypeName type)) = (ESP_OK, type)) /\
  (TypeOf name = (ESP_OK, type) <-> TypeName type = (ESP_OK, name)) /\
  (fst (TypeOf name) = ESP_OK \/
   TypeOf name = (ESP_ERR_NVS_TYPE_MISMATCH, NVS_TYPE_ANY)).
Proof.
  split; [| split].
  - destruct type; split; reflexivity.
  - split.
    + apply TypeOf_name.
    + destruct type; intros [= <-]; reflexivity.
  - unfold TypeOf.
    repeat match goal with
           | |- context [String.eqb name ?s] =>
               destruct (String.eqb name s); [left; reflexivity |]
           end.
    right. reflexivity.
Qed.

End TypeNameFacts.

(** ** The request headers of the firmware download *)
Module HeaderFacts.
Import Updater.

Lemma HttpClientInitCallback_accepted e headers :
  Forall (fun h => esp_http_client_set_header e h = ESP_OK) headers ->
  HttpClientInitCallback e headers
    = (ESP_OK, map esp_http_client_set_header_call headers, headers).
Proof.
  induction 1 as [| h hs Hh _ IH]; [reflexivity |].
  cbn [HttpClientInitCallback map]. rewrite Hh, IH. reflexivity.
Qed.

Lemma HttpClientInitCallback_refused e pre h post :
  Forall (fun h => esp_http_client_set_header e h = ESP_OK) pre ->
  esp_http_client_set_header e h <> ESP_OK ->
  HttpClientInitCallback e (pre ++ h :: post)
    = (esp_http_client_set_header e h,
       map esp_http_client_set_header_call (pre ++ [h]), pre).
Proof.
  intros Hpre Hh. apply Z.eqb_neq in Hh.
  induction Hpre as [| x xs Hx _ IH].
  - cbn [app HttpClientInitCallback map]. now rewrite Hh.
  - cbn [app HttpClientInitCallback map]. rewrite Hx.
    change (app xs (h :: post)) with (xs ++ h :: post) in *.
    rewrite IH. reflexivity.
Qed.

(** X2.  When the HTTP client accepts every header, [Update] hands the
    download exactly the headers of the updater, in the order they were
    added ([AddBearerToken] adds "Authorization: Bearer <token>" after
    those already there), and restarts the device exactly when the
    download succeeds. *)
Theorem Update_sends_headers self e url token :
  esp_event_handler_register e = ESP_OK ->
  Forall (fun h => esp_http_client_set_header e h = ESP_OK)
    (headers_ (AddBearerToken self token)) ->
  let sent :=
    headers_ self ++
    [{| key := "Authorization"; value := String.append "Bearer " token |}] in
  let trace :=
    esp_event_handler_register_call :: esp_https_ota_call url ::
    map esp_http_client_set_header_call sent in
  Update (AddBearerToken self token) e url
    = if download e url sent =? ESP_OK
      then (Reboots, trace ++ [esp_restart_call])
      else (Returns ESP_FAIL, trace).
Proof.
  intros Hreg Hall. cbn zeta.
  unfold Update, esp_https_ota. rewrite Hreg.
  change (negb (ESP_OK =? ESP_OK)) with false. cbn iota.
  rewrite (HttpClientInitCallback_accepted e _ Hall).
  change (negb (ESP_OK =? ESP_OK)) with false. cbn iota.
  change (headers_ (AddBearerToken self token)) with
    (headers_ self ++
     [{| key := "Authorization"; value := String.append "Bearer " token |}]).
  now destruct (download e url _ =? ESP_OK).
Qed.

Lemma Update_sends_headers_witness :
  let e :=
    {| esp_event_handler_register := ESP_OK;
       esp_http_client_set_header := fun _ => ESP_OK;
       download := fun _ hs => if (length hs =? 2)%nat then ESP_OK else ESP_FAIL;
       running := None; previous_image := false |} in
  fst (Update (AddBearerToken (AddHeader new "Accept" "*/*") "s3cr3t") e
         "https://example.org/app.bin") = Reboots.
Proof.
  cbn zeta.
  rewrite (Update_sends_headers (AddHeader new "Accept" "*/*") _
             "https://example.org/app.bin" "s3cr3t");
    [reflexivity | reflexivity |].
  repeat constructor.
Defined.

(** X3.  The first header that the HTTP client refuses ends the update:
    [Update] returns [ESP_FAIL] whatever the server would have answered,
    the headers after the refused one are never set, and the device is
    not restarted. *)
Theorem Update_refused_header self e url pre h post :
  esp_event_handler_register e = ESP_OK ->
  headers_ self = pre ++ h :: post ->
  Forall (fun h => esp_http_client_set_header e h = ESP_OK) pre ->
  esp_http_client_set_header e h <> ESP_OK ->
  Update self e url
    = (Returns ESP_FAIL,
       esp_event_handler_register_call :: esp_https_ota_call url ::
       map esp_http_client_set_header_call (pre ++ [h])).
Proof.
  intros Hreg Hhs Hpre Hh.
  unfold Update, esp_https_ota. rewrite Hreg, Hhs.
  change (negb (ESP_OK =? ESP_OK)) with false. cbn iota.
  rewrite (HttpClientInitCallback_refused e pre h post Hpre Hh).
  apply Z.eqb_neq in Hh. rewrite Hh. reflexivity.
Qed.

Lemma Update_refused_header_witness :
  let e :=
    {| esp_event_handler_register := ESP_OK;
       esp_http_client_set_header :=
         fun h => if String.eqb (key h) "" then ESP_FAIL else ESP_OK;
       download := fun _ _ => ESP_OK;
       running := None; previous_image := false |} in
  fst (Update (AddHeader (AddHeader (AddHeader new "Accept" "*/*") "" "x")
                 "User-Agent" "idf-app") e "https://example.org/app.bin")
    = Returns ESP_FAIL.
Proof.
  cbn zeta.
  rewrite (Update_refused_header _ _ "https://example.org/app.bin"
             [{| key := "Accept"; value := "*/*" |}]
             {| key := ""; value := "x" |}
             [{| key := "User-Agent"; value := "idf-app" |}]);
    [reflexivity | reflexivity | reflexivity | repeat constructor |].
  cbn. discriminate.
Defined.

End HeaderFacts.

(** ** The HTTP server object *)
Module HttpdServerFacts.
Import HttpdServer.

Lemma apply_keeps o self trace :
  server_ self = None ->
  server_ (fst (apply o (self, trace))) = None /\
  List.filter is_stop (snd (apply o (self, trace))) = List.filter is_stop trace /\
  length (List.filter is_start (snd (apply o (self, trace))))
    = (length (List.filter is_start trace)
       + match o with op_Start _ _ _ => 1 | _ => 0 end)%nat.
Proof.
  intros Hs. destruct o as [u m h ctx | | a ss n |]; cbn [apply].
  - cbn [fst snd AddRoute server_]. repeat split; [exact Hs | lia].
  - cbn [fst snd ClearRoutes server_]. repeat split; [exact Hs | lia].
  - unfold Start. rewrite Hs.
    destruct (httpd_start a) as [err server].
    destruct (err =? ESP_OK); cbn [fst snd];
      rewrite !List.filter_app, !length_app; cbn [List.filter is_stop is_start length].
    + split; [exact Hs |].
      assert (Hnone : forall (f : call -> bool) rs,
                 (forall r, f (httpd_register_uri_handler_call server r) = false) ->
                 List.filter f (map (httpd_register_uri_handler_call server) rs) = []).
      { intros f rs Hf. induction rs as [| r rs IH]; [reflexivity |].
        cbn [map List.filter]. rewrite Hf. exact IH. }
      rewrite !Hnone by reflexivity.
      rewrite app_nil_r. split; reflexivity.
    + split; [exact Hs |]. rewrite app_nil_r. split; reflexivity.
  - unfold Stop. rewrite Hs. cbn [fst snd].
    rewrite app_nil_r. repeat split; [exact Hs | lia].
Qed.

Lemma run_keeps ops self trace :
  server_ self = None ->
  server_ (fst (run ops (self, trace))) = None /\
  List.filter is_stop (snd (run ops (self, trace))) = List.filter is_stop trace /\
  length (List.filter is_start (snd (run ops (self, trace))))
    = (length (List.filter is_start trace) + length (List.filter is_op_Start ops))%nat.
Proof.
  revert self trace.
  induction ops as [| o ops IH]; intros self trace Hs.
  - cbn [run fold_left fst snd List.filter length]. repeat split; [exact Hs | lia].
  - change (run (o :: ops) (self, trace)) with (run ops (apply o (self, trace))).
    destruct (apply_keeps o self trace Hs) as (H1 & H2 & H3).
    destruct (apply o (self, trace)) as [self' trace'].
    cbn [fst snd] in H1, H2, H3.
    destruct (IH self' trace' H1) as (I1 & I2 & I3).
    split; [exact I1 |]. split; [now rewrite I2 |].
    rewrite I3, H3. cbn [List.filter].
    destruct o; cbn [is_op_Start length]; lia.
Qed.

(** X4.  No member function assigns [server_]: whatever is done with a new
    server object, [server_] stays [nullptr].  So [Stop] never reaches
    [httpd_stop], and [Start] never finds the server already started:
    every call of [Start] calls [httpd_start] again. *)
Theorem server_never_recorded (ops : list op) :
  server_ (fst (run ops (new, []))) = None /\
  List.filter is_stop (snd (run ops (new, []))) = [] /\
  length (List.filter is_start (snd (run ops (new, []))))
    = length (List.filter is_op_Start ops).
Proof.
  destruct (run_keeps ops new [] eq_refl) as (H1 & H2 & H3).
  split; [exact H1 |]. split; [exact H2 |]. exact H3.
Qed.

Lemma routes_added rs self :
  routes_ (add_routes rs self) = routes_ self ++ rs.
Proof.
  revert self. unfold add_routes.
  induction rs as [| r rs IH]; intros self; cbn [fold_left].
  - now rewrite app_nil_r.
  - rewrite IH. cbn [AddRoute routes_]. destruct r.
    cbn [uri method handler user_ctx]. now rewrite <- app_assoc.
Qed.

(** X5.  [Start] registers the routes in the order of their [AddRoute] calls,
    on the handle that [httpd_start] returned, and only when
    [httpd_start] succeeds; what [httpd_register_uri_handler] answers
    changes nothing. *)
Theorem Start_registers_routes (rs : list httpd_uri_t) (a : answers)
    (stack_size : N) (max_uri_handlers : Z) :
  snd (Start (add_routes rs new) a stack_size max_uri_handlers)
    = httpd_start_call stack_size true max_uri_handlers ::
      (if fst (httpd_start a) =? ESP_OK
       then map (httpd_register_uri_handler_call (snd (httpd_start a))) rs
       else []).
Proof.
  unfold Start.
  assert (G : forall self, server_ (add_routes rs self) = server_ self).
  { unfold add_routes. induction rs as [| r rs IH]; intros s; [reflexivity |].
    cbn [fold_left]. now rewrite IH. }
  rewrite G. cbn [server_ new].
  rewrite routes_added. cbn [routes_ new app].
  destruct (httpd_start a) as [err server]. cbn [fst snd].
  now destruct (err =? ESP_OK).
Qed.

End HttpdServerFacts.

(** ** The reset and firmware-upgrade routes *)
Module RouteFacts.
Import Httpd.

(** X6.  The reset route replies, waits three seconds and restarts the
    device; it never gets to stop the HTTP server, because the server
    object has not kept the handle of the server it started. *)
Theorem DoReset_restarts_without_stop ops :
  AppTasks.DoReset (fst (HttpdServer.run ops (HttpdServer.new, [])))
    = [AppTasks.http (httpd_resp_send AppTasks.resetting_device);
       AppTasks.vTaskDelay_ms 3000;
       AppTasks.esp_restart_call].
Proof.
  unfold AppTasks.DoReset, HttpdServer.Stop.
  destruct (HttpdServerFacts.run_keeps ops HttpdServer.new [] eq_refl) as [-> _].
  reflexivity.
Qed.

(** X7.  A request whose body is JSON without a string member "url" starts no
    update: the route returns [ESP_FAIL], calls nothing of the updater,
    and sends no response at all, not even an error. *)
Theorem upgrade_without_url_is_unanswered ctx req e json :
  0 <= received req -> received req = content_len req ->
  body req = Some json ->
  cJSON_IsString (cJSON_GetObjectItemCaseSensitive json "url") = false ->
  App.DoFirmwareUpgrade ctx req e = (Updater.Returns ESP_FAIL, []).
Proof.
  intros Hrecv Hlen Hbody Hurl.
  unfold App.DoFirmwareUpgrade, Receive.
  replace (received req <? 0) with false by (symmetry; apply Z.ltb_ge; lia).
  rewrite Hlen, Z.eqb_refl, Hbody. cbn [negb].
  destruct (cJSON_GetObjectItemCaseSensitive json "url") as [[s | d |] |];
    try reflexivity.
  discriminate Hurl.
Qed.

Lemma upgrade_without_url_is_unanswered_witness :
  App.DoFirmwareUpgrade Fixtures.app
    {| url_query := None; content_len := 21; received := 21;
       body := Some (cJSON_Object [("uri"%string, cJSON_String "https://x/y")]) |}
    (Fixtures.server ESP_OK)
  = (Updater.Returns ESP_FAIL, []).
Proof.
  apply (upgrade_without_url_is_unanswered Fixtures.app _ (Fixtures.server ESP_OK)
           (cJSON_Object [("uri"%string, cJSON_String "https://x/y")]));
    [cbn; lia | reflexivity | reflexivity | reflexivity].
Defined.

End RouteFacts.

(** ** The service name of the provisioner *)
Module ServiceNameFacts.
Import ServiceName.

Lemma hex_digit_inj (a b : Z) :
  0 <= a < 16 -> 0 <= b < 16 -> hex_digit a = hex_digit b -> a = b.
Proof.
  intros Ha Hb H. unfold hex_digit in H.
  apply (f_equal N_of_ascii) in H.
  rewrite !N_ascii_embedding in H.
  - apply (f_equal Z.of_N) in H. rewrite !Z2N.id in H.
    + destruct (a <? 10) eqn:Ea, (b <? 10) eqn:Eb;
        try apply Z.ltb_lt in Ea; try apply Z.ltb_ge in Ea;
        try apply Z.ltb_lt in Eb; try apply Z.ltb_ge in Eb; lia.
    + destruct (b <? 10); lia.
    + destruct (a <? 10); lia.
  - destruct (b <? 10); lia.
  - destruct (a <? 10); lia.
Qed.

Lemma hex02_inj (a b : Z) :
  0 <= a < 256 -> 0 <= b < 256 -> hex02 a = hex02 b -> a = b.
Proof.
  intros Ha Hb H. unfold hex02 in H. injection H as Hhi Hlo.
  apply hex_digit_inj in Hhi;
    [| split; [apply Z.div_pos | apply Z.div_lt_upper_bound]; lia ..].
  apply hex_digit_inj in Hlo; [| apply Z.mod_pos_bound; lia ..].
  rewrite (Z.div_mod a 16), (Z.div_mod b 16) by lia. lia.
Qed.

Lemma hex02_length (b : Z) : String.length (hex02 b) = 2%nat.
Proof. reflexivity. Qed.

Lemma name_explicit (eth_mac : list Z) :
  GetDefautlServiceName eth_mac =
    String.append "PROV_"
      (String.append (hex02 (nth 3 eth_mac 0))
         (String.append (hex02 (nth 4 eth_mac 0)) (hex02 (nth 5 eth_mac 0)))).
Proof. reflexivity. Qed.

(** X8.  The service name is "PROV_" followed by six hexadecimal digits: 11
    characters, so the buffer of 32 bytes never truncates it.  Two
    devices get the same name exactly when their MAC addresses agree in
    the last three bytes. *)
Theorem service_name_by_last_bytes (m m' : list Z) :
  bytes m -> bytes m' -> length m = 6%nat -> length m' = 6%nat ->
  String.length (GetDefautlServiceName m) = 11%nat /\
  (GetDefautlServiceName m = GetDefautlServiceName m' <-> drop 3 m = drop 3 m').
Proof.
  intros Hm Hm' Hl Hl'.
  split; [reflexivity |].
  destruct m as [| a0 [| a1 [| a2 [| a3 [| a4 [| a5 [| ? ?]]]]]]]; try discriminate Hl.
  destruct m' as [| b0 [| b1 [| b2 [| b3 [| b4 [| b5 [| ? ?]]]]]]]; try discriminate Hl'.
  rewrite !name_explicit. cbn [nth drop].
  unfold bytes in *.
  repeat match goal with
         | H : Forall _ (_ :: _) |- _ => apply Forall_cons in H as [? H]
         end.
  split.
  - intros Heq. cbn [String.append hex02] in Heq.
    injection Heq as H3h H3l H4h H4l H5h H5l.
    assert (hex02 a3 = hex02 b3) by (unfold hex02; congruence).
    assert (hex02 a4 = hex02 b4) by (unfold hex02; congruence).
    assert (hex02 a5 = hex02 b5) by (unfold hex02; congruence).
    f_equal; [| f_equal; [| f_equal]]; now apply hex02_inj.
  - intros [= -> -> ->]. reflexivity.
Qed.

Lemma service_name_by_last_bytes_witness :
  GetDefautlServiceName [0x24; 0x6F; 0x28; 0xA1; 0xB2; 0xC3] = "PROV_A1B2C3"%string /\
  GetDefautlServiceName [0x24; 0x6F; 0x28; 0xA1; 0xB2; 0xC3]
    = GetDefautlServiceName [0x30; 0xAE; 0xA4; 0xA1; 0xB2; 0xC3].
Proof.
  split; [reflexivity |].
  apply (proj2 (service_name_by_last_bytes
                  [0x24; 0x6F; 0x28; 0xA1; 0xB2; 0xC3]
                  [0x30; 0xAE; 0xA4; 0xA1; 0xB2; 0xC3]
                  ltac:(repeat constructor; lia) ltac:(repeat constructor; lia)
                  eq_refl eq_refl)).
  reflexivity.
Defined.

End ServiceNameFacts.

(** ** The reprovisioning button *)
Module ButtonFacts.
Import AppTasks.

Lemma turn_inl led b s out :
  turn led b s = inl out ->
  btn_state s = false /\ prev_btn_state b = false /\
  10000 < ms s - start_pressed b /\
  exists pre,
    out = pre ++ [vTaskDelay_ms 2000; wifi_prov_mgr_reset_provisioning_call;
                  vTaskDelay_ms 500; esp_restart_call] /\
    forallb harmless pre = true.
Proof.
  unfold turn, ms.
  destruct (btn_state s); cbn [negb]; [discriminate |].
  destruct (prev_btn_state b); [discriminate |].
  destruct (10000 <? Z.quot (time_us s) 1000 - start_pressed b) eqn:E;
    [| discriminate].
  apply Z.ltb_lt in E. intros [= <-]. repeat split; [exact E |].
  exists ((if led then [flash_orange] else []) ++
          (if led then [led_On StatusLed.kOrange] else [])).
  split; [now rewrite <- app_assoc | now destruct led].
Qed.

Lemma turn_inr led b s b' out :
  turn led b s = inr (b', out) ->
  prev_btn_state b' = btn_state s /\
  start_pressed b' =
    (if negb (btn_state s) && prev_btn_state b then ms s else start_pressed b) /\
  (btn_state s = false -> prev_btn_state b = false ->
   ms s - start_pressed b <= 10000) /\
  forallb harmless out = true.
Proof.
  unfold turn, ms.
  destruct (btn_state s); cbn [negb andb].
  - intros [= <- <-]. repeat split. intros; discriminate.
  - destruct (prev_btn_state b).
    + intros [= <- <-]. repeat split; [intros; discriminate | now destruct led].
    + destruct (10000 <? Z.quot (time_us s) 1000 - start_pressed b) eqn:E;
        [discriminate |].
      apply Z.ltb_ge in E. intros [= <- <-].
      repeat split; [intros; exact E | now destruct led].
Qed.

Lemma loop_sound led samples : forall b k,
  loop led b samples = Some k ->
  exists sk, samples !! k = Some sk /\
    ((prev_btn_state b = false /\
      (forall i s, (i <= k)%nat -> samples !! i = Some s -> btn_state s = false) /\
      10000 < ms sk - start_pressed b) \/
     (exists j sj, (j < k)%nat /\ samples !! j = Some sj /\
        (forall i s, (j <= i <= k)%nat -> samples !! i = Some s ->
                     btn_state s = false) /\
        (j = 0%nat -> prev_btn_state b = true) /\
        (forall j0 s, j = S j0 -> samples !! j0 = Some s -> btn_state s = true) /\
        10000 < ms sk - ms sj)).
Proof.
  induction samples as [| s rest IH]; intros b k; [discriminate |].
  cbn [loop]. destruct (turn led b s) as [out | [b' out]] eqn:Ht.
  - intros [= <-]. apply turn_inl in Ht as (Hs & Hp & Hd & _).
    exists s. split; [reflexivity |]. left.
    split; [exact Hp |]. split; [| exact Hd].
    intros i s' Hi. replace i with 0%nat by lia. now intros [= <-].
  - apply turn_inr in Ht as (Hp' & Hst & _ & _).
    destruct (loop led b' rest) as [k0 |] eqn:Hl; [| discriminate].
    intros [= <-].
    destruct (IH b' k0 Hl) as (sk & Hsk & [(Hpf & Hlow & Hd) | Hright]).
    + exists sk. split; [exact Hsk |].
      rewrite Hp' in Hpf. rewrite Hpf in Hst. cbn [negb andb] in Hst.
      assert (Hall : forall i s', (i <= S k0)%nat ->
                (s :: rest) !! i = Some s' -> btn_state s' = false).
      { intros [| i] s' Hi; [now intros [= <-] |].
        cbn. apply Hlow. lia. }
      destruct (prev_btn_state b) eqn:Hpb.
      * right. exists 0%nat, s. rewrite Hst in Hd.
        split; [lia |]. split; [reflexivity |].
        split; [intros i s' Hi; apply Hall; lia |].
        split; [reflexivity |]. split; [discriminate | exact Hd].
      * left. rewrite Hst in Hd. repeat split; [exact Hall | exact Hd].
    + destruct Hright as (j & sj & Hjk & Hsj & Hlow & Hj0 & Hprev & Hd).
      exists sk. split; [exact Hsk |]. right.
      exists (S j), sj. split; [lia |]. split; [exact Hsj |].
      split; [| split; [discriminate | split; [| exact Hd]]].
      * intros [| i] s' Hi; [lia |]. cbn. apply Hlow. lia.
      * intros j0 s' [= <-]. destruct j as [| j1].
        -- intros [= <-]. rewrite <- Hp'. now apply Hj0.
        -- cbn. now apply Hprev.
Qed.

(** X9.  The task restarts the device only after a long press: if it
    restarts at turn [k], the button went down at an earlier turn [j],
    was read down at every turn from [j] to [k], and the clock read at
    turn [k] is more than 10000 ms after the one read at turn [j]. *)
Theorem restart_needs_long_press led samples k :
  loop led released samples = Some k ->
  exists j sj sk,
    (j < k)%nat /\ samples !! j = Some sj /\ samples !! k = Some sk /\
    (forall i s, (j <= i <= k)%nat -> samples !! i = Some s ->
                 btn_state s = false) /\
    (forall j0 s, j = S j0 -> samples !! j0 = Some s -> btn_state s = true) /\
    10000 < ms sk - ms sj.
Proof.
  intros Hl.
  destruct (loop_sound led samples released k Hl)
    as (sk & Hsk & [(Hp & _) | (j & sj & Hjk & Hsj & Hlow & _ & Hprev & Hd)]);
    [discriminate Hp |].
  exists j, sj, sk. repeat split; assumption.
Qed.

Lemma restart_needs_long_press_witness :
  let samples :=
    [{| btn_state := true; time_us := 0 |};
     {| btn_state := false; time_us := 500000 |};
     {| btn_state := false; time_us := 10000000 |};
     {| btn_state := false; time_us := 10501000 |}] in
  exists j sj sk,
    (j < 3)%nat /\ samples !! j = Some sj /\ samples !! 3%nat = Some sk /\
    (forall i s, (j <= i <= 3)%nat -> samples !! i = Some s ->
                 btn_state s = false) /\
    (forall j0 s, j = S j0 -> samples !! j0 = Some s -> btn_state s = true) /\
    10000 < ms sk - ms sj.
Proof.
  exact (restart_needs_long_press true
           [{| btn_state := true; time_us := 0 |};
            {| btn_state := false; time_us := 500000 |};
            {| btn_state := false; time_us := 10000000 |};
            {| btn_state := false; time_us := 10501000 |}] 3 eq_refl).
Defined.


Lemma loop_complete led samples : forall b k sk,
  samples !! k = Some sk ->
  ((prev_btn_state b = false /\
    (forall i s, (i <= k)%nat -> samples !! i = Some s -> btn_state s = false) /\
    10000 < ms sk - start_pressed b) \/
   (exists j sj, (j < k)%nat /\ samples !! j = Some sj /\
      (forall i s, (j <= i <= k)%nat -> samples !! i = Some s ->
                   btn_state s = false) /\
      (j = 0%nat -> prev_btn_state b = true) /\
      (forall j0 s, j = S j0 -> samples !! j0 = Some s -> btn_state s = true) /\
      10000 < ms sk - ms sj)) ->
  exists k', (k' <= k)%nat /\ loop led b samples = Some k'.
Proof.
  induction samples as [| s rest IH]; intros b k sk Hsk H; [discriminate |].
  cbn [loop]. destruct (turn led b s) as [out | [b' out]] eqn:Ht;
    [exists 0%nat; split; [lia | reflexivity] |].
  apply turn_inr in Ht as (Hp' & Hst & Hnot & _).
  assert (Hnext : exists k0, k = S k0 /\
            exists k', (k' <= k0)%nat /\ loop led b' rest = Some k').
  { destruct H as [(Hpf & Hlow & Hd) | (j & sj & Hjk & Hsj & Hlow & Hj0 & Hprev & Hd)].
    - assert (Hs : btn_state s = false) by (apply (Hlow 0%nat); [lia | reflexivity]).
      destruct k as [| k0].
      + injection Hsk as <-. specialize (Hnot Hs Hpf). lia.
      + exists k0. split; [reflexivity |].
        apply (IH b' k0 sk Hsk). left.
        rewrite Hs, Hpf in Hst. cbn [negb andb] in Hst.
        split; [now rewrite Hp' |]. split; [| now rewrite Hst].
        intros i s' Hi Hs'. apply (Hlow (S i)); [lia | exact Hs'].
    - destruct k as [| k0]; [lia |].
      exists k0. split; [reflexivity |].
      apply (IH b' k0 sk Hsk).
      destruct j as [| j1].
      + left. injection Hsj as <-.
        assert (Hs : btn_state s = false) by (apply (Hlow 0%nat); [lia | reflexivity]).
        rewrite Hs, (Hj0 eq_refl) in Hst. cbn [negb andb] in Hst.
        split; [now rewrite Hp' |]. split; [| now rewrite Hst].
        intros i s' Hi Hs'. apply (Hlow (S i)); [lia | exact Hs'].
      + right. exists j1, sj. split; [lia |]. split; [exact Hsj |].
        split; [| split; [| split; [| exact Hd]]].
        * intros i s' Hi Hs'. apply (Hlow (S i)); [lia | exact Hs'].
        * intros ->. rewrite Hp'. now apply (Hprev 0%nat).
        * intros j0 s' -> Hs'. now apply (Hprev (S j0)). }
  destruct Hnext as (k0 & -> & k' & Hk' & Hl).
  exists (S k'). split; [lia |]. now rewrite Hl.
Qed.

(** X10.  A long press restarts the device: if the button goes down at turn
    [j] (it was up at the turn before, or [j] is the first turn), is read
    down at every turn from [j] to [k], and the clock at turn [k] is more
    than 10000 ms after the clock at turn [j], the task restarts at turn
    [k] at the latest. *)
Theorem long_press_restarts led samples j k sj sk :
  (j < k)%nat -> samples !! j = Some sj -> samples !! k = Some sk ->
  (forall i s, (j <= i <= k)%nat -> samples !! i = Some s -> btn_state s = false) ->
  (forall j0 s, j = S j0 -> samples !! j0 = Some s -> btn_state s = true) ->
  10000 < ms sk - ms sj ->
  exists k', (k' <= k)%nat /\ loop led released samples = Some k'.
Proof.
  intros Hjk Hsj Hsk Hlow Hprev Hd.
  apply (loop_complete led samples released k sk Hsk). right.
  exists j, sj. repeat split; try assumption.
Qed.

Lemma long_press_restarts_witness :
  exists k', (k' <= 3)%nat /\
    loop false released
      [{| btn_state := true; time_us := 0 |};
       {| btn_state := false; time_us := 500000 |};
       {| btn_state := false; time_us := 10000000 |};
       {| btn_state := false; time_us := 10501000 |}] = Some k'.
Proof.
  apply (long_press_restarts false _ 1 3
           {| btn_state := false; time_us := 500000 |}
           {| btn_state := false; time_us := 10501000 |});
    [lia | reflexivity | reflexivity | | | vm_compute; reflexivity].
  - intros [| [| [| [| i]]]] s Hi; cbn; intros Hs;
      first [lia | injection Hs as <-; reflexivity].
  - intros j0 s [= <-]. cbn. intros Hs. injection Hs as <-. reflexivity.
Defined.


Lemma loop_calls_shape led samples : forall b,
  match loop led b samples with
  | Some _ =>
      exists pre,
        loop_calls led b samples
          = pre ++ [vTaskDelay_ms 2000; wifi_prov_mgr_reset_provisioning_call;
                    vTaskDelay_ms 500; esp_restart_call] /\
        forallb harmless pre = true
  | None => forallb harmless (loop_calls led b samples) = true
  end.
Proof.
  induction samples as [| s rest IH]; intros b; [reflexivity |].
  cbn [loop loop_calls].
  destruct (turn led b s) as [out | [b' out]] eqn:Ht.
  - apply turn_inl in Ht as (_ & _ & _ & pre & -> & Hpre). now exists pre.
  - apply turn_inr in Ht as (_ & _ & _ & Hout).
    specialize (IH b'). destruct (loop led b' rest) as [k |]; cbn [fmap option_fmap option_map].
    + destruct IH as (pre & -> & Hpre). exists (out ++ pre).
      split; [now rewrite <- app_assoc |].
      rewrite forallb_app, Hout, Hpre. reflexivity.
    + rewrite forallb_app, Hout, IH. reflexivity.
Qed.

(** X11.  The provisioning is reset only on the way to a restart: when the
    task restarts, its last calls are the delay of 2000 ms, the reset of
    the provisioning, the delay of 500 ms and [esp_restart], and nothing
    before them resets or restarts; when it does not, it never resets
    the provisioning. *)
Theorem reset_only_before_restart led samples :
  match loop led released samples with
  | Some _ =>
      exists pre,
        ReprovionerTask led samples
          = pre ++ [vTaskDelay_ms 2000; wifi_prov_mgr_reset_provisioning_call;
                    vTaskDelay_ms 500; esp_restart_call] /\
        forallb harmless pre = true
  | None => forallb harmless (ReprovionerTask led samples) = true
  end.
Proof.
  unfold ReprovionerTask.
  pose proof (loop_calls_shape led samples released) as H.
  destruct (loop led released samples) as [k |].
  - destruct H as (pre & -> & Hpre). exists (gpio_config_call :: pre).
    split; [reflexivity | exact Hpre].
  - exact H.
Qed.

End ButtonFacts.

(** ** Topics of the application *)
Module TopicFacts.
Import MQTT.

Lemma Init_ok self will tr st b tb c :
  read64 st "broker" = Some b -> read64 st "topic-base" = Some tb ->
  esp_mqtt_client_init tr (config_of st will) = Some c ->
  esp_mqtt_client_register_event tr (Some c) = ESP_OK ->
  exists st',
    Init self will tr st =
      (ESP_OK,
       {| topic_base_ := tb; fatal_error_ := fatal_error_ self;
          connected_ := connected_ self; led_ := led_ self; client_ := Some c;
          subscriptions_ := subscriptions_ self |},
       st',
       [init_call (config_of st will) (Some c);
        register_event_call (Some c) ESP_OK]).
Proof.
  unfold Init, config_of, read64.
  destruct (NvsHandle.Open NvsHandle.new "mqtt" Nvs.NVS_READONLY st)
    as [[eo handle] s1].
  pose proof (MQTTFacts.GetString_cases handle "broker" 64 s1) as Hb.
  pose proof (MQTTFacts.GetString_cases handle "username" 64 s1) as Hu.
  pose proof (MQTTFacts.GetString_cases handle "password" 64 s1) as Hp.
  pose proof (MQTTFacts.GetString_cases handle "topic-base" 64 s1) as Ht.
  destruct (NvsHandle.GetString handle "broker" true 64 s1) as [[eb ob] lb].
  destruct (NvsHandle.GetString handle "username" true 64 s1) as [[eu ou] lu].
  destruct (NvsHandle.GetString handle "password" true 64 s1) as [[ep op] lp].
  destruct (NvsHandle.GetString handle "topic-base" true 64 s1) as [[et ot] lt].
  assert (Hou : (if eu =? ESP_OK then ou else None) = ou)
    by (destruct Hu as [[-> _] | [-> ->]]; reflexivity).
  assert (Hop : (if ep =? ESP_OK then op else None) = op)
    by (destruct Hp as [[-> _] | [-> ->]]; reflexivity).
  rewrite Hou, Hop.
  destruct Hb as [[-> _] | [-> ->]]; [| discriminate].
  destruct Ht as [[-> _] | [-> ->]]; [| discriminate].
  intros -> ->. cbn [negb default]. intros Hc Hr.
  rewrite Hc, Hr. change (negb (ESP_OK =? ESP_OK)) with false. cbn iota.
  eexists. reflexivity.
Qed.

(** X12.  After a successful [Init], the application's prefixed topics carry
    the topic base read from the store: a subscription added with
    [App::AddSubscription] is subscribed, at the next
    [MQTT_EVENT_CONNECTED], under the stored base followed by the topic
    (after the subscriptions added before), and [App::PublishMessage]
    publishes under the same base through the client that the transport
    returned to [Init]. *)
Theorem prefixed_topics_after_Init self u will tr st b tb c t q data retain event :
  read64 st "broker" = Some b -> read64 st "topic-base" = Some tb ->
  esp_mqtt_client_init tr (config_of st will) = Some c ->
  esp_mqtt_client_register_event tr (Some c) = ESP_OK ->
  event_id event = MQTT_EVENT_CONNECTED ->
  let ctx :=
    {| App.mqtt_ := snd (fst (fst (Init self will tr st)));
       App.updater_ := u |} in
  let topic' := String.append tb t in
  snd (EventHandler (App.mqtt_ (AppTasks.AddSubscription ctx t true q)) tr event)
    = EventHandler_call MQTT_EVENT_CONNECTED ::
      subscribe_all tr (client event) (subscriptions_ self) ++
      [subscribe_call (client event) topic' q
         (esp_mqtt_client_subscribe tr (client event) topic' q)] /\
  App.PublishMessage ctx tr t data true q retain
    = (esp_mqtt_client_publish tr (Some c) topic' data 0 q retain,
       [publish_call (Some c) topic' data 0 q retain
          (esp_mqtt_client_publish tr (Some c) topic' data 0 q retain)]).
Proof.
  intros Hb Ht Hc Hr Hev. cbn zeta.
  destruct (Init_ok self will tr st b tb c Hb Ht Hc Hr) as (st' & ->).
  cbn [fst snd]. split.
  - unfold EventHandler. rewrite Hev.
    cbn [AppTasks.AddSubscription App.mqtt_ AddSubscription subscriptions_
           Prefixed topic_base_ snd].
    unfold subscribe_all. rewrite map_app. reflexivity.
  - reflexivity.
Qed.

Lemma prefixed_topics_after_Init_witness :
  let ctx :=
    {| App.mqtt_ :=
         snd (fst (fst (Init MQTT.new None Fixtures.offline Fixtures.configured)));
       App.updater_ := Updater.new |} in
  snd (EventHandler (App.mqtt_ (AppTasks.AddSubscription ctx "test/#" true 1))
         Fixtures.offline (Fixtures.an_event MQTT_EVENT_CONNECTED))
    = [EventHandler_call MQTT_EVENT_CONNECTED;
       subscribe_call 1%N "fh/es2/test/#" 1 (-1)] /\
  App.PublishMessage ctx Fixtures.offline "ping" "Hello MQTT" true 1 0
    = (-1, [publish_call (Some 1%N) "fh/es2/ping" "Hello MQTT" 0 1 0 (-1)]).
Proof.
  split.
  - exact (proj1 (prefixed_topics_after_Init MQTT.new Updater.new None
             Fixtures.offline Fixtures.configured "mqtt://192.168.86.30"
             "fh/es2/" 1%N "test/#" 1 "" 0
             (Fixtures.an_event MQTT_EVENT_CONNECTED)
             eq_refl eq_refl eq_refl eq_refl eq_refl)).
  - exact (proj2 (prefixed_topics_after_Init MQTT.new Updater.new None
             Fixtures.offline Fixtures.configured "mqtt://192.168.86.30"
             "fh/es2/" 1%N "ping" 1 "Hello MQTT" 0
             (Fixtures.an_event MQTT_EVENT_CONNECTED)
             eq_refl eq_refl eq_refl eq_refl eq_refl)).
Defined.


(** X13.  A subscription that is added before [Init] keeps the prefix the
    client had then: [Init], whether it succeeds or fails, leaves the
    registered subscriptions as they are. *)
Theorem Init_keeps_subscriptions ctx will tr st t q :
  subscriptions_
    (snd (fst (fst (Init (App.mqtt_ (AppTasks.AddSubscription ctx t true q))
                      will tr st))))
  = subscriptions_ (App.mqtt_ ctx) ++
    [{| topic := String.append (topic_base_ (App.mqtt_ ctx)) t; qos := q |}].
Proof.
  set (m := App.mqtt_ (AppTasks.AddSubscription ctx t true q)).
  assert (Hm : subscriptions_ m = subscriptions_ (App.mqtt_ ctx) ++
    [{| topic := String.append (topic_base_ (App.mqtt_ ctx)) t; qos := q |}])
    by reflexivity.
  rewrite <- Hm. clearbody m. clear Hm.
  unfold Init.
  destruct (NvsHandle.Open NvsHandle.new "mqtt" Nvs.NVS_READONLY st)
    as [[eo handle] s1].
  destruct (NvsHandle.GetString handle "broker" true 64 s1) as [[eb ob] lb].
  destruct (negb (eb =? ESP_OK)); [reflexivity |].
  destruct (NvsHandle.GetString handle "username" true 64 s1) as [[eu ou] lu].
  destruct (NvsHandle.GetString handle "password" true 64 s1) as [[ep op] lp].
  destruct (NvsHandle.GetString handle "topic-base" true 64 s1) as [[et ot] lt].
  destruct (negb (et =? ESP_OK)); [reflexivity |].
  cbv zeta.
  match goal with
  | |- context [esp_mqtt_client_init tr ?c] => set (cfg := c)
  end.
  destruct (esp_mqtt_client_init tr cfg) as [c |]; [| reflexivity].
  now destruct (negb (esp_mqtt_client_register_event tr (Some c) =? ESP_OK)).
Qed.

End TopicFacts.

(** ** The configuration routes: get-key, and set-key before get-key *)
Module ConfigReadFacts.
Import Nvs NvsHandle Httpd ConfigWebServices ConfigReadServices.

Lemma Open_readonly_content self ns st :
  let '(_, _, st') := Open self ns NVS_READONLY st in
  view st' = view st /\ stored st' = stored st.
Proof.
  unfold Open, nvs_open. cbn [view called].
  destruct (view st !! ns); split; reflexivity.
Qed.

Lemma destroy_content self st :
  view (destroy self st) = view st /\ stored (destroy self st) = stored st.
Proof.
  unfold destroy, Close. destruct (handle_ self =? 0)%N; split; reflexivity.
Qed.

(** [JsonNode] either answers -- with the object, or with [ESP_FAIL]
    after one error response -- or it reads the buffer that the encoder
    has left unwritten, which happens exactly on a blob of length 0. *)
Lemma JsonNode_answers enc json handle key nvs_type st :
  match JsonNode enc json handle key nvs_type st with
  | Some (inl (err, out)) => err = ESP_FAIL /\ is_error out
  | Some (inr _) => True
  | None => find (handle_ handle) key st = inr (ItemBlob [])
  end.
Proof.
  assert (Hfail : forall message,
    match failed message with
    | Some (inl (err, out)) => err = ESP_FAIL /\ is_error out
    | Some (inr _) => True
    | None => find (handle_ handle) key st = inr (ItemBlob [])
    end).
  { intros message. split; [reflexivity | now exists message]. }
  assert (Hfind : forall code,
    find (handle_ handle) key st = inl code -> negb (code =? ESP_OK) = true).
  { unfold find. intros code.
    destruct (handles st !! handle_ handle) as [[ns mode] |];
      [| now intros [= <-]].
    destruct (items st ns !! key); [discriminate | now intros [= <-]]. }
  unfold JsonNode.
  destruct (TypeName nvs_type) as [err typeName] eqn:Hname.
  destruct (negb (err =? ESP_OK)); [apply Hfail |].
  destruct (find (handle_ handle) key st) as [code | it] eqn:Hf.
  - specialize (Hfind code eq_refl).
    destruct nvs_type; try apply Hfail;
      unfold GetInt, nvs_get_int, GetString, nvs_get_str, GetBlob, nvs_get_blob;
      rewrite Hf; cbn [fmap option_fmap option_map]; rewrite Hfind; apply Hfail.
  - clear Hfind.
    destruct nvs_type; try apply Hfail;
      unfold GetInt, nvs_get_int, GetString, nvs_get_str, GetBlob, nvs_get_blob;
      rewrite Hf; destruct it as [ty v | s | b]; try apply Hfail;
      try (match goal with
           | |- context [nvs_type_eqb ?a ?b] => destruct (nvs_type_eqb a b)
           end; cbn [fmap option_fmap option_map]; try apply Hfail;
           change (negb (ESP_OK =? ESP_OK)) with false; cbn iota;
           exact I).
    + cbn [negb]. change (negb (ESP_OK =? ESP_OK)) with false. cbn iota.
      rewrite Nat.ltb_irrefl.
      change (negb (ESP_OK =? ESP_OK)) with false. cbn iota.
      exact I.
    + cbn [negb]. change (negb (ESP_OK =? ESP_OK)) with false. cbn iota.
      rewrite Nat.ltb_irrefl.
      change (negb (ESP_OK =? ESP_OK)) with false. cbn iota.
      destruct b as [| x b]; cbn [mbedtls_base64_encode];
        [reflexivity |].
      destruct (enc _ (x :: b)); [exact I | apply Hfail].
Qed.

(** X14.  The get-key route answers a request exactly once and changes
    nothing in the store: it returns [ESP_OK] after one JSON reply, or
    [ESP_FAIL] after one error response, and the content of the store
    (what is visible and what is on the medium) is as before.  The one
    request it does not answer in a defined way is the one for a key
    that holds a blob of length 0: there it reads the buffer that the
    encoder has left unwritten. *)
Theorem DoConfigGetKey_answers enc print req st :
  match DoConfigGetKey enc print req st with
  | Some (err, out, st') =>
      view st' = view st /\ stored st' = stored st /\
      ((err = ESP_OK /\ is_json_reply out) \/ (err = ESP_FAIL /\ is_error out))
  | None =>
      exists q ns key,
        url_query req = Some q /\
        assoc "namespace" q = Some ns /\ assoc "key" q = Some key /\
        ConfigListServices.item_at st ns key = Some (ItemBlob [])
  end.
Proof.
  assert (Hfail : forall message s,
    view s = view st -> stored s = stored st ->
    match fail message s with
    | Some (err, out, st') =>
        view st' = view st /\ stored st' = stored st /\
        ((err = ESP_OK /\ is_json_reply out) \/ (err = ESP_FAIL /\ is_error out))
    | None =>
        exists q ns key,
          url_query req = Some q /\
          assoc "namespace" q = Some ns /\ assoc "key" q = Some key /\
          ConfigListServices.item_at st ns key = Some (ItemBlob [])
    end).
  { intros message s Hv Hs. cbn [fail].
    split; [exact Hv |]. split; [exact Hs |].
    right. split; [reflexivity | now exists message]. }
  unfold DoConfigGetKey, httpd_req_get_url_query_str.
  destruct (url_query req) as [q |] eqn:Hq; [| now apply Hfail].
  destruct (query_strlen q <? 1024)%nat; [| now apply Hfail].
  unfold GetNameSpace, GetKey, httpd_query_key_value.
  destruct (assoc "namespace" q) as [name_space |] eqn:Hns;
    [| repeat split; right; split; [reflexivity | eexists; reflexivity]].
  destruct (String.length name_space <? 32)%nat;
    [| repeat split; right; split; [reflexivity | eexists; reflexivity]].
  destruct (assoc "key" q) as [key |] eqn:Hkey;
    [| repeat split; right; split; [reflexivity | eexists; reflexivity]].
  destruct (String.length key <? 32)%nat;
    [| repeat split; right; split; [reflexivity | eexists; reflexivity]].
  destruct (view st !! name_space) as [m |] eqn:Hm.
  - destruct (EraseFacts.Open_existing NvsHandle.new name_space NVS_READONLY
                st m Hm) as (h & so & -> & _ & _ & Hv & Hs & _ & Hfind).
    change (negb (ESP_OK =? ESP_OK)) with false. cbn iota.
    pose proof (destroy_content h so) as [Hdv Hds].
    rewrite Hv in Hdv. rewrite Hs in Hds.
    unfold FindKey, nvs_find_key. specialize (Hfind key).
    destruct (m !! key) as [it |] eqn:Hit; rewrite Hfind;
      [| now apply Hfail].
    change (negb (ESP_OK =? ESP_OK)) with false. cbn iota.
    pose proof (JsonNode_answers enc [] h key (item_type it) so) as HJ.
    destruct (JsonNode enc [] h key (item_type it) so)
      as [[[e out] | response] |].
    + destruct HJ as [-> Hout].
      split; [exact Hdv |]. split; [exact Hds |]. right. now split.
    + split; [exact Hdv |]. split; [exact Hds |]. left.
      split; [reflexivity | eexists; reflexivity].
    + exists q, name_space, key.
      split; [reflexivity |]. split; [exact Hns |]. split; [exact Hkey |].
      unfold ConfigListServices.item_at. rewrite Hm, Hit.
      rewrite Hfind in HJ. now injection HJ as ->.
  - pose proof (Open_readonly_content NvsHandle.new name_space st) as HO.
    assert (HE : fst (fst (Open NvsHandle.new name_space NVS_READONLY st))
                 = ESP_ERR_NVS_NOT_FOUND).
    { unfold Open, nvs_open. cbn [view called]. now rewrite Hm. }
    destruct (Open NvsHandle.new name_space NVS_READONLY st) as [[e h] so].
    cbn [fst] in HE. subst e. destruct HO as [Hv Hs].
    pose proof (destroy_content h so) as [Hdv Hds].
    rewrite Hv in Hdv. rewrite Hs in Hds.
    change (negb (ESP_ERR_NVS_NOT_FOUND =? ESP_OK)) with true. cbn iota.
    now apply Hfail.
Qed.

Lemma Open_readwrite ns st :
  exists h so,
    Open NvsHandle.new ns NVS_READWRITE st = (ESP_OK, h, so) /\
    handle_ h <> 0%N /\
    handles so !! handle_ h = Some (ns, NVS_READWRITE) /\
    refuse so = refuse st.
Proof.
  unfold Open, nvs_open. cbn [view called next_handle].
  destruct (view st !! ns); eexists _, _; (split; [reflexivity |]);
    cbn [handle_ handles with_handles with_view called refuse];
    (split; [lia |]); (split; [apply lookup_insert_eq | reflexivity]).
Qed.

(** The end of the set route once the handle is open: set, commit, reply,
    close. *)
Lemma set_tail h so ns key it :
  handle_ h <> 0%N ->
  handles so !! handle_ h = Some (ns, NVS_READWRITE) ->
  refuse so ns key it = None ->
  exists s1 s2 m,
    nvs_set (handle_ h) key it so = (ESP_OK, s1) /\
    commit_and_reply h s1 = Some (ESP_OK, Reply configuration_set, s2) /\
    view s2 !! ns = Some m /\ m !! key = Some it /\
    on_medium s2 ns key = Some it.
Proof.
  intros Hh Hrw Hok.
  rewrite (NvsFacts.nvs_set_ok _ _ _ _ ns Hrw Hok).
  eexists _, _, _. split; [reflexivity |].
  unfold commit_and_reply, Commit.
  erewrite NvsFacts.nvs_commit_ok by exact Hrw.
  change (negb (ESP_OK =? ESP_OK)) with false. cbn iota.
  split; [reflexivity |].
  unfold destroy, Close. apply N.eqb_neq in Hh. rewrite Hh.
  unfold on_medium.
  cbn [view stored nvs_close with_handles called with_view with_stored].
  split; [apply lookup_insert_eq |]. split; [apply lookup_insert_eq |].
  rewrite lookup_insert_eq.
  erewrite NvsFacts.items_with_view by apply lookup_insert_eq.
  apply lookup_insert_eq.
Qed.

Section Request.
Variables (req : httpd_req) (q : list (string * string)) (ns key : string).
Hypothesis Hq : url_query req = Some q.
Hypothesis Hlen : (query_strlen q < 1024)%nat.
Hypothesis Hns : assoc "namespace" q = Some ns.
Hypothesis Hnslen : (String.length ns < 32)%nat.
Hypothesis Hkey : assoc "key" q = Some key.
Hypothesis Hkeylen : (String.length key < 32)%nat.

(** The get route on a stored item: the namespace is opened, the item is
    found, and the reply is what [JsonNode] makes of it. *)
Lemma get_stored enc print st m it :
  view st !! ns = Some m -> m !! key = Some it ->
  exists h so,
    find (handle_ h) key so = inr it /\
    DoConfigGetKey enc print req st =
      match JsonNode enc [] h key (item_type it) so with
      | None => None
      | Some (inl (err, out)) => Some (ESP_FAIL, out, destroy h so)
      | Some (inr response) =>
          Some (ESP_OK, ReplyJson (print (cJSON_Object response)), destroy h so)
      end.
Proof.
  intros Hv Hit.
  unfold DoConfigGetKey, httpd_req_get_url_query_str. rewrite Hq.
  pose proof Hlen as Hlen'. apply Nat.ltb_lt in Hlen'. rewrite Hlen'.
  unfold GetNameSpace, GetKey, httpd_query_key_value. rewrite Hns, Hkey.
  pose proof Hnslen as H1. pose proof Hkeylen as H2.
  apply Nat.ltb_lt in H1, H2. rewrite H1, H2.
  destruct (EraseFacts.Open_existing NvsHandle.new ns NVS_READONLY st m Hv)
    as (h & so & -> & _ & _ & _ & _ & _ & Hfind).
  change (negb (ESP_OK =? ESP_OK)) with false. cbn iota.
  exists h, so. specialize (Hfind key). rewrite Hit in Hfind.
  split; [exact Hfind |].
  unfold FindKey, nvs_find_key. rewrite Hfind.
  change (negb (ESP_OK =? ESP_OK)) with false. cbn iota. reflexivity.
Qed.

Hypothesis Hrecv : 0 <= received req.
Hypothesis Hclen : received req = content_len req.

Lemma set_route_opens dec st :
  DoConfigSetKey dec req st =
    match body req with
    | None => fail "Failed to parse JSON" st
    | Some json =>
        match cJSON_GetObjectItemCaseSensitive json "type" with
        | Some (cJSON_String type_string) =>
            let '(err, nvs_type) := TypeOf type_string in
            if negb (err =? ESP_OK) then fail "Unknown type" st else
            let '(err, my_handle, st) :=
              Open NvsHandle.new ns NVS_READWRITE st in
            if negb (err =? ESP_OK)
            then fail "Failed to open NVS handle" (destroy my_handle st)
            else
              match cJSON_GetObjectItemCaseSensitive json "value" with
              | Some (cJSON_Number number) =>
                  match int_range nvs_type with
                  | None =>
                      fail "Invalid type for integer value" (destroy my_handle st)
                  | Some _ =>
                      match valueint number with
                      | None => None
                      | Some i =>
                          match SetInt my_handle key nvs_type (Double.of_Z i) st with
                          | None => None
                          | Some (err, st) =>
                              if negb (err =? ESP_OK)
                              then fail "Failed to set integer value"
                                     (destroy my_handle st)
                              else commit_and_reply my_handle st
                          end
                      end
                  end
              | Some (cJSON_String valuestring) =>
                  match nvs_type with
                  | NVS_TYPE_STR =>
                      let '(err, st) := SetString my_handle key valuestring st in
                      if negb (err =? ESP_OK)
                      then fail "Failed to set string value" (destroy my_handle st)
                      else commit_and_reply my_handle st
                  | NVS_TYPE_BLOB =>
                      match dec valuestring with
                      | None =>
                          fail "Failed to decode base64 value" (destroy my_handle st)
                      | Some dec64 =>
                          let '(err, st) := SetBlob my_handle key dec64 st in
                          if negb (err =? ESP_OK)
                          then fail "Failed to set string value"
                                 (destroy my_handle st)
                          else commit_and_reply my_handle st
                      end
                  | _ => fail "Invalid type for string value" (destroy my_handle st)
                  end
              | _ => fail "Failed to parse value" (destroy my_handle st)
              end
        | _ => fail "Failed to parse type" st
        end
    end.
Proof.
  unfold DoConfigSetKey, httpd_req_get_url_query_str. rewrite Hq.
  assert (Hlen' : (query_strlen q <? 4096)%nat = true)
    by (apply Nat.ltb_lt; lia).
  rewrite Hlen'.
  unfold GetNameSpace, GetKey, httpd_query_key_value. rewrite Hns, Hkey.
  pose proof Hnslen as H1. pose proof Hkeylen as H2.
  apply Nat.ltb_lt in H1, H2. rewrite H1, H2.
  unfold Receive.
  replace (received req <? 0) with false by (symmetry; apply Z.ltb_ge; lia).
  rewrite Hclen, Z.eqb_refl. cbn [negb]. reflexivity.
Qed.

(** X15.  A string that the set route has stored is returned by the get
    route: for the same namespace and key, the set request is answered
    "Configuration set" and the get request that follows is answered
    with the JSON object of type "string" and that very value. *)
Theorem set_then_get_string dec enc print json v st :
  body req = Some json ->
  cJSON_GetObjectItemCaseSensitive json "type" = Some (cJSON_String "string") ->
  cJSON_GetObjectItemCaseSensitive json "value" = Some (cJSON_String v) ->
  refuse st ns key (ItemStr v) = None ->
  exists st1 st2,
    DoConfigSetKey dec req st = Some (ESP_OK, Reply configuration_set, st1) /\
    DoConfigGetKey enc print req st1 =
      Some (ESP_OK,
            ReplyJson
              (print (cJSON_Object [("type"%string, cJSON_String "string");
                                    ("value"%string, cJSON_String v)])),
            st2).
Proof.
  intros Hbody Hty Hval Hok.
  rewrite set_route_opens, Hbody, Hty, Hval.
  change (TypeOf "string") with (ESP_OK, NVS_TYPE_STR).
  change (negb (ESP_OK =? ESP_OK)) with false. cbn iota.
  destruct (Open_readwrite ns st) as (h & so & -> & Hh & Hrw & Hre).
  change (negb (ESP_OK =? ESP_OK)) with false. cbn iota.
  destruct (set_tail h so ns key (ItemStr v) Hh Hrw)
    as (s1 & s2 & m & Hset & Hcr & Hv & Hit & _); [now rewrite Hre |].
  unfold SetString. rewrite Hset.
  change (negb (ESP_OK =? ESP_OK)) with false. cbn iota.
  rewrite Hcr.
  destruct (get_stored enc print s2 m (ItemStr v) Hv Hit) as (h2 & so2 & Hf & Hget).
  exists s2, (destroy h2 so2). split; [reflexivity |]. rewrite Hget.
  cbn [item_type]. unfold JsonNode. cbn [TypeName].
  change (negb (ESP_OK =? ESP_OK)) with false. cbn iota.
  unfold GetString, nvs_get_str. rewrite Hf. cbn [negb].
  change (negb (ESP_OK =? ESP_OK)) with false. cbn iota.
  rewrite Nat.ltb_irrefl.
  change (negb (ESP_OK =? ESP_OK)) with false. cbn iota.
  reflexivity.
Qed.

Lemma valueint_range d i : valueint d = Some i -> INT_MIN <= i <= INT_MAX.
Proof.
  unfold valueint.
  destruct (SFleb (Double.of_Z INT_MAX) d);
    [intros [= <-]; unfold INT_MIN, INT_MAX; lia |].
  destruct (SFleb d (Double.of_Z INT_MIN));
    [intros [= <-]; unfold INT_MIN, INT_MAX; lia |].
  unfold Double.to_int. destruct (Double.trunc d) as [z |]; [| discriminate].
  destruct ((INT_MIN <=? z) && (z <=? INT_MAX)) eqn:E; [| discriminate].
  intros [= <-]. apply andb_prop in E as [E1 E2].
  apply Z.leb_le in E1, E2. lia.
Qed.

(** X16.  A number that the set route has stored is returned by the get
    route.  The number reaches the store as the [int] that cJSON made of
    it; when that [int] lies in the range of the requested type, the get
    request that follows is answered with the requested type name and
    that integer. *)
Theorem set_then_get_number dec enc print json type_string type range d i st :
  body req = Some json ->
  cJSON_GetObjectItemCaseSensitive json "type"
    = Some (cJSON_String type_string) ->
  cJSON_GetObjectItemCaseSensitive json "value" = Some (cJSON_Number d) ->
  TypeOf type_string = (ESP_OK, type) ->
  int_range type = Some range ->
  valueint d = Some i -> fst range <= i <= snd range ->
  refuse st ns key (ItemInt type i) = None ->
  exists st1 st2,
    DoConfigSetKey dec req st = Some (ESP_OK, Reply configuration_set, st1) /\
    DoConfigGetKey enc print req st1 =
      Some (ESP_OK,
            ReplyJson
              (print (cJSON_Object
                        [("type"%string, cJSON_String type_string);
                         ("value"%string, cJSON_Number (Double.of_Z i))])),
            st2).
Proof.
  intros Hbody Hty Hval Htype Hrange Hint Hin Hok.
  rewrite set_route_opens, Hbody, Hty, Hval, Htype.
  change (negb (ESP_OK =? ESP_OK)) with false. cbn iota.
  destruct (Open_readwrite ns st) as (h & so & -> & Hh & Hrw & Hre).
  change (negb (ESP_OK =? ESP_OK)) with false. cbn iota.
  rewrite Hrange, Hint.
  destruct range as [lo hi]. cbn [fst snd] in Hin.
  pose proof (valueint_range d i Hint) as Hi.
  rewrite ConfigStoreFacts.SetInt_of_Z;
    [| unfold well_typed; now rewrite Hrange
     | apply DoubleFacts.small_representable;
       unfold INT_MIN, INT_MAX in Hi; lia].
  destruct (set_tail h so ns key (ItemInt type i) Hh Hrw)
    as (s1 & s2 & m & Hset & Hcr & Hv & Hit & _); [now rewrite Hre |].
  rewrite Hset.
  change (negb (ESP_OK =? ESP_OK)) with false. cbn iota.
  rewrite Hcr.
  destruct (get_stored enc print s2 m (ItemInt type i) Hv Hit)
    as (h2 & so2 & Hf & Hget).
  exists s2, (destroy h2 so2). split; [reflexivity |]. rewrite Hget.
  cbn [item_type]. unfold JsonNode.
  rewrite (TypeNameFacts.TypeOf_name type_string type Htype).
  change (negb (ESP_OK =? ESP_OK)) with false. cbn iota.
  assert (HG : GetInt h2 key type so2 = (ESP_OK, Some (Double.of_Z i))).
  { unfold GetInt, nvs_get_int. rewrite Hf, NvsFacts.nvs_type_eqb_refl.
    destruct type; try discriminate Hrange; reflexivity. }
  destruct type; try discriminate Hrange; rewrite HG;
    change (negb (ESP_OK =? ESP_OK)) with false; cbn iota;
    reflexivity.
Qed.


(** X18.  A key that is not in the store: the get route answers with an
    error, "Failed to open NVS handle" when the namespace does not exist
    and "Failed to find key" when it does, and creates nothing. *)
Theorem DoConfigGetKey_missing enc print st :
  match view st !! ns with
  | Some m => m !! key = None
  | None => True
  end ->
  exists st',
    DoConfigGetKey enc print req st =
      Some (ESP_FAIL,
            SendError HTTPD_500_INTERNAL_SERVER_ERROR
              match view st !! ns with
              | Some _ => "Failed to find key"
              | None => "Failed to open NVS handle"
              end,
            st') /\
    view st' = view st /\ stored st' = stored st.
Proof.
  intros Hmiss.
  unfold DoConfigGetKey, httpd_req_get_url_query_str. rewrite Hq.
  pose proof Hlen as Hlen'. apply Nat.ltb_lt in Hlen'. rewrite Hlen'.
  unfold GetNameSpace, GetKey, httpd_query_key_value. rewrite Hns, Hkey.
  pose proof Hnslen as H1. pose proof Hkeylen as H2.
  apply Nat.ltb_lt in H1, H2. rewrite H1, H2.
  destruct (view st !! ns) as [m |] eqn:Hv.
  - destruct (EraseFacts.Open_existing NvsHandle.new ns NVS_READONLY st m Hv)
      as (h & so & -> & _ & _ & Hvo & Hso & _ & Hfind).
    change (negb (ESP_OK =? ESP_OK)) with false. cbn iota.
    unfold FindKey, nvs_find_key. rewrite Hfind, Hmiss.
    eexists. split; [reflexivity |].
    destruct (destroy_content h so) as [-> ->]. now split.
  - unfold Open, nvs_open. cbn [view called]. rewrite Hv.
    eexists. split; [reflexivity |]. split; reflexivity.
Qed.

(** X19.  The delete-key route opens the namespace for writing, and that
    creates it: a request for a namespace of a valid name (1 to 15
    characters) that does not exist is answered "Failed to delete key",
    and afterwards the namespace exists, empty.  (The store is taken to
    have room for the new namespace.) *)
Theorem failed_delete_creates_namespace st :
  (0 < String.length ns <= 15)%nat ->
  view st !! ns = None ->
  exists st',
    DoConfigDeleteKey req st =
      (ESP_FAIL,
       SendError HTTPD_500_INTERNAL_SERVER_ERROR "Failed to delete key", st') /\
    view st' = <[ns := ∅]> (view st).
Proof.
  intros Hname Hv.
  unfold DoConfigDeleteKey, httpd_req_get_url_query_str. rewrite Hq.
  pose proof Hlen as Hlen'. apply Nat.ltb_lt in Hlen'. rewrite Hlen'.
  unfold GetNameSpace, GetKey, httpd_query_key_value. rewrite Hns, Hkey.
  pose proof Hnslen as H1. pose proof Hkeylen as H2.
  apply Nat.ltb_lt in H1, H2. rewrite H1, H2.
  unfold Open, nvs_open. cbn [view called next_handle]. rewrite Hv.
  change (negb (ESP_OK =? ESP_OK)) with false. cbn iota.
  unfold EraseKey, nvs_erase_key.
  cbn [handle_ handles with_handles with_view called].
  rewrite lookup_insert_eq.
  unfold items. cbn [view with_handles with_view called].
  rewrite lookup_insert_eq, lookup_empty.
  eexists. split; [reflexivity |].
  unfold destroy, Close. cbn [handle_].
  replace (next_handle st + 1 =? 0)%N with false by (symmetry; apply N.eqb_neq; lia).
  reflexivity.
Qed.

End Request.

Lemma set_then_get_string_witness :
  let req := Requests.request Requests.broker_query "string" (cJSON_String "mqtt://10.0.0.5") in
  exists st1 st2,
    DoConfigSetKey (fun _ => None) req blank
      = Some (ESP_OK, Reply configuration_set, st1) /\
    DoConfigGetKey (fun _ _ => None) (fun _ => "{}"%string) req st1 =
      Some (ESP_OK, ReplyJson "{}", st2).
Proof.
  exact (set_then_get_string
           (Requests.request Requests.broker_query "string" (cJSON_String "mqtt://10.0.0.5"))
           Requests.broker_query "mqtt" "broker"
           eq_refl ltac:(cbn; lia) eq_refl ltac:(cbn; lia) eq_refl ltac:(cbn; lia)
           ltac:(cbn; lia) eq_refl
           (fun _ => None) (fun _ _ => None) (fun _ => "{}"%string)
           (cJSON_Object
              [("type"%string, cJSON_String "string");
               ("value"%string, cJSON_String "mqtt://10.0.0.5")])
           "mqtt://10.0.0.5" blank eq_refl eq_refl eq_refl eq_refl).
Defined.

Lemma set_then_get_number_witness :
  let req := Requests.request Requests.count_query "uint8" (cJSON_Number (Double.of_Z 200)) in
  exists st1 st2,
    DoConfigSetKey (fun _ => None) req Fixtures.configured
      = Some (ESP_OK, Reply configuration_set, st1) /\
    DoConfigGetKey (fun _ _ => None) (fun _ => "{}"%string) req st1 =
      Some (ESP_OK, ReplyJson "{}", st2).
Proof.
  exact (set_then_get_number
           (Requests.request Requests.count_query "uint8" (cJSON_Number (Double.of_Z 200)))
           Requests.count_query "app" "count"
           eq_refl ltac:(cbn; lia) eq_refl ltac:(cbn; lia) eq_refl ltac:(cbn; lia)
           ltac:(cbn; lia) eq_refl
           (fun _ => None) (fun _ _ => None) (fun _ => "{}"%string)
           (cJSON_Object
              [("type"%string, cJSON_String "uint8");
               ("value"%string, cJSON_Number (Double.of_Z 200))])
           "uint8" NVS_TYPE_U8 (0, 2 ^ 8 - 1) (Double.of_Z 200) 200
           Fixtures.configured eq_refl eq_refl eq_refl eq_refl eq_refl eq_refl
           ltac:(cbn; lia) eq_refl).
Defined.


Lemma DoConfigGetKey_missing_witness :
  exists st',
    DoConfigGetKey (fun _ _ => None) (fun _ => "{}"%string)
      (Requests.query_only Requests.count_query) Fixtures.configured =
      Some (ESP_FAIL,
            SendError HTTPD_500_INTERNAL_SERVER_ERROR "Failed to open NVS handle",
            st') /\
    view st' = view Fixtures.configured /\
    stored st' = stored Fixtures.configured.
Proof.
  exact (DoConfigGetKey_missing (Requests.query_only Requests.count_query) Requests.count_query "app" "count"
           eq_refl ltac:(cbn; lia) eq_refl ltac:(cbn; lia) eq_refl ltac:(cbn; lia)
           (fun _ _ => None) (fun _ => "{}"%string) Fixtures.configured I).
Defined.

Lemma failed_delete_creates_namespace_witness :
  exists st',
    DoConfigDeleteKey (Requests.query_only Requests.count_query) Fixtures.configured =
      (ESP_FAIL,
       SendError HTTPD_500_INTERNAL_SERVER_ERROR "Failed to delete key", st') /\
    view st' = <[("app"%string) := ∅]> (view Fixtures.configured).
Proof.
  exact (failed_delete_creates_namespace (Requests.query_only Requests.count_query) Requests.count_query
           "app" "count"
           eq_refl ltac:(cbn; lia) eq_refl ltac:(cbn; lia) eq_refl ltac:(cbn; lia)
           Fixtures.configured ltac:(cbn; lia) eq_refl).
Defined.

(** X20.  The set route stays in the namespace that its request names:
    for every request that the handler runs to an answer (one that does
    not reach an undefined conversion), whatever its query and body and
    whether it is answered with success or with an error, every
    namespace that the query does not name is as before, in the view and
    on the medium. *)
Theorem set_route_frame dec req st err out st' ns' :
  DoConfigSetKey dec req st = Some (err, out, st') ->
  (forall q, url_query req = Some q -> assoc "namespace" q <> Some ns') ->
  view st' !! ns' = view st !! ns' /\ stored st' !! ns' = stored st !! ns'.
Proof.
  intros H Hother. revert H.
  set (framed := fun s : state =>
         stored s !! ns' = stored st !! ns' /\ view s !! ns' = view st !! ns').
  set (P := view st' !! ns' = view st !! ns' /\
            stored st' !! ns' = stored st !! ns').
  assert (Hdestroy : forall h s, framed s -> framed (destroy h s)).
  { intros h s [Hs Hv]. destruct (destroy_content h s) as [Hdv Hds].
    split; [now rewrite Hds | now rewrite Hdv]. }
  assert (Hfail : forall message s,
            framed s -> fail message s = Some (err, out, st') -> P).
  { intros message s [Hs Hv] [= <- <- <-]. now split. }
  assert (Hst : framed st) by (split; reflexivity).
  unfold DoConfigSetKey, httpd_req_get_url_query_str.
  destruct (url_query req) as [q |] eqn:Hq; [| now apply Hfail].
  destruct (query_strlen q <? 4096)%nat; [| now apply Hfail].
  unfold GetNameSpace, GetKey, httpd_query_key_value.
  destruct (assoc "namespace" q) as [ns |] eqn:Hns;
    [| intros [= <- <- <-]; now split].
  assert (Hne : ns' <> ns) by (intros ->; now apply (Hother q eq_refl)).
  destruct (String.length ns <? 32)%nat; [| intros [= <- <- <-]; now split].
  destruct (assoc "key" q) as [key |]; [| intros [= <- <- <-]; now split].
  destruct (String.length key <? 32)%nat; [| intros [= <- <- <-]; now split].
  assert (Htail : forall it message h so,
            framed so -> handles so !! handle_ h = Some (ns, NVS_READWRITE) ->
            (let '(e, s1) := nvs_set (handle_ h) key it so in
             if negb (e =? ESP_OK) then fail message (destroy h s1)
             else commit_and_reply h s1) = Some (err, out, st') -> P).
  { intros it message h so [Hs Hv] Hrw.
    unfold nvs_set. cbn [handles called refuse]. rewrite Hrw.
    destruct (refuse so ns key it) as [r |].
    - replace (negb (refusal_code r =? ESP_OK)) with true by now destruct r.
      apply Hfail, Hdestroy. split; [exact Hs | exact Hv].
    - change (negb (ESP_OK =? ESP_OK)) with false. cbn iota.
      unfold commit_and_reply, Commit, nvs_commit.
      cbn [handles called with_view]. rewrite Hrw.
      change (negb (ESP_OK =? ESP_OK)) with false. cbn iota.
      intros [= <- <- <-]. unfold P.
      match goal with
      | |- context [destroy h ?s] =>
          destruct (destroy_content h s) as [Hdv Hds]
      end.
      rewrite Hdv, Hds.
      cbn [view stored with_stored with_view called].
      rewrite !lookup_insert_ne by congruence.
      split; [exact Hv | exact Hs]. }
  unfold Receive.
  destruct (received req <? 0); [now apply Hfail |].
  destruct (negb (received req =? content_len req)); [now apply Hfail |].
  destruct (body req) as [json |]; [| now apply Hfail].
  destruct (cJSON_GetObjectItemCaseSensitive json "type") as [[ts | |] |];
    try (now apply Hfail).
  destruct (TypeOf ts) as [e type].
  destruct (negb (e =? ESP_OK)); [now apply Hfail |].
  destruct (Open_readwrite ns st) as (h & so & HO & Hh & Hrw & Hre).
  assert (Hso : framed so).
  { revert HO. unfold Open, nvs_open. cbn [view called next_handle].
    destruct (view st !! ns); intros [= _ <-]; split;
      cbn [stored view with_handles with_view called];
      now rewrite ?lookup_insert_ne by congruence. }
  rewrite HO. change (negb (ESP_OK =? ESP_OK)) with false. cbn iota.
  destruct (cJSON_GetObjectItemCaseSensitive json "value") as [[v | d |] |];
    try (now apply Hfail, Hdestroy).
  - destruct type; try (now apply Hfail, Hdestroy).
    + now apply (Htail (ItemStr v)).
    + destruct (dec v) as [dec64 |]; [| now apply Hfail, Hdestroy].
      now apply (Htail (ItemBlob dec64)).
  - destruct (int_range type) as [[lo hi] |] eqn:Hrange;
      [| now apply Hfail, Hdestroy].
    destruct (valueint d) as [i |]; [| discriminate].
    unfold SetInt. rewrite Hrange.
    destruct (Double.to_int lo hi (Double.of_Z i)) as [z |]; [| discriminate].
    now apply (Htail (ItemInt type z)).
Qed.

Lemma set_route_frame_witness :
  let req :=
    Requests.request Requests.count_query "uint8"
      (cJSON_Number (Double.of_Z 200)) in
  let st' :=
    Requests.left_by (DoConfigSetKey (fun _ => None) req Fixtures.configured) in
  view st' !! "mqtt" = view Fixtures.configured !! "mqtt" /\
  stored st' !! "mqtt" = stored Fixtures.configured !! "mqtt".
Proof.
  exact (set_route_frame (fun _ => None)
           (Requests.request Requests.count_query "uint8"
              (cJSON_Number (Double.of_Z 200)))
           Fixtures.configured ESP_OK (Reply configuration_set)
           (Requests.left_by
              (DoConfigSetKey (fun _ => None)
                 (Requests.request Requests.count_query "uint8"
                    (cJSON_Number (Double.of_Z 200))) Fixtures.configured))
           "mqtt" ltac:(vm_compute; reflexivity)
           ltac:(intros q [= <-]; discriminate)).
Defined.


End ConfigReadFacts.

(** ** The station events of the provisioner *)
Module StationFacts.
Import Provisioner StationEvents.

Lemma count_app {A : Type} (f : A -> bool) (l l' : list A) :
  count f (l ++ l') = (count f l + count f l')%nat.
Proof. unfold count. now rewrite List.filter_app, length_app. Qed.

Lemma EventHandler_station self ev mgr :
  count is_connect (snd (EventHandler self ev mgr))
    = (if asks_connect ev then 1 else 0)%nat /\
  count is_set_connected (snd (EventHandler self ev mgr))
    = (if is_got_ip ev then 1 else 0)%nat.
Proof.
  destruct ev as [id d | id | id | id | id |]; try destruct id;
    cbn [EventHandler asks_connect is_got_ip];
    try (split; reflexivity).
  - destruct (kMaxRetriesCount <=? retries_ self + 1);
      [destruct (wifi_prov_mgr_reset_sm_state_on_failure mgr) |];
      split; reflexivity.
  - destruct (led_ self); split; reflexivity.
Qed.

(** X21.  The handler asks the station to connect once for every
    [WIFI_EVENT_STA_START] and every [WIFI_EVENT_STA_DISCONNECTED], with
    no limit on the number of attempts, and sets the connected bit once
    for every [IP_EVENT_STA_GOT_IP] and for nothing else. *)
Theorem reconnects_after_every_disconnect evs : forall self mgr trace,
  count is_connect (snd (run evs (self, mgr, trace)))
    = (count is_connect trace + count asks_connect evs)%nat /\
  count is_set_connected (snd (run evs (self, mgr, trace)))
    = (count is_set_connected trace + count is_got_ip evs)%nat.
Proof.
  induction evs as [| ev evs IH]; intros self mgr trace.
  - cbn [run fold_left snd]. unfold count at 3 6. cbn. lia.
  - rewrite ProvisionerFacts.run_cons. unfold deliver.
    pose proof (EventHandler_station self ev (posted ev mgr)) as [H1 H2].
    destruct (EventHandler self ev (posted ev mgr)) as [[self' mgr'] out].
    cbn [snd] in H1, H2.
    destruct (IH self' mgr' (trace ++ out)) as [I1 I2].
    rewrite I1, I2, !count_app, H1, H2.
    unfold count at 4 8. cbn [List.filter].
    destruct (asks_connect ev), (is_got_ip ev); cbn [length];
      fold (count asks_connect evs); fold (count is_got_ip evs); lia.
Qed.

End StationFacts.

(** ** The store handle: opening twice *)
Module HandleFacts.
Import Nvs NvsHandle.

(** X22.  [Open] on a handle object that already holds an open handle does
    not close it: the object takes the new number, [Close] then closes
    the new handle only, and the first handle stays open in the library
    with no object left that holds its number. *)
Theorem Open_twice_leaks self a b mode mode' st ma mb :
  view st !! a = Some ma -> view st !! b = Some mb ->
  exists h1 s1 h2 s2,
    Open self a mode st = (ESP_OK, h1, s1) /\
    Open h1 b mode' s1 = (ESP_OK, h2, s2) /\
    handle_ h2 <> handle_ h1 /\
    handles (Close h2 s2) !! handle_ h1 = Some (a, mode) /\
    handles (Close h2 s2) !! handle_ h2 = None.
Proof.
  intros Ha Hb.
  set (n := next_handle st).
  set (s1 := with_handles (<[(n + 1)%N := (a, mode)]> (handles st)) (n + 1)%N
               (called (nvs_open_call a mode) st)).
  set (s2 := with_handles (<[(n + 1 + 1)%N := (b, mode')]> (handles s1))
               (n + 1 + 1)%N (called (nvs_open_call b mode') s1)).
  exists {| handle_ := (n + 1)%N |}, s1, {| handle_ := (n + 1 + 1)%N |}, s2.
  split; [| split; [| split; [| split]]].
  - unfold Open, nvs_open. cbn [view called next_handle]. now rewrite Ha.
  - unfold Open, nvs_open. cbn [view called next_handle with_handles s1].
    subst s1. cbn [view called next_handle with_handles]. now rewrite Hb.
  - cbn [handle_]. lia.
  - unfold Close. cbn [handle_].
    replace (n + 1 + 1 =? 0)%N with false by (symmetry; apply N.eqb_neq; lia).
    subst s2 s1. cbn [nvs_close handles with_handles called].
    rewrite lookup_delete_ne by lia.
    rewrite lookup_insert_ne by lia. apply lookup_insert_eq.
  - unfold Close. cbn [handle_].
    replace (n + 1 + 1 =? 0)%N with false by (symmetry; apply N.eqb_neq; lia).
    subst s2 s1. cbn [nvs_close handles with_handles called].
    apply lookup_delete_eq.
Qed.

Lemma Open_twice_leaks_witness :
  let st := snd (Open NvsHandle.new "app" NVS_READWRITE Fixtures.configured) in
  exists h1 s1 h2 s2,
    Open NvsHandle.new "mqtt" NVS_READONLY st = (ESP_OK, h1, s1) /\
    Open h1 "app" NVS_READWRITE s1 = (ESP_OK, h2, s2) /\
    handle_ h2 <> handle_ h1 /\
    handles (Close h2 s2) !! handle_ h1 = Some ("mqtt"%string, NVS_READONLY) /\
    handles (Close h2 s2) !! handle_ h2 = None.
Proof.
  cbv zeta.
  set (st := snd (Open NvsHandle.new "app" NVS_READWRITE Fixtures.configured)).
  apply (Open_twice_leaks NvsHandle.new "mqtt" "app" NVS_READONLY NVS_READWRITE
           st (default ∅ (view st !! "mqtt")) (default ∅ (view st !! "app")));
    vm_compute; reflexivity.
Defined.


End HandleFacts.

(** ** Init without configuration *)
Module InitFacts.
Import MQTT.

(** X23.  When "broker" or "topic-base" cannot be read, [Init] returns
    [ESP_FAIL] before it touches the transport or the client object: no
    call is made, every member keeps its value, and the content of the
    store is as before. *)
Theorem Init_unreadable self will tr st :
  read64 st "broker" = None \/ read64 st "topic-base" = None ->
  exists st',
    Init self will tr st = (ESP_FAIL, self, st', []) /\
    Nvs.view st' = Nvs.view st /\ Nvs.stored st' = Nvs.stored st.
Proof.
  unfold Init, read64.
  pose proof (ConfigReadFacts.Open_readonly_content NvsHandle.new "mqtt" st) as HO.
  destruct (NvsHandle.Open NvsHandle.new "mqtt" Nvs.NVS_READONLY st)
    as [[eo handle] s1].
  destruct HO as [Hv Hs].
  pose proof (ConfigReadFacts.destroy_content handle s1) as [Hdv Hds].
  rewrite Hv in Hdv. rewrite Hs in Hds.
  pose proof (MQTTFacts.GetString_cases handle "broker" 64 s1) as Hb.
  pose proof (MQTTFacts.GetString_cases handle "topic-base" 64 s1) as Ht.
  destruct (NvsHandle.GetString handle "broker" true 64 s1) as [[eb ob] lb].
  destruct (NvsHandle.GetString handle "username" true 64 s1) as [[eu ou] lu].
  destruct (NvsHandle.GetString handle "password" true 64 s1) as [[ep op] lp].
  destruct (NvsHandle.GetString handle "topic-base" true 64 s1) as [[et ot] lt].
  destruct Hb as [[-> [b ->]] | [-> _]]; cbn [negb];
    [| intros _; eexists; split; [reflexivity | now split]].
  destruct Ht as [[-> [t ->]] | [-> _]]; cbn [negb];
    [| intros _; eexists; split; [reflexivity | now split]].
  intros [H | H]; discriminate H.
Qed.

Lemma Init_unreadable_witness :
  fst (fst (fst (Init MQTT.new None Fixtures.offline Nvs.blank))) = ESP_FAIL /\
  snd (Init MQTT.new None Fixtures.offline Nvs.blank) = [].
Proof.
  destruct (Init_unreadable MQTT.new None Fixtures.offline Nvs.blank
              (or_introl eq_refl)) as (st' & -> & _).
  split; reflexivity.
Defined.

End InitFacts.

(** ** The get-all route *)
Module ConfigListFacts.
Import Nvs NvsHandle Httpd ConfigWebServices ConfigReadServices.
Import ConfigListServices.

Lemma compare_refl (s : string) : String.compare s s = Eq.
Proof.
  pose proof (String.compare_antisym s s) as H.
  destruct (String.compare s s); [reflexivity | discriminate H ..].
Qed.

Lemma compare_ne (k k' : string) : String.compare k k' <> Eq -> String.eqb k' k = false.
Proof.
  intros H. destruct (String.eqb_spec k' k) as [-> | _]; [| reflexivity].
  now rewrite compare_refl in H.
Qed.

Lemma map_get_set_eq {V : Type} (k : string) (v : V) m :
  map_get k (map_set k v m) = Some v.
Proof.
  unfold map_get. induction m as [| [k' v'] m IH]; cbn [map_set assoc].
  - now rewrite String.eqb_refl.
  - destruct (String.compare k k') eqn:E; cbn [assoc].
    + now rewrite String.eqb_refl.
    + now rewrite String.eqb_refl.
    + rewrite compare_ne by (rewrite E; discriminate). exact IH.
Qed.

Lemma map_get_set_ne {V : Type} (k k0 : string) (v : V) m :
  k <> k0 -> map_get k (map_set k0 v m) = map_get k m.
Proof.
  intros Hne. unfold map_get.
  assert (Hk : String.eqb k0 k = false)
    by (destruct (String.eqb_spec k0 k); congruence).
  induction m as [| [k' v'] m IH]; cbn [map_set assoc].
  - now rewrite Hk.
  - destruct (String.compare k0 k') eqn:E; cbn [assoc].
    + apply String.compare_eq_iff in E. subst k'. now rewrite Hk.
    + now rewrite Hk.
    + now rewrite IH.
Qed.

Lemma map_set_Forall {V : Type} (P : string * V -> Prop) k v m :
  P (k, v) -> Forall P m -> Forall P (map_set k v m).
Proof.
  intros Hk. induction 1 as [| [k' v'] m Hx Hm IH]; cbn [map_set].
  - now repeat constructor.
  - destruct (String.compare k k'); repeat constructor; assumption.
Qed.

Lemma map_get_Forall {V : Type} (P : string * V -> Prop) k v m :
  Forall P m -> map_get k m = Some v -> P (k, v).
Proof.
  unfold map_get. induction 1 as [| [k' v'] m Hx Hm IH]; cbn [assoc];
    [discriminate |].
  destruct (String.eqb_spec k' k) as [-> | _]; [now intros [= <-] | exact IH].
Qed.

Lemma record_listed config ns0 k0 t0 ns key :
  listed (record config (ns0, k0, t0)) ns key =
    if decide (ns = ns0 /\ key = k0) then Some t0 else listed config ns key.
Proof.
  unfold listed, record.
  destruct (decide (ns = ns0)) as [-> | Hns].
  - rewrite map_get_set_eq.
    destruct (decide (key = k0)) as [-> | Hk].
    + rewrite map_get_set_eq. now rewrite decide_True.
    + rewrite map_get_set_ne by exact Hk.
      rewrite decide_False by tauto.
      now destruct (map_get ns0 config).
  - rewrite map_get_set_ne by exact Hns.
    now rewrite decide_False by tauto.
Qed.

Lemma entries_spec st ns key ty :
  In (ns, key, ty) (entries st) <->
  exists it, item_at st ns key = Some it /\ ty = item_type it.
Proof.
  unfold entries, item_at. rewrite in_flat_map. split.
  - intros ([ns' m] & Hin & Hk).
    apply list_elem_of_In, elem_of_map_to_list in Hin.
    apply in_map_iff in Hk as ([key' it] & [= <- <- <-] & Hit).
    apply list_elem_of_In, elem_of_map_to_list in Hit.
    rewrite Hin. now exists it.
  - intros (it & Hit & ->).
    destruct (view st !! ns) as [m |] eqn:Hm; [| discriminate].
    exists (ns, m). split.
    + now apply list_elem_of_In, elem_of_map_to_list.
    + apply in_map_iff. exists (key, it). split; [reflexivity |].
      now apply list_elem_of_In, elem_of_map_to_list.
Qed.

Lemma collect_listed st : forall ns key,
  listed (collect (entries st)) ns key = item_type <$> item_at st ns key.
Proof.
  unfold collect.
  assert (G : forall es,
    (forall ns key ty, In (ns, key, ty) es ->
       exists it, item_at st ns key = Some it /\ ty = item_type it) ->
    forall ns key,
      listed (fold_left record es []) ns key =
        match listed (fold_left record es []) ns key with
        | Some _ => item_type <$> item_at st ns key
        | None => None
        end /\
      (listed (fold_left record es []) ns key = None ->
       forall ty, ~ In (ns, key, ty) es)).
  { induction es as [| [[ns0 k0] t0] es IH] using rev_ind; intros Hes ns key.
    - split; [reflexivity | intros _ ty []].
    - rewrite fold_left_app. cbn [fold_left]. rewrite record_listed.
      assert (Hes' : forall a b c, In (a, b, c) es ->
                exists it, item_at st a b = Some it /\ c = item_type it)
        by (intros a b c H; apply Hes, in_or_app; now left).
      destruct (IH Hes' ns key) as [IH1 IH2].
      destruct (decide (ns = ns0 /\ key = k0)) as [[-> ->] | Hne].
      + assert (Hin0 : In (ns0, k0, t0) (es ++ [(ns0, k0, t0)]))
          by (apply in_or_app; right; now left).
        destruct (Hes ns0 k0 t0 Hin0) as (it & -> & ->).
        split; [reflexivity | discriminate].
      + split; [exact IH1 |].
        intros Hnone ty Hin. apply in_app_or in Hin as [Hin | [[= -> -> ->] | []]].
        * now apply (IH2 Hnone ty).
        * now apply Hne. }
  intros ns key.
  destruct (G (entries st) (fun a b c H => proj1 (entries_spec st a b c) H) ns key)
    as [G1 G2].
  destruct (listed (fold_left record (entries st) []) ns key) as [ty |] eqn:E.
  - exact G1.
  - destruct (item_at st ns key) as [it |] eqn:Hit; [| reflexivity].
    exfalso. apply (G2 eq_refl (item_type it)).
    apply entries_spec. now exists it.
Qed.

Lemma collect_faithful st : faithful st (collect (entries st)).
Proof.
  unfold collect.
  assert (G : forall es config,
    (forall ns key ty, In (ns, key, ty) es ->
       exists it, item_at st ns key = Some it /\ ty = item_type it) ->
    faithful st config -> faithful st (fold_left record es config)).
  { induction es as [| [[ns0 k0] t0] es IH]; intros config Hes Hc; [exact Hc |].
    cbn [fold_left]. apply IH; [intros a b c H; apply Hes; now right |].
    destruct (Hes ns0 k0 t0 (or_introl eq_refl)) as (it & Hit & ->).
    unfold item_at in Hit.
    destruct (view st !! ns0) as [m |] eqn:Hm; [| discriminate].
    unfold record. apply map_set_Forall; [| exact Hc].
    exists m. split; [exact Hm |].
    apply map_set_Forall; [now exists it |].
    destruct (map_get ns0 config) as [keys |] eqn:Hg; cbn [default];
      [| constructor].
    pose proof (map_get_Forall _ ns0 keys config Hc Hg) as (m' & Hm' & Hkeys).
    cbn in Hm'. rewrite Hm in Hm'. now injection Hm' as <-. }
  apply G; [intros a b c H; now apply entries_spec | constructor].
Qed.

Lemma JsonNode_find enc json h key ty st h' st' :
  find (handle_ h) key st = find (handle_ h') key st' ->
  JsonNode enc json h key ty st = JsonNode enc json h' key ty st'.
Proof.
  intros H.
  unfold JsonNode, GetInt, nvs_get_int, GetString, nvs_get_str, GetBlob,
    nvs_get_blob.
  now rewrite H.
Qed.

Lemma keys_loop_objects enc st ns m h so :
  view st !! ns = Some m ->
  (forall key,
     find (handle_ h) key so =
       match m !! key with
       | Some it => inr it
       | None => inl ESP_ERR_NVS_NOT_FOUND
       end) ->
  forall keys acc r,
    Forall (fun '(key, type) =>
              exists it, m !! key = Some it /\ type = item_type it) keys ->
    keys_loop enc h keys acc so = Some (inr r) ->
    exists l, r = acc ++ l /\ Forall2 (key_object enc st ns) keys l.
Proof.
  intros Hm Hfind.
  induction keys as [| [key ty] keys IH]; intros acc r Hkeys; cbn [keys_loop].
  - intros [= <-]. exists []. split; [now rewrite app_nil_r | constructor].
  - apply Forall_cons in Hkeys as [(it & Hit & ->) Hkeys].
    destruct (JsonNode enc [] h key (item_type it) so) as [[f | key_json] |] eqn:HJ;
      try discriminate.
    intros Hl. destruct (IH _ _ Hkeys Hl) as (l & -> & Hl2).
    exists ((key, key_json) :: l). split; [now rewrite <- app_assoc |].
    constructor; [| exact Hl2].
    split; [reflexivity |]. exists it. cbn [fst snd].
    split; [unfold item_at; now rewrite Hm |]. split; [reflexivity |].
    intros h' s' Hf'. rewrite <- HJ. apply JsonNode_find.
    rewrite Hf', Hfind, Hit. reflexivity.
Qed.

Lemma Close_content h s : view (Close h s) = view s /\ stored (Close h s) = stored s.
Proof. unfold Close. destruct (handle_ h =? 0)%N; split; reflexivity. Qed.

Lemma namespaces_loop_objects enc st : forall config h0 resp s r h' s',
  faithful st config -> view s = view st ->
  namespaces_loop enc h0 config resp s = Some (inr (r, h', s')) ->
  exists l, r = resp ++ l /\ Forall2 (namespace_object enc st) config l.
Proof.
  induction config as [| [ns keys] config IH]; intros h0 resp s r h' s' Hc Hv;
    cbn [namespaces_loop].
  - intros [= <- _ _]. exists []. split; [now rewrite app_nil_r | constructor].
  - apply Forall_cons in Hc as [(m & Hm & Hkeys) Hc].
    assert (Hm' : view s !! ns = Some m) by now rewrite Hv.
    destruct (EraseFacts.Open_existing h0 ns NVS_READONLY s m Hm')
      as (h & so & -> & _ & _ & Hvo & _ & _ & Hfind).
    destruct (keys_loop enc h keys [] so) as [[[e out] | nj] |] eqn:HK;
      try discriminate.
    destruct (keys_loop_objects enc st ns m h so Hm Hfind keys [] nj Hkeys HK)
      as (l & -> & Hl).
    intros HN.
    assert (Hvc : view (Close h so) = view st)
      by (destruct (Close_content h so) as [-> _]; now rewrite Hvo).
    destruct (IH _ _ _ _ _ _ Hc Hvc HN) as (l2 & -> & Hl2).
    exists ((ns, l) :: l2). split; [now rewrite <- app_assoc |].
    constructor; [| exact Hl2]. split; [reflexivity | exact Hl].
Qed.

Lemma Forall2_map_get {A B : Type} (R : string -> A -> B -> Prop)
    (l1 : list (string * A)) (l2 : list (string * B)) :
  Forall2 (fun a b => fst b = fst a /\ R (fst a) (snd a) (snd b)) l1 l2 ->
  forall k,
    match map_get k l1, map_get k l2 with
    | Some a, Some b => R k a b
    | None, None => True
    | _, _ => False
    end.
Proof.
  unfold map_get.
  induction 1 as [| [k1 a] [k2 b] l1 l2 [Hk HR] _ IH]; intros k; cbn [assoc];
    [exact I |].
  cbn [fst snd] in Hk, HR. subst k2.
  destruct (String.eqb_spec k1 k) as [-> | _]; [exact HR | apply IH].
Qed.

Lemma get_all_objects enc print req st out st' :
  DoConfigGetAll enc print req st = Some (ESP_OK, out, st') ->
  exists response,
    out = ReplyJson (print response) /\
    forall ns key,
      match item_at st ns key with
      | Some it =>
          exists object,
            listed response ns key = Some object /\
            forall h s,
              find (handle_ h) key s = inr it ->
              JsonNode enc [] h key (item_type it) s = Some (inr object)
      | None => listed response ns key = None
      end.
Proof.
  unfold DoConfigGetAll.
  destruct (namespaces_loop enc NvsHandle.new (collect (entries st)) [] st)
    as [[[[[e o] h] s] | [[response h] s]] |] eqn:HN; try discriminate.
  intros [= <- <-]. exists response. split; [reflexivity |].
  destruct (namespaces_loop_objects enc st _ _ _ _ _ _ _
              (collect_faithful st) eq_refl HN) as (l & Hl & HF).
  cbn [app] in Hl. subst l.
  intros ns key.
  pose proof (collect_listed st ns key) as HC.
  pose proof (Forall2_map_get
                (fun ns keys objects => Forall2 (key_object enc st ns) keys objects)
                _ _ HF ns) as Hns.
  unfold listed in *.
  destruct (map_get ns (collect (entries st))) as [keys |],
           (map_get ns response) as [objects |]; try contradiction.
  - pose proof (Forall2_map_get
                  (fun key ty object =>
                     exists it,
                       item_at st ns key = Some it /\ ty = item_type it /\
                       forall h s,
                         find (handle_ h) key s = inr it ->
                         JsonNode enc [] h key (item_type it) s
                           = Some (inr object))
                  keys objects Hns key) as Hkey.
    destruct (map_get key keys) as [ty |], (map_get key objects) as [object |];
      try contradiction.
    + destruct Hkey as (it & Hit & _ & HJ). rewrite Hit. now exists object.
    + destruct (item_at st ns key); [discriminate HC | reflexivity].
  - destruct (item_at st ns key); [discriminate HC | reflexivity].
Qed.

Lemma JsonNode_empty_blob enc json h key s :
  find (handle_ h) key s = inr (ItemBlob []) ->
  JsonNode enc json h key NVS_TYPE_BLOB s = None.
Proof.
  intros Hf. unfold JsonNode, GetBlob, nvs_get_blob. rewrite Hf. reflexivity.
Qed.

(** X27.  The reply of the get-all route lists exactly the visible keys:
    when the route answers with success, then for every namespace and
    key the reply holds an object under them exactly when an item is
    visible there, and the object is the one that [JsonNode] fills for
    that item, as the get-key route does.  Such an answer is given only
    on a store that shows no blob of length 0, for which the object
    would be read from an unwritten buffer. *)
Theorem get_all_lists_visible enc print req st out st' :
  DoConfigGetAll enc print req st = Some (ESP_OK, out, st') ->
  exists response,
    out = ReplyJson (print response) /\
    (forall ns key,
       match item_at st ns key with
       | Some it =>
           exists object,
             listed response ns key = Some object /\
             forall h s,
               find (handle_ h) key s = inr it ->
               JsonNode enc [] h key (item_type it) s = Some (inr object)
       | None => listed response ns key = None
       end) /\
    (forall ns key, item_at st ns key <> Some (ItemBlob [])).
Proof.
  intros H.
  destruct (get_all_objects enc print req st out st' H) as (response & Hout & Hall).
  exists response. split; [exact Hout |]. split; [exact Hall |].
  intros ns key Hit. specialize (Hall ns key). rewrite Hit in Hall.
  destruct Hall as (object & _ & HJ).
  unfold item_at in Hit.
  destruct (view st !! ns) as [m |] eqn:Hm; [| discriminate].
  destruct (EraseFacts.Open_existing NvsHandle.new ns NVS_READONLY st m Hm)
    as (h & so & _ & _ & _ & _ & _ & _ & Hfind).
  specialize (Hfind key). rewrite Hit in Hfind.
  specialize (HJ h so Hfind). cbn [item_type] in HJ.
  rewrite (JsonNode_empty_blob enc [] h key so Hfind) in HJ. discriminate HJ.
Qed.

Lemma keys_loop_answers enc h s : forall keys acc,
  match keys_loop enc h keys acc s with
  | Some (inl (err, out)) => err = ESP_FAIL /\ is_error out
  | Some (inr _) => True
  | None => exists key, find (handle_ h) key s = inr (ItemBlob [])
  end.
Proof.
  induction keys as [| [key ty] keys IH]; intros acc; cbn [keys_loop];
    [exact I |].
  pose proof (ConfigReadFacts.JsonNode_answers enc [] h key ty s) as HJ.
  destruct (JsonNode enc [] h key ty s) as [[[e out] | key_json] |].
  - exact HJ.
  - apply IH.
  - now exists key.
Qed.

Lemma namespaces_loop_answers enc st : forall config h0 resp s,
  faithful st config -> view s = view st -> stored s = stored st ->
  match namespaces_loop enc h0 config resp s with
  | Some (inl (err, out, _, s')) =>
      err = ESP_FAIL /\ is_error out /\
      view s' = view st /\ stored s' = stored st
  | Some (inr (_, _, s')) => view s' = view st /\ stored s' = stored st
  | None => exists ns key, item_at st ns key = Some (ItemBlob [])
  end.
Proof.
  induction config as [| [ns keys] config IH]; intros h0 resp s Hc Hv Hs;
    cbn [namespaces_loop]; [now split |].
  apply Forall_cons in Hc as [(m & Hm & Hkeys) Hc].
  assert (Hm' : view s !! ns = Some m) by now rewrite Hv.
  destruct (EraseFacts.Open_existing h0 ns NVS_READONLY s m Hm')
    as (h & so & -> & _ & _ & Hvo & Hso & _ & Hfind).
  pose proof (keys_loop_answers enc h so keys []) as HK.
  destruct (keys_loop enc h keys [] so) as [[[e out] | nj] |].
  - destruct HK as [-> Hout]. repeat split; [exact Hout | |]; congruence.
  - destruct (Close_content h so) as [Hcv Hcs].
    apply IH; [exact Hc | |]; congruence.
  - destruct HK as (key & Hkey). exists ns, key.
    unfold item_at. rewrite Hm. rewrite Hfind in Hkey.
    destruct (m !! key); [now injection Hkey as -> | discriminate].
Qed.

(** X28.  The get-all route answers a request exactly once and changes
    nothing in the store: it returns [ESP_OK] after one JSON reply, or
    [ESP_FAIL] after one error response (that of the first key that
    cannot be read), and the content of the store is as before.  The
    requests it does not answer in a defined way are those on a store
    that shows a blob of length 0: there it reads the buffer that the
    encoder has left unwritten. *)
Theorem DoConfigGetAll_answers enc print req st :
  match DoConfigGetAll enc print req st with
  | Some (err, out, st') =>
      view st' = view st /\ stored st' = stored st /\
      ((err = ESP_OK /\ is_json_reply out) \/ (err = ESP_FAIL /\ is_error out))
  | None => exists ns key, item_at st ns key = Some (ItemBlob [])
  end.
Proof.
  unfold DoConfigGetAll.
  pose proof (namespaces_loop_answers enc st (collect (entries st))
                NvsHandle.new [] st (collect_faithful st) eq_refl eq_refl) as HN.
  destruct (namespaces_loop enc NvsHandle.new (collect (entries st)) [] st)
    as [[[[[e out] h] s] | [[response h] s]] |].
  - destruct HN as (-> & Hout & Hv & Hs).
    destruct (ConfigReadFacts.destroy_content h s) as [Hdv Hds].
    split; [congruence |]. split; [congruence |]. right. now split.
  - destruct HN as [Hv Hs].
    destruct (ConfigReadFacts.destroy_content h s) as [Hdv Hds].
    split; [congruence |]. split; [congruence |]. left.
    split; [reflexivity | eexists; reflexivity].
  - exact HN.
Qed.

Lemma namespaces_loop_calls enc st : forall config h0 resp s r h' s',
  faithful st config -> view s = view st -> config <> [] ->
  namespaces_loop enc h0 config resp s = Some (inr (r, h', s')) ->
  handle_ h' <> 0%N /\
  exists pre, calls s' = calls s ++ pre ++ [nvs_close_call (handle_ h')].
Proof.
  induction config as [| [ns keys] config IH]; intros h0 resp s r h' s' Hc Hv Hne;
    [now contradiction Hne |].
  cbn [namespaces_loop].
  apply Forall_cons in Hc as [(m & Hm & Hkeys) Hc].
  assert (Hm' : view s !! ns = Some m) by now rewrite Hv.
  destruct (EraseFacts.Open_existing h0 ns NVS_READONLY s m Hm')
    as (h & so & -> & Hh & _ & Hvo & _ & Hco & _).
  destruct (keys_loop enc h keys [] so) as [[[e out] | nj] |]; try discriminate.
  assert (Hcc : calls (Close h so) =
                calls s ++ [nvs_open_call ns NVS_READONLY;
                            nvs_close_call (handle_ h)]).
  { unfold Close. apply N.eqb_neq in Hh. rewrite Hh.
    cbn [nvs_close calls with_handles called]. rewrite Hco.
    now rewrite <- app_assoc. }
  assert (Hvc : view (Close h so) = view st)
    by (destruct (Close_content h so) as [-> _]; now rewrite Hvo).
  destruct config as [| c config].
  - cbn [namespaces_loop]. intros [= _ <- <-]. split; [exact Hh |].
    exists [nvs_open_call ns NVS_READONLY]. exact Hcc.
  - intros HN.
    destruct (IH _ _ _ _ _ _ Hc Hvc ltac:(discriminate) HN) as (Hh' & pre & Hpre).
    split; [exact Hh' |].
    exists ([nvs_open_call ns NVS_READONLY; nvs_close_call (handle_ h)] ++ pre).
    rewrite Hpre, Hcc, <- !app_assoc. reflexivity.
Qed.

(** X29.  The get-all route closes its last handle twice: [my_handle.Close ()]
    ends the walk over the last namespace, and the destructor of
    [my_handle] passes the same number to [nvs_close] again.  So, when
    the store shows at least one key, the calls of a successful request
    end with two [nvs_close] of one handle. *)
Theorem get_all_closes_twice enc print req st out st' ns key it :
  DoConfigGetAll enc print req st = Some (ESP_OK, out, st') ->
  item_at st ns key = Some it ->
  exists pre h,
    calls st' = calls st ++ pre ++ [nvs_close_call h; nvs_close_call h].
Proof.
  unfold DoConfigGetAll. intros H Hit.
  destruct (namespaces_loop enc NvsHandle.new (collect (entries st)) [] st)
    as [[[[[e o] h] s] | [[response h] s]] |] eqn:HN; try discriminate.
  injection H as _ <-.
  assert (Hne : collect (entries st) <> []).
  { pose proof (collect_listed st ns key) as HC. rewrite Hit in HC.
    intros Hnil. rewrite Hnil in HC. discriminate HC. }
  destruct (namespaces_loop_calls enc st _ _ _ _ _ _ _
              (collect_faithful st) eq_refl Hne HN) as (Hh & pre & Hpre).
  exists pre, (handle_ h).
  unfold destroy, Close. apply N.eqb_neq in Hh. rewrite Hh.
  cbn [nvs_close calls with_handles called].
  rewrite Hpre, <- !app_assoc. reflexivity.
Qed.

Lemma get_all_lists_visible_witness :
  exists response,
    listed response "mqtt" "broker"
      = Some [("type"%string, cJSON_String "string");
              ("value"%string, cJSON_String "mqtt://192.168.86.30")].
Proof.
  destruct (get_all_lists_visible (fun _ _ => None) (fun _ => "{}"%string)
              (Requests.query_only []) Fixtures.configured (ReplyJson "{}")
              (Requests.left_by
                 (DoConfigGetAll (fun _ _ => None) (fun _ => "{}"%string)
                    (Requests.query_only []) Fixtures.configured))
              ltac:(vm_compute; reflexivity))
    as (response & _ & Hall & _).
  specialize (Hall "mqtt"%string "broker"%string).
  change (item_at Fixtures.configured "mqtt" "broker")
    with (Some (ItemStr "mqtt://192.168.86.30")) in Hall.
  destruct Hall as (object & Hl & HJ).
  exists response. refine (eq_trans Hl _).
  specialize (HJ (snd (fst (Open NvsHandle.new "mqtt" NVS_READONLY Fixtures.configured)))
                 (snd (Open NvsHandle.new "mqtt" NVS_READONLY Fixtures.configured))
                 ltac:(vm_compute; reflexivity)).
  vm_compute in HJ. injection HJ as <-. reflexivity.
Defined.

Lemma get_all_closes_twice_witness :
  exists pre h,
    calls (Requests.left_by
             (DoConfigGetAll (fun _ _ => None) (fun _ => "{}"%string)
                (Requests.query_only []) Fixtures.configured))
      = calls Fixtures.configured ++ pre ++ [nvs_close_call h; nvs_close_call h].
Proof.
  exact (get_all_closes_twice (fun _ _ => None) (fun _ => "{}"%string)
           (Requests.query_only []) Fixtures.configured (ReplyJson "{}")
           (Requests.left_by
              (DoConfigGetAll (fun _ _ => None) (fun _ => "{}"%string)
                 (Requests.query_only []) Fixtures.configured))
           "mqtt" "broker" (ItemStr "mqtt://192.168.86.30")
           ltac:(vm_compute; reflexivity) ltac:(vm_compute; reflexivity)).
Defined.

End ConfigListFacts.

(** ** The MAC address of the info route *)
Module InfoFacts.
Import ServiceName Info.

(** X30.  The info route reports the MAC address in full: the member is
    the six bytes as upper-case hexadecimal pairs separated by colons,
    17 characters that the buffer of 18 bytes never truncates, so two
    addresses are reported alike only when they are equal; and the
    service name of the provisioner for the same address is "PROV_"
    followed by the last three pairs of that string. *)
Theorem mac_address_in_full (m m' : list Z) :
  bytes m -> bytes m' -> length m = 6%nat -> length m' = 6%nat ->
  (exists s,
     wifi_mac_address (ESP_OK, m) = Some s /\ String.length s = 17%nat /\
     GetDefautlServiceName m =
       String.append "PROV_"
         (String.append (substring 9 2 s)
            (String.append (substring 12 2 s) (substring 15 2 s)))) /\
  (wifi_mac_address (ESP_OK, m) = wifi_mac_address (ESP_OK, m') -> m = m').
Proof.
  intros Hm Hm' Hl Hl'.
  destruct m as [| a0 [| a1 [| a2 [| a3 [| a4 [| a5 [| ? ?]]]]]]]; try discriminate Hl.
  destruct m' as [| b0 [| b1 [| b2 [| b3 [| b4 [| b5 [| ? ?]]]]]]]; try discriminate Hl'.
  split.
  - eexists. split; [reflexivity |]. split; reflexivity.
  - unfold bytes in *.
    repeat match goal with
           | H : Forall _ (_ :: _) |- _ => apply Forall_cons in H as [? H]
           end.
    intros Heq. cbn in Heq.
    injection Heq as H0h H0l H1h H1l H2h H2l H3h H3l H4h H4l H5h H5l.
    assert (hex02 a0 = hex02 b0) by (unfold hex02; congruence).
    assert (hex02 a1 = hex02 b1) by (unfold hex02; congruence).
    assert (hex02 a2 = hex02 b2) by (unfold hex02; congruence).
    assert (hex02 a3 = hex02 b3) by (unfold hex02; congruence).
    assert (hex02 a4 = hex02 b4) by (unfold hex02; congruence).
    assert (hex02 a5 = hex02 b5) by (unfold hex02; congruence).
    repeat f_equal; now apply ServiceNameFacts.hex02_inj.
Qed.

Lemma mac_address_in_full_witness :
  wifi_mac_address (ESP_OK, [0x24; 0x6F; 0x28; 0xA1; 0xB2; 0xC3])
    = Some "24:6F:28:A1:B2:C3"%string /\
  GetDefautlServiceName [0x24; 0x6F; 0x28; 0xA1; 0xB2; 0xC3]
    = "PROV_A1B2C3"%string.
Proof.
  destruct (proj1 (mac_address_in_full
                     [0x24; 0x6F; 0x28; 0xA1; 0xB2; 0xC3]
                     [0x24; 0x6F; 0x28; 0xA1; 0xB2; 0xC3]
                     ltac:(repeat constructor; lia) ltac:(repeat constructor; lia)
                     eq_refl eq_refl))
    as (s & Hs & _ & Hname).
  injection Hs as <-. split; [reflexivity | exact Hname].
Defined.

End InfoFacts.
